(** * Snow-cover mapping utilities: a shallow embedding of [functions/utils.py]

    The development covers the two numerical procedures of the module:

    - [calculate_sla_bounds]: the snowline-altitude uncertainty envelope
      derived from raster misclassification areas;
    - [determine_best_model] and [assess_model_feature_importances]: K-fold
      cross-validated model selection, retraining and persistence.

    Conventions.  A Python/NumPy float is idealised as an exact rational
    ([Q]) or the not-a-number value ([NaN]); rounding is not modelled.
    Exceptions are explicit ([result]).  Library code that the module calls
    but does not define (scikit-learn estimators and metrics, the NumPy
    random generator, [permutation_importance], the plotting calls) is an
    interface, the class [Library]; [KFold], [nanpercentile] and the array
    helpers are written out after their documented behaviour. *)

From Stdlib Require Import List ZArith QArith Qround Qabs Lia Lqa Bool Ascii String.
From Stdlib Require Import Sorting.Sorted Sorting.Permutation.
From Stdlib Require DecimalString.
Import ListNotations.

Set Implicit Arguments.

(** ** Floats, exceptions *)

Inductive npfloat : Type :=
| Num (q : Q)
| NaN.

Inductive exn : Type :=
| ZeroDivisionError
| ValueError
| IndexError
| TypeError
| KeyError
| FileNotFoundError.

Inductive result (A : Type) : Type :=
| Ok (a : A)
| Raise (e : exn).

Arguments Ok {A} a.
Arguments Raise {A} e.

Definition rbind {A B} (r : result A) (k : A -> result B) : result B :=
  match r with
  | Ok a => k a
  | Raise e => Raise e
  end.

Declare Scope result_scope.
Delimit Scope result_scope with res.
Notation "x <- c ;; k" := (rbind c (fun x => k))
  (at level 61, c at next level, right associativity) : result_scope.

(** ** NumPy helpers used by [calculate_sla_bounds] *)

Module Np.

Definition Qltb (a b : Q) : bool := negb (Qle_bool b a).

Definition isnan (x : npfloat) : bool :=
  match x with NaN => true | Num _ => false end.

(** [x > s], [x < s], [x == s] on an array cell: every comparison with NaN
    is false. *)
Definition gt (x : npfloat) (s : Q) : bool :=
  match x with Num q => Qltb s q | NaN => false end.

Definition lt (x : npfloat) (s : Q) : bool :=
  match x with Num q => Qltb q s | NaN => false end.

Definition eqv (x : npfloat) (s : Q) : bool :=
  match x with Num q => Qeq_bool q s | NaN => false end.

(** [len(np.argwhere(p(a)).ravel())] for a one-dimensional array: the number
    of cells where the mask is true. *)
Definition count_true (m : list bool) : nat :=
  List.length (filter (fun b => b) m).

(** The non-NaN samples of an array, in array order. *)
Fixpoint valid (a : list npfloat) : list Q :=
  match a with
  | [] => []
  | Num q :: a' => q :: valid a'
  | NaN :: a' => valid a'
  end.

(** [np.clip(x, lo, hi)] = [minimum(maximum(x, lo), hi)]. *)
Definition clip (x lo hi : Q) : Q :=
  let m := if Qle_bool lo x then x else lo in
  if Qle_bool m hi then m else hi.

Fixpoint insert (x : Q) (l : list Q) : list Q :=
  match l with
  | [] => [x]
  | y :: l' => if Qle_bool x y then x :: l else y :: insert x l'
  end.

Fixpoint sort (l : list Q) : list Q :=
  match l with
  | [] => []
  | x :: l' => insert x (sort l')
  end.

(** Linear interpolation between the order statistics of a sorted sample at
    the fraction [q] (in [0,1]): virtual index [q * (n - 1)], its floor, the
    next index capped at [n - 1], and [a_lo + (a_hi - a_lo) * gamma]. *)
Definition lerp_sorted (s : list Q) (q : Q) : Q :=
  let n := List.length s in
  let vi := q * inject_Z (Z.of_nat (n - 1)) in
  let lo := Z.to_nat (Qfloor vi) in
  let hi := Nat.min (lo + 1) (n - 1) in
  let g := vi - inject_Z (Qfloor vi) in
  let a := nth lo s 0 in
  let b := nth hi s 0 in
  a + (b - a) * g.

(** [np.nanpercentile(a, p)] with the default linear method, [p] in percent:
    [ValueError] outside [0, 100], NaN for an all-NaN (or empty) array. *)
Definition nanpercentile (a : list npfloat) (p : Q) : result npfloat :=
  let q := p / 100 in
  if Qle_bool 0 q && Qle_bool q 1 then
    match valid a with
    | [] => Ok NaN
    | v => Ok (Num (lerp_sorted (sort v) q))
    end
  else Raise ValueError.

Fixpoint minimum (x : Q) (l : list Q) : Q :=
  match l with
  | [] => x
  | y :: l' => minimum (if Qle_bool x y then x else y) l'
  end.

Fixpoint maximum (x : Q) (l : list Q) : Q :=
  match l with
  | [] => x
  | y :: l' => maximum (if Qle_bool x y then y else x) l'
  end.

(** [np.nanmin] / [np.nanmax]: NaN when there is no valid sample. *)
Definition nanmin (a : list npfloat) : npfloat :=
  match valid a with
  | [] => NaN
  | x :: l => Num (minimum x l)
  end.

Definition nanmax (a : list npfloat) : npfloat :=
  match valid a with
  | [] => NaN
  | x :: l => Num (maximum x l)
  end.

End Np.

(** Python's [a / b] on floats ([dx] is a Python float, so are the areas):
    a zero divisor raises. *)
Definition py_div (a b : Q) : result Q :=
  if Qeq_bool b 0 then Raise ZeroDivisionError else Ok (a / b).

(** ** [calculate_sla_bounds] *)

(** The two entries of the statistics row that the function reads. *)
Record stats_row : Type := {
  AAR : Q;
  ELA_from_AAR_m : Q
}.

(** The ravelled rasters: [dem] and [snow_cover_mask] are co-registered, so
    cell [k] of one is cell [k] of the other. *)
Definition raster := list npfloat.

Definition npx (dem : raster) : nat :=
  Np.count_true (map (fun e => negb (Np.isnan e)) dem).

Definition total_area (dem : raster) (dx : Q) : Q :=
  inject_Z (Z.of_nat (npx dem)) * dx ^ 2.

(** [xr.where((dem > sla) & (snow_cover_mask == 0), 1, 0)] followed by the
    [== 1] test. *)
Definition snow_free_above_sla (sla : Q) (dem mask : raster) : list bool :=
  map (fun c => Np.gt (fst c) sla && Np.eqv (snd c) 0) (combine dem mask).

Definition snow_covered_below_sla (sla : Q) (dem mask : raster) : list bool :=
  map (fun c => Np.lt (fst c) sla && Np.eqv (snd c) 1) (combine dem mask).

Definition snow_free_above_sla_area (sla : Q) (dem mask : raster) (dx : Q) : Q :=
  inject_Z (Z.of_nat (Np.count_true (snow_free_above_sla sla dem mask))) * dx ^ 2.

Definition snow_covered_below_sla_area (sla : Q) (dem mask : raster) (dx : Q) : Q :=
  inject_Z (Z.of_nat (Np.count_true (snow_covered_below_sla sla dem mask))) * dx ^ 2.

Definition sla_percentile (st : stats_row) : Q := 1 - AAR st.

Definition delta_up (st : stats_row) (dem mask : raster) (dx : Q) : result Q :=
  py_div (snow_free_above_sla_area (ELA_from_AAR_m st) dem mask dx)
         (total_area dem dx).

Definition delta_down (st : stats_row) (dem mask : raster) (dx : Q) : result Q :=
  py_div (snow_covered_below_sla_area (ELA_from_AAR_m st) dem mask dx)
         (total_area dem dx).

Definition upper_sla_percentile (st : stats_row) (du : Q) : Q :=
  Np.clip (sla_percentile st + du) 0 1.

Definition lower_sla_percentile (st : stats_row) (dd : Q) : Q :=
  Np.clip (sla_percentile st - dd) 0 1.

(** The returned triple is [(sla, sla_upper_bound, sla_lower_bound)]; [sla]
    is the table entry, handed back unchanged.  The [verbose] branch only
    prints and is left out. *)
Definition calculate_sla_bounds (st : stats_row) (dem mask : raster) (dx : Q)
  : result (Q * npfloat * npfloat) :=
  (let sla := ELA_from_AAR_m st in
   du <- delta_up st dem mask dx ;;
   dd <- delta_down st dem mask dx ;;
   ub <- Np.nanpercentile dem (upper_sla_percentile st du * 100) ;;
   lb <- Np.nanpercentile dem (lower_sla_percentile st dd * 100) ;;
   Ok (sla, ub, lb))%res.

(** ** Tables *)

(** A [pandas.DataFrame] restricted to what the module uses: a row count
    (the index) and named numeric columns. *)
Record DataFrame : Type := {
  nrows : nat;
  columns : list (string * list Q)
}.

Fixpoint get_column (c : string) (cols : list (string * list Q)) : result (list Q) :=
  match cols with
  | [] => Raise KeyError
  | (c', v) :: cols' => if String.eqb c c' then Ok v else get_column c cols'
  end.

Fixpoint select_columns (cs : list string) (cols : list (string * list Q))
  : result (list (string * list Q)) :=
  match cs with
  | [] => Ok []
  | c :: cs' =>
      (v <- get_column c cols ;;
       r <- select_columns cs' cols ;;
       Ok ((c, v) :: r))%res
  end.

(** [data[cs]]: the listed columns, in the order listed, same index. *)
Definition getitem (data : DataFrame) (cs : list string) : result DataFrame :=
  (r <- select_columns cs (columns data) ;;
   Ok {| nrows := nrows data; columns := r |})%res.

(** [df.iloc[ix]] for positions [ix] inside the table. *)
Definition iloc (df : DataFrame) (ix : list nat) : DataFrame :=
  {| nrows := List.length ix;
     columns := map (fun cv => (fst cv, map (fun i => nth i (snd cv) 0) ix)) (columns df) |}.

(** [np.ravel(df.values)]: the cells row by row. *)
Definition ravel_values (df : DataFrame) : list Q :=
  flat_map (fun i => map (fun cv => nth i (snd cv) 0) (columns df)) (seq 0 (nrows df)).

(** The label argument of [fit]: the fold loop passes a ravelled array, the
    final retraining passes the label table itself. *)
Inductive target : Type :=
| Ravelled (v : list Q)
| Frame (df : DataFrame).

(** ** The library interface

    What the module calls in scikit-learn, NumPy's random generator and
    matplotlib.  Estimator objects are stateful: [fit] updates the object in
    place and returns it.  [Est] is the state of one object. *)
Class Library : Type := {
  Est : Type;
  fit : Est -> DataFrame -> target -> Est;
  predict : Est -> DataFrame -> list Q;
  mean_absolute_error : list Q -> list Q -> Q;
  mean_squared_error : list Q -> list Q -> Q;
  mean_absolute_percentage_error : list Q -> list Q -> Q;
  max_error : list Q -> list Q -> Q;
  r2_score : list Q -> list Q -> npfloat;
  (** [RandomState(seed).shuffle(indices)] *)
  rng_shuffle : Z -> list nat -> list nat;
  (** [permutation_importance(model, X, y, n_repeats, random_state)], the
      ['importances'] entry: one vector of samples per feature. *)
  permutation_importance : Est -> DataFrame -> DataFrame -> nat -> Z -> list (list Q);
  (** Drawing the box plot of the importances table with the given tick
      labels; matplotlib may refuse. *)
  boxplot : list (string * list Q) -> list string -> result unit
}.

(** ** [sklearn.model_selection.KFold] *)

Module KFold.

Record t : Type := {
  n_splits : Z;
  shuffle : bool;
  random_state : Z
}.

(** The constructor rejects fewer than two splits. *)
Definition new (n_splits : Z) (shuffle : bool) (random_state : Z) : result t :=
  if (n_splits <=? 1)%Z then Raise ValueError
  else Ok {| n_splits := n_splits; shuffle := shuffle; random_state := random_state |}.

Definition fold_sizes (n k : nat) : list nat :=
  map (fun i => (n / k + (if i <? n mod k then 1 else 0))%nat) (seq 0 k).

Fixpoint chunks (sizes : list nat) (l : list nat) : list (list nat) :=
  match sizes with
  | [] => []
  | s :: sizes' => firstn s l :: chunks sizes' (skipn s l)
  end.

Definition mem (i : nat) (l : list nat) : bool := existsb (Nat.eqb i) l.

(** [split]: the test folds are consecutive chunks of the (shuffled) index
    list; train and test indices are both read off a boolean mask, hence in
    increasing order. *)
Definition split `{Library} (kf : t) (n_samples : nat) : result (list (list nat * list nat)) :=
  if (Z.of_nat n_samples <? n_splits kf)%Z then Raise ValueError
  else
    let indices := seq 0 n_samples in
    let order := if shuffle kf then rng_shuffle (random_state kf) indices else indices in
    Ok (map (fun test =>
               (filter (fun i => negb (mem i test)) indices,
                filter (fun i => mem i test) indices))
            (chunks (fold_sizes n_samples (Z.to_nat (n_splits kf))) order)).

End KFold.

(** ** Arrays of floats *)

Module Arr.

Definition zeros (n : nat) : list npfloat := repeat (Num 0) n.

(** [a[j] = v] *)
Fixpoint set (a : list npfloat) (j : nat) (v : npfloat) : result (list npfloat) :=
  match a, j with
  | [], _ => Raise IndexError
  | _ :: a', O => Ok (v :: a')
  | x :: a', S j' => (r <- set a' j' v ;; Ok (x :: r))%res
  end.

Definition sum (l : list Q) : Q := fold_right Qplus 0 l.

Definition mean (l : list Q) : Q := sum l / inject_Z (Z.of_nat (List.length l)).

(** [np.nanmean] over an array: the mean of the non-NaN entries, NaN when
    there is none. *)
Definition nanmean (a : list npfloat) : npfloat :=
  match Np.valid a with
  | [] => NaN
  | v => Num (mean v)
  end.

(** [np.min]: [ValueError] on an empty array, NaN as soon as one entry is. *)
Definition min (a : list npfloat) : result npfloat :=
  match a with
  | [] => Raise ValueError
  | _ =>
      if existsb Np.isnan a then Ok NaN
      else match Np.valid a with
           | [] => Ok NaN
           | x :: l => Ok (Num (Np.minimum x l))
           end
  end.

(** [a == m], cell by cell; NaN equals nothing. *)
Definition eq_cell (x m : npfloat) : bool :=
  match x, m with
  | Num p, Num q => Qeq_bool p q
  | _, _ => false
  end.

(** [np.argwhere(a == m)[0][0]]: the first matching position. *)
Fixpoint argfirst (a : list npfloat) (m : npfloat) : result nat :=
  match a with
  | [] => Raise IndexError
  | x :: a' => if eq_cell x m then Ok O else (i <- argfirst a' m ;; Ok (S i))%res
  end.

End Arr.

(** A name bound first to an array and later to a scalar, as [rsq_folds]
    is. *)
Inductive pyval : Type :=
| Array (a : list npfloat)
| Scalar (x : npfloat).

Definition nanmean_val (v : pyval) : npfloat :=
  match v with
  | Array a => Arr.nanmean a
  | Scalar x => x
  end.

(** [xs[i]] on a Python list. *)
Definition py_index {A} (xs : list A) (i : nat) : result A :=
  match nth_error xs i with
  | Some x => Ok x
  | None => Raise IndexError
  end.

Definition ends_with_slash (s : string) : bool :=
  match String.get (String.length s - 1) s with
  | Some c => Ascii.eqb c "/"%char
  | None => false
  end.

Definition starts_with_slash (s : string) : bool :=
  match s with
  | String c _ => Ascii.eqb c "/"%char
  | EmptyString => false
  end.

(** [os.path.join(a, b)]: an absolute [b] replaces [a], otherwise the two
    are joined by one slash; [None] as first argument is a [TypeError]. *)
Definition os_path_join (a : option string) (b : string) : result string :=
  match a with
  | None => Raise TypeError
  | Some a =>
      if starts_with_slash b then Ok b
      else if String.eqb a "" || ends_with_slash a then Ok (a ++ b)%string
      else Ok (a ++ "/" ++ b)%string
  end.

(** ** The world: estimator objects, file system, standard output *)

Section Pipeline.

Context `{Library}.

(** What the module writes to disk. *)
Inductive blob : Type :=
| PerformancesCsv (names : list string) (mae mse mape maxe r2 : list npfloat)
| Joblib (e : Est)
| ImportancesCsv (cols : list (string * list Q))
| FigurePng.

(** What the module prints. *)
Inductive msg : Type :=
| MsgModelName (name : string)
| MsgFoldMeanAbsErr (v : npfloat)
| MsgPerformancesSaved (path : string)
| MsgBestName (name : string)
| MsgBestMeanAbsErr (v : npfloat)
| MsgBestSaved (path : string)
| MsgImportancesSaved (path : string)
| MsgFigureSaved (path : string)
| MsgFigurePathInvalid
| MsgOutPathInvalid.

(** Estimators live in a store and are referred to by address, so that the
    same object listed twice is one object; [fit_calls] records, in order,
    every [fit] call made on them.  [path_exists] is [os.path.exists];
    [can_create] tells whether a file can be opened for writing at a path
    (false, e.g., when its directory is missing). *)
Record World : Type := {
  heap : nat -> Est;
  fit_calls : list (nat * DataFrame * target);
  path_exists : string -> bool;
  can_create : string -> bool;
  files : list (string * blob);
  stdout : list msg
}.

Definition M (A : Type) : Type := World -> result A * World.

Definition ret {A} (a : A) : M A := fun w => (Ok a, w).

Definition raise {A} (e : exn) : M A := fun w => (Raise e, w).

Definition bind {A B} (c : M A) (k : A -> M B) : M B :=
  fun w =>
    match c w with
    | (Ok a, w') => k a w'
    | (Raise e, w') => (Raise e, w')
    end.

Definition lift {A} (r : result A) : M A := fun w => (r, w).

Declare Scope io_scope.
Delimit Scope io_scope with io.
Notation "x <- c ;; k" := (bind c (fun x => k))
  (at level 61, c at next level, right associativity) : io_scope.
Notation "c ;; k" := (bind c (fun _ => k))
  (at level 61, right associativity) : io_scope.

Fixpoint foldM {A S} (f : S -> A -> M S) (s : S) (l : list A) : M S :=
  match l with
  | [] => ret s
  | a :: l' => (s' <- f s a ;; foldM f s' l')%io
  end.

Definition print (m : msg) : M unit :=
  fun w => (Ok tt, {| heap := heap w; fit_calls := fit_calls w;
                      path_exists := path_exists w; can_create := can_create w;
                      files := files w; stdout := stdout w ++ [m] |}).

(** [model.fit(X, y)]: the object at [model] is updated in place. *)
Definition model_fit (model : nat) (X : DataFrame) (y : target) : M nat :=
  fun w => (Ok model,
            {| heap := fun a => if Nat.eqb a model then fit (heap w model) X y else heap w a;
               fit_calls := fit_calls w ++ [(model, X, y)];
               path_exists := path_exists w; can_create := can_create w;
               files := files w; stdout := stdout w |}).

Definition model_predict (model : nat) (X : DataFrame) : M (list Q) :=
  fun w => (Ok (predict (heap w model) X), w).

Definition model_state (model : nat) : M Est :=
  fun w => (Ok (heap w model), w).

(** Writing a file ([joblib.dump], [DataFrame.to_csv], [savefig]).  Where no
    file can be created the call ends in an [OSError]; the model keeps the
    one that [open] raises for a missing directory, [FileNotFoundError]. *)
Definition write_file (path : string) (b : blob) : M unit :=
  fun w =>
    if can_create w path then
      (Ok tt, {| heap := heap w; fit_calls := fit_calls w;
                 path_exists := path_exists w; can_create := can_create w;
                 files := files w ++ [(path, b)]; stdout := stdout w |})
    else (Raise FileNotFoundError, w).

(** [os.path.exists(p)]; [None] is a [TypeError]. *)
Definition os_path_exists (p : option string) : M bool :=
  fun w =>
    match p with
    | None => (Raise TypeError, w)
    | Some p => (Ok (path_exists w p), w)
    end.

(** ** [determine_best_model] *)

(** The per-fold arrays and the fold counter [j] of one candidate. *)
Record fold_arrays : Type := {
  j : nat;
  mean_abs_err_folds : list npfloat;
  mean_sq_err_folds : list npfloat;
  mean_abs_percentage_err_folds : list npfloat;
  max_err_folds : list npfloat;
  rsq_folds : pyval
}.

(** The per-candidate arrays. *)
Record perf_arrays : Type := {
  mean_abs_err : list npfloat;
  mean_sq_err : list npfloat;
  mean_abs_percentage_err : list npfloat;
  max_err : list npfloat;
  rsq : list npfloat
}.

(** The fixed seed of the fold shuffle. *)
Definition kfold_random_state : Z := 1.

(** Body of [for train_ix, test_ix in kfold.split(X)]. *)
Definition fold_body (model : nat) (X y : DataFrame) (fa : fold_arrays)
  (ix : list nat * list nat) : M fold_arrays :=
  (let X_train := iloc X (fst ix) in
   let X_test := iloc X (snd ix) in
   let y_train := ravel_values (iloc y (fst ix)) in
   let y_test := ravel_values (iloc y (snd ix)) in
   _ <- model_fit model X_train (Ravelled y_train) ;;
   y_pred <- model_predict model X_test ;;
   a1 <- lift (Arr.set (mean_abs_err_folds fa) (j fa) (Num (mean_absolute_error y_test y_pred))) ;;
   a2 <- lift (Arr.set (mean_sq_err_folds fa) (j fa) (Num (mean_squared_error y_test y_pred))) ;;
   a3 <- lift (Arr.set (mean_abs_percentage_err_folds fa) (j fa)
                 (Num (mean_absolute_percentage_error y_test y_pred))) ;;
   a4 <- lift (Arr.set (max_err_folds fa) (j fa) (Num (max_error y_test y_pred))) ;;
   ret {| j := S (j fa);
          mean_abs_err_folds := a1;
          mean_sq_err_folds := a2;
          mean_abs_percentage_err_folds := a3;
          max_err_folds := a4;
          rsq_folds := Scalar (r2_score y_test y_pred) |})%io.

Definition fold_arrays_init (num_folds : Z) : fold_arrays :=
  let k := Z.to_nat num_folds in
  {| j := 0;
     mean_abs_err_folds := Arr.zeros k;
     mean_sq_err_folds := Arr.zeros k;
     mean_abs_percentage_err_folds := Arr.zeros k;
     max_err_folds := Arr.zeros k;
     rsq_folds := Array (Arr.zeros k) |}.

(** Body of [for i, (name, model) in enumerate(zip(model_names, models))];
    the loop state is the per-candidate arrays and the counter [i]. *)
Definition model_body (X y : DataFrame) (num_folds : Z) (st : nat * perf_arrays)
  (nm : string * nat) : M (nat * perf_arrays) :=
  (let i := fst st in
   let pa := snd st in
   print (MsgModelName (fst nm)) ;;
   kfold <- lift (KFold.new num_folds true kfold_random_state) ;;
   splits <- lift (KFold.split kfold (nrows X)) ;;
   fa <- foldM (fold_body (snd nm) X y) (fold_arrays_init num_folds) splits ;;
   b1 <- lift (Arr.set (mean_abs_err pa) i (Arr.nanmean (mean_abs_err_folds fa))) ;;
   b2 <- lift (Arr.set (mean_sq_err pa) i (Arr.nanmean (mean_sq_err_folds fa))) ;;
   b3 <- lift (Arr.set (mean_abs_percentage_err pa) i (nanmean_val (rsq_folds fa))) ;;
   b4 <- lift (Arr.set (max_err pa) i (Arr.nanmean (max_err_folds fa))) ;;
   b5 <- lift (Arr.set (rsq pa) i (nanmean_val (rsq_folds fa))) ;;
   v <- lift (py_index b1 i) ;;
   print (MsgFoldMeanAbsErr v) ;;
   ret (S i, {| mean_abs_err := b1; mean_sq_err := b2;
                mean_abs_percentage_err := b3; max_err := b4; rsq := b5 |}))%io.

Definition perf_arrays_init (n : nat) : perf_arrays :=
  {| mean_abs_err := Arr.zeros n;
     mean_sq_err := Arr.zeros n;
     mean_abs_percentage_err := Arr.zeros n;
     max_err := Arr.zeros n;
     rsq := Arr.zeros n |}.

(** The cross-validation loop over all candidates. *)
Definition cross_validate (X y : DataFrame) (models : list nat) (model_names : list string)
  (num_folds : Z) : M perf_arrays :=
  (st <- foldM (model_body X y num_folds) (0%nat, perf_arrays_init (List.length models))
        (combine model_names models) ;;
   ret (snd st))%io.

(** [pd.DataFrame({...})] refuses columns of different lengths. *)
Definition performances_df (model_names : list string) (pa : perf_arrays) : result blob :=
  if Nat.eqb (List.length model_names) (List.length (mean_abs_err pa)) then
    Ok (PerformancesCsv model_names (mean_abs_err pa) (mean_sq_err pa)
          (mean_abs_percentage_err pa) (max_err pa) (rsq pa))
  else Raise ValueError.

Definition save_performances_step (save_performances : bool) (model_names : list string)
  (pa : perf_arrays) (out_path : option string) (performances_fn : string) : M unit :=
  if save_performances then
    (df <- lift (performances_df model_names pa) ;;
     path <- lift (os_path_join out_path performances_fn) ;;
     write_file path df ;;
     print (MsgPerformancesSaved path))%io
  else ret tt.

Definition determine_best_model (data : DataFrame) (models : list nat)
  (model_names feature_columns labels : list string) (out_path : option string)
  (best_model_fn : string) (save_performances : bool) (performances_fn : string)
  (num_folds : Z) : M (nat * DataFrame * DataFrame) :=
  (X <- lift (getitem data feature_columns) ;;
   y <- lift (getitem data labels) ;;
   pa <- cross_validate X y models model_names num_folds ;;
   save_performances_step save_performances model_names pa out_path performances_fn ;;
   m <- lift (Arr.min (mean_abs_err pa)) ;;
   ibest <- lift (Arr.argfirst (mean_abs_err pa) m) ;;
   best_model <- lift (py_index models ibest) ;;
   best_model_name <- lift (py_index model_names ibest) ;;
   print (MsgBestName best_model_name) ;;
   print (MsgBestMeanAbsErr m) ;;
   best_model_retrained <- model_fit best_model X (Frame y) ;;
   path <- lift (os_path_join out_path best_model_fn) ;;
   e <- model_state best_model_retrained ;;
   write_file path (Joblib e) ;;
   print (MsgBestSaved path) ;;
   ret (best_model_retrained, X, y))%io.

(** ** [assess_model_feature_importances] *)

(** [df[column] = v] on the table being built. *)
Fixpoint df_set (cols : list (string * list Q)) (c : string) (v : list Q)
  : list (string * list Q) :=
  match cols with
  | [] => [(c, v)]
  | (c', v') :: cols' =>
      if String.eqb c c' then (c, v) :: cols' else (c', v') :: df_set cols' c v
  end.

Fixpoint importances_df (importances : list (list Q)) (i : nat) (feature_columns : list string)
  (cols : list (string * list Q)) : result (list (string * list Q)) :=
  match feature_columns with
  | [] => Ok cols
  | c :: cs =>
      (v <- py_index importances i ;;
       importances_df importances (S i) cs (df_set cols c v))%res
  end.

(** [not xs] on an optional list: true for [None] and for the empty list. *)
Definition py_not {A} (xs : option (list A)) : bool :=
  match xs with
  | None | Some [] => true
  | Some _ => false
  end.

Definition assess_model_feature_importances (model : nat) (X y : DataFrame)
  (feature_columns : list string) (feature_columns_display : option (list string))
  (out_path : option string) (importances_fn : string)
  (figure_out_path : option string) (figure_fn : string) (n_repeats : nat)
  (random_state : Z) : M (list (list Q)) :=
  (let feature_columns_display :=
     if py_not feature_columns_display then feature_columns
     else match feature_columns_display with Some d => d | None => feature_columns end in
   e <- model_state model ;;
   let feature_importances := permutation_importance e X y n_repeats random_state in
   feature_importances_df <- lift (importances_df feature_importances 0 feature_columns []) ;;
   lift (boxplot feature_importances_df feature_columns_display) ;;
   ok <- os_path_exists out_path ;;
   (if ok : bool then
      (feature_importances_fn <- lift (os_path_join out_path importances_fn) ;;
       write_file feature_importances_fn (ImportancesCsv feature_importances_df) ;;
       print (MsgImportancesSaved feature_importances_fn) ;;
       okf <- os_path_exists figure_out_path ;;
       if okf : bool then
         (fig_fn <- lift (os_path_join figure_out_path figure_fn) ;;
          write_file fig_fn FigurePng ;;
          print (MsgFigureSaved fig_fn))
       else print MsgFigurePathInvalid)
    else print MsgOutPathInvalid) ;;
   ret feature_importances)%io.

End Pipeline.

(** ** Reference evaluation of the folds

    The fold evaluator of the design: one [fit] on the training partition,
    one [predict] on the test partition, the five metrics on the test
    labels.  These definitions follow the specification; the properties
    below compare the arrays that [determine_best_model] fills with them. *)

Section Reference.

Context `{Library}.

Record FoldResult : Type := {
  fr_mean_absolute_error : Q;
  fr_mean_squared_error : Q;
  fr_mean_absolute_percentage_error : Q;
  fr_max_error : Q;
  fr_r_squared : npfloat
}.

Definition fit_fold (e : Est) (X y : DataFrame) (ix : list nat * list nat) : Est :=
  fit e (iloc X (fst ix)) (Ravelled (ravel_values (iloc y (fst ix)))).

Definition fold_evaluator (e : Est) (X y : DataFrame) (ix : list nat * list nat) : FoldResult :=
  let y_test := ravel_values (iloc y (snd ix)) in
  let y_pred := predict (fit_fold e X y ix) (iloc X (snd ix)) in
  {| fr_mean_absolute_error := mean_absolute_error y_test y_pred;
     fr_mean_squared_error := mean_squared_error y_test y_pred;
     fr_mean_absolute_percentage_error := mean_absolute_percentage_error y_test y_pred;
     fr_max_error := max_error y_test y_pred;
     fr_r_squared := r2_score y_test y_pred |}.

(** The results of the folds in order; the estimator is refitted fold after
    fold. *)
Fixpoint fold_results (e : Est) (X y : DataFrame) (splits : list (list nat * list nat))
  : list FoldResult :=
  match splits with
  | [] => []
  | ix :: splits' => fold_evaluator e X y ix :: fold_results (fit_fold e X y ix) X y splits'
  end.

Fixpoint final_est (e : Est) (X y : DataFrame) (splits : list (list nat * list nat)) : Est :=
  match splits with
  | [] => e
  | ix :: splits' => final_est (fit_fold e X y ix) X y splits'
  end.

(** The store after the object at [m] went through the folds. *)
Definition heap_after (h : nat -> Est) (m : nat) (X y : DataFrame)
  (splits : list (list nat * list nat)) : nat -> Est :=
  fun a => if Nat.eqb a m then final_est (h m) X y splits else h a.

(** The fold results of every candidate, in input order. *)
Fixpoint cv_fold_results (h : nat -> Est) (X y : DataFrame)
  (splits : list (list nat * list nat)) (cands : list (string * nat))
  : list (list FoldResult) :=
  match cands with
  | [] => []
  | nm :: cands' =>
      fold_results (h (snd nm)) X y splits
      :: cv_fold_results (heap_after h (snd nm) X y splits) X y splits cands'
  end.

Fixpoint cv_heap (h : nat -> Est) (X y : DataFrame)
  (splits : list (list nat * list nat)) (cands : list (string * nat)) : nat -> Est :=
  match cands with
  | [] => h
  | nm :: cands' => cv_heap (heap_after h (snd nm) X y splits) X y splits cands'
  end.

(** The [fit] calls of one candidate, and of all of them. *)
Definition fold_fit_calls (m : nat) (X y : DataFrame) (splits : list (list nat * list nat))
  : list (nat * DataFrame * target) :=
  map (fun ix => (m, iloc X (fst ix), Ravelled (ravel_values (iloc y (fst ix))))) splits.

Definition cv_fit_calls (X y : DataFrame) (splits : list (list nat * list nat))
  (cands : list (string * nat)) : list (nat * DataFrame * target) :=
  flat_map (fun nm => fold_fit_calls (snd nm) X y splits) cands.

(** The aggregate of the design: the arithmetic mean of a metric over the
    folds. *)
Definition mean_over_folds (metric : FoldResult -> Q) (frs : list FoldResult) : Q :=
  Arr.mean (map metric frs).

Definition r_squared_over_folds (frs : list FoldResult) : npfloat :=
  Arr.nanmean (map fr_r_squared frs).

(** What the name [rsq_folds] is bound to after the fold loop: the score of
    the last fold (the initial array when there was no fold). *)
Definition last_r_squared (num_folds : Z) (frs : list FoldResult) : pyval :=
  last (map (fun r => Scalar (fr_r_squared r)) frs) (Array (Arr.zeros (Z.to_nat num_folds))).

End Reference.

(** ** A small instance to run the pipeline on

    Stand-ins for the library code: an estimator in the manner of
    [DummyRegressor] (it predicts the mean of the training labels, or a
    fixed constant), the five regression metrics by their textbook formulas,
    and a shuffle that rotates the index list by the seed. *)

Module Toy.

Inductive strategy : Type :=
| Mean
| Constant (c : Q).

Record est : Type := {
  strat : strategy;
  fitted : Q
}.

Definition target_values (t : target) : list Q :=
  match t with
  | Ravelled v => v
  | Frame df => ravel_values df
  end.

Definition fit (e : est) (X : DataFrame) (t : target) : est :=
  {| strat := strat e;
     fitted := match strat e with
               | Mean => Qred (Arr.mean (target_values t))
               | Constant c => c
               end |}.

Definition predict (e : est) (X : DataFrame) : list Q := repeat (fitted e) (nrows X).

Definition abs_errors (y p : list Q) : list Q :=
  map (fun c => Qabs (fst c - snd c)) (combine y p).

Definition mean_absolute_error (y p : list Q) : Q := Qred (Arr.mean (abs_errors y p)).

Definition mean_squared_error (y p : list Q) : Q :=
  Qred (Arr.mean (map (fun c => (fst c - snd c) ^ 2) (combine y p))).

(** The float epsilon that guards the division. *)
Definition eps : Q := 1 # (2 ^ 52).

Definition mean_absolute_percentage_error (y p : list Q) : Q :=
  Qred (Arr.mean (map (fun c => Qabs (fst c - snd c)
                                / (if Qle_bool eps (Qabs (fst c)) then Qabs (fst c) else eps))
                      (combine y p))).

Definition max_error (y p : list Q) : Q := Qred (Np.maximum 0 (abs_errors y p)).

Definition r2_score (y p : list Q) : npfloat :=
  if (List.length y <? 2)%nat then NaN
  else
    let ybar := Arr.mean y in
    let ss_res := Arr.sum (map (fun c => (fst c - snd c) ^ 2) (combine y p)) in
    let ss_tot := Arr.sum (map (fun v => (v - ybar) ^ 2) y) in
    if Qeq_bool ss_tot 0 then (if Qeq_bool ss_res 0 then Num 1 else Num 0)
    else Num (Qred (1 - ss_res / ss_tot)).

Definition rotate (k : nat) (l : list nat) : list nat := skipn k l ++ firstn k l.

Definition rng_shuffle (seed : Z) (l : list nat) : list nat :=
  rotate (Z.to_nat (seed mod Z.of_nat (List.length l))) l.

(** Neither strategy reads a feature, so permuting a feature never changes a
    prediction. *)
Definition permutation_importance (e : est) (X y : DataFrame) (n_repeats : nat) (seed : Z)
  : list (list Q) :=
  map (fun _ => repeat 0 n_repeats) (columns X).

(** A table without any column has nothing to plot and is refused. *)
Definition boxplot (df : list (string * list Q)) (labels : list string) : result unit :=
  match df with
  | [] => Raise TypeError
  | _ => Ok tt
  end.

#[global] Instance library : Library :=
  Build_Library fit predict mean_absolute_error mean_squared_error
    mean_absolute_percentage_error max_error r2_score rng_shuffle
    permutation_importance boxplot.

End Toy.

(** Six rows, one feature, one label. *)
Definition data_ex : DataFrame :=
  {| nrows := 6;
     columns := [("pdd"%string, [1; 2; 3; 4; 5; 6]);
                 ("sla"%string, [10; 12; 15; 11; 18; 30])] |}.

(** Estimator objects at addresses 0 and 1: a mean predictor and a constant
    one.  Directory [out] accepts files, nothing else does. *)
Definition world_ex : @World Toy.library :=
  {| heap := fun a => match a with
                      | O => {| Toy.strat := Toy.Mean; Toy.fitted := 0 |}
                      | _ => {| Toy.strat := Toy.Constant 14; Toy.fitted := 0 |}
                      end;
     fit_calls := [];
     path_exists := fun p => String.eqb p "out";
     can_create := fun p => String.eqb (substring 0 4 p) "out/";
     files := [];
     stdout := [] |}.

Definition X_ex : DataFrame :=
  {| nrows := 6; columns := [("pdd"%string, [1; 2; 3; 4; 5; 6])] |}.

Definition y_ex : DataFrame :=
  {| nrows := 6; columns := [("sla"%string, [10; 12; 15; 11; 18; 30])] |}.

Definition models_ex : list nat := [0; 1]%nat.

Definition model_names_ex : list string := ["mean"; "const"]%string.

Definition cv_ex : result (@perf_arrays) :=
  fst (cross_validate X_ex y_ex models_ex model_names_ex 2 world_ex).

(** The two folds of six rows under the fixed seed, and the fold results of
    the first candidate on them. *)
Definition splits_ex : list (list nat * list nat) :=
  [([0; 4; 5], [1; 2; 3]); ([1; 2; 3], [0; 4; 5])]%nat.

Definition fold_results_ex : list FoldResult :=
  fold_results (heap world_ex 0%nat) X_ex y_ex splits_ex.

(** The whole function on the example, with and without a usable output
    directory. *)
Definition run_ex (out_path : option string) (save_performances : bool)
  : result (nat * DataFrame * DataFrame) * World :=
  determine_best_model data_ex models_ex model_names_ex ["pdd"%string] ["sla"%string]
    out_path "best_model.joblib" save_performances "model_performances.csv" 2 world_ex.

(** ** Reference counts for the raster statistics

    The number of grid cells where neither input is missing and the pair
    (elevation, snow cover) satisfies [p]. *)
Definition matching_cell_count (p : Q -> Q -> bool) (dem mask : raster) : nat :=
  List.length
    (filter (fun c => match c with
                      | (Num e, Num s) => p e s
                      | _ => false
                      end)
            (combine dem mask)).

(** The number of cells where both the elevation and the snow cover are
    present. *)
Definition valid_cell_count (dem mask : raster) : nat :=
  matching_cell_count (fun _ _ => true) dem mask.

(** Small rasters used in the examples: four valid cells and one missing. *)
Definition dem_ex : raster := [Num 10; Num 20; NaN; Num 30; Num 40].
Definition mask_ex : raster := [Num 0; Num 0; NaN; Num 1; Num 1].
Definition mask_mixed_ex : raster := [Num 0; Num 1; NaN; Num 0; Num 1].

(** ** [convert_wgs_to_utm] *)

(** [str(n)] on a Python int. *)
Definition py_str_int (n : Z) : string :=
  DecimalString.NilZero.string_of_int (Z.to_int n).

(** [math.floor((lon + 180) / 6) % 60 + 1]: the number of the UTM zone.  The
    longitude is an exact rational here; the rounding of the sum and of the
    quotient in doubles is not modelled, so only longitudes at which both
    are exact (such as whole degrees) are covered by statements on zones. *)
Definition utm_zone (lon : Q) : Z := (Qfloor ((lon + 180) / 6) mod 60 + 1)%Z.

Definition convert_wgs_to_utm (lon lat : Q) : string :=
  let utm_band := py_str_int (utm_zone lon) in
  let utm_band :=
    if Nat.eqb (String.length utm_band) 1 then ("0" ++ utm_band)%string else utm_band in
  if Qle_bool 0 lat then ("326" ++ utm_band)%string else ("327" ++ utm_band)%string.

(** The decimal digit [d] as a character. *)
Definition digit_char (d : Z) : ascii := ascii_of_nat (48 + Z.to_nat d).

(** Whether the padded band string of [z] is [z] written in two decimal
    digits. *)
Definition band_ok (z : Z) : bool :=
  let b := py_str_int z in
  String.eqb (if Nat.eqb (String.length b) 1 then "0" ++ b else b)
             (String (digit_char (z / 10)) (String (digit_char (z mod 10)) "")).

(** ** [determine_subregion_name_color] *)

(** An argument is a number or a string. *)
Inductive pyarg : Type :=
| PyNum (x : npfloat)
| PyStr (s : string).

(** [o == v] for a numeric literal [v]: a string equals no number. *)
Definition arg_eq (o : pyarg) (v : Q) : bool :=
  match o with
  | PyNum x => Np.eqv x v
  | PyStr _ => false
  end.

(** [s + o] with a string on the left: a number on the right is a
    [TypeError]. *)
Definition str_add (s : string) (o : pyarg) : result string :=
  match o with
  | PyStr t => Ok (s ++ t)%string
  | PyNum _ => Raise TypeError
  end.

Definition determine_subregion_name_color (o1 o2 : pyarg) : result (string * string) :=
  if arg_eq o1 1 && arg_eq o2 1 then Ok ("Brooks Range", "c")%string
  else if arg_eq o1 1 && arg_eq o2 2 then Ok ("Alaska Range", "#1f78b4")%string
  else if arg_eq o1 1 && arg_eq o2 3 then Ok ("Aleutians", "#6d9c43")%string
  else if arg_eq o1 1 && arg_eq o2 4 then Ok ("W. Chugach Mtns.", "#264708")%string
  else if arg_eq o1 1 && arg_eq o2 5 then Ok ("St. Elias Mtns.", "#fb9a99")%string
  else if arg_eq o1 1 && arg_eq o2 6 then Ok ("N. Coast Ranges", "#e31a1c")%string
  else if arg_eq o1 2 && arg_eq o2 1 then Ok ("N. Rockies", "#cab2d6")%string
  else if arg_eq o1 2 && arg_eq o2 2 then Ok ("N. Cascades", "#fdbf6f")%string
  else if arg_eq o1 2 && arg_eq o2 3 then Ok ("C. Rockies", "#9657d9")%string
  else if arg_eq o1 2 && arg_eq o2 4 then Ok ("S. Cascades", "#ff7f00")%string
  else if arg_eq o1 2 && arg_eq o2 5 then Ok ("S. Rockies", "#6a3d9a")%string
  else
    (a <- str_add "O1:" o1 ;;
     b <- str_add (a ++ " O2:") o2 ;;
     Ok (b, "k"%string))%res.

(** ** [calculate_hypsometric_index] *)

Module Hyps.

(** A NumPy float that may also be infinite: the quotient of two
    elevations differences. *)
Inductive xfloat : Type :=
| Fin (q : Q)
| Inf (positive : bool)
| XNaN.

(** NumPy's [a / b] on finite floats: a zero divisor gives an infinity or,
    for [0 / 0], NaN (with a warning, not an exception). *)
Definition np_div (a b : Q) : xfloat :=
  if Qeq_bool b 0 then
    if Qeq_bool a 0 then XNaN else Inf (Np.Qltb 0 a)
  else Fin (a / b).

(** [x < v], [x <= v], [x > v] against a finite constant. *)
Definition xlt (x : xfloat) (v : Q) : bool :=
  match x with
  | Fin q => Np.Qltb q v
  | Inf positive => negb positive
  | XNaN => false
  end.

Definition xle (x : xfloat) (v : Q) : bool :=
  match x with
  | Fin q => Qle_bool q v
  | Inf positive => negb positive
  | XNaN => false
  end.

Definition xgt (x : xfloat) (v : Q) : bool :=
  match x with
  | Fin q => Np.Qltb v q
  | Inf positive => positive
  | XNaN => false
  end.

(** What the function hands back: the pair [('N/A', 'N/A')], a pair
    [(hi, hi_category)], or the [UnboundLocalError] of a [return] that reads
    [hi_category] when no branch has assigned it. *)
Inductive outcome : Type :=
| NotAvailable
| Index (hi : xfloat) (hi_category : string)
| UnboundLocalError.

(** [cell <= v] on an array cell. *)
Definition le (x : npfloat) (v : Q) : bool :=
  match x with Num q => Qle_bool q v | NaN => false end.

(** [xr.where((dem > 1e38) | (dem <= -9999), np.nan, dem)] *)
Definition mask_nodata (dem : raster) : raster :=
  map (fun e => if Np.gt e (10 ^ 38) || le e (-9999) then NaN else e) dem.

Definition median_sorted (s : list Q) : Q :=
  let n := List.length s in
  if Nat.even n then (nth (n / 2 - 1) s 0 + nth (n / 2) s 0) / 2
  else nth (n / 2) s 0.

(** [np.nanmedian] *)
Definition nanmedian (a : raster) : npfloat :=
  match Np.valid a with
  | [] => NaN
  | v => Num (median_sorted (Np.sort v))
  end.

(** [hi = (h_max - h_med) / (h_med - h_min)]; NaN operands give NaN. *)
Definition ratio (h_max h_min h_med : npfloat) : xfloat :=
  match h_max, h_min, h_med with
  | Num mx, Num mn, Num md => np_div (mx - md) (md - mn)
  | _, _, _ => XNaN
  end.

(** [if (0 < hi) and (hi < 1): hi = -1 / hi] *)
Definition fold_below_one (hi : xfloat) : xfloat :=
  if xgt hi 0 && xlt hi 1 then
    match hi with
    | Fin q => np_div (-1) q
    | _ => hi
    end
  else hi.

(** The chain of [if]/[elif] that assigns [hi_category]; [None] when no
    branch fires. *)
Definition category (hi : xfloat) : option string :=
  if xle hi (-(3 # 2)) then Some "Very top heavy"%string
  else if xgt hi (-(3 # 2)) && xle hi (-(6 # 5)) then Some "Top heavy"%string
  else if xgt hi (-(6 # 5)) && xle hi (6 # 5) then Some "Equidimensional"%string
  else if xgt hi (6 # 5) && xle hi (3 # 2) then Some "Bottom heavy"%string
  else if xgt hi (3 # 2) then Some "Very bottom heavy"%string
  else None.

(** The function from the clipped elevation array on.  Opening,
    reprojecting and clipping the raster are file and geometry operations
    outside the module; [dem_aoi] is their result, [None] when the clip
    raised (the bare [except] returns the 'N/A' pair). *)
Definition calculate_hypsometric_index (dem_aoi : option raster) : outcome :=
  match dem_aoi with
  | None => NotAvailable
  | Some dem =>
      let dem := mask_nodata dem in
      if forallb Np.isnan dem then NotAvailable
      else
        let h_max := Np.nanmax dem in
        let h_min := Np.nanmin dem in
        let h_med := nanmedian dem in
        let hi := fold_below_one (ratio h_max h_min h_med) in
        match category hi with
        | Some c => Index hi c
        | None => UnboundLocalError
        end
  end.

End Hyps.

(** ** [reduce_memory_usage] *)

Module Mem.

Inductive int_dtype : Type := Int8 | Int16 | Int32 | Int64.

Inductive float_dtype : Type := Float16 | Float32 | Float64.

(** A column of the table: integers of one of the four signed widths,
    floats of one of the three widths, or anything else (objects, booleans,
    unsigned integers, dates), which the function does not look at. *)
Inductive column : Type :=
| IntCol (name : string) (t : int_dtype) (v : list Z)
| FloatCol (name : string) (t : float_dtype) (v : list npfloat)
| OtherCol (name : string) (itemsize rows : nat).

Definition bits (t : int_dtype) : Z :=
  match t with Int8 => 8 | Int16 => 16 | Int32 => 32 | Int64 => 64 end.

(** [np.iinfo(t).min] and [np.iinfo(t).max] *)
Definition iinfo_min (t : int_dtype) : Z := (- 2 ^ (bits t - 1))%Z.
Definition iinfo_max (t : int_dtype) : Z := (2 ^ (bits t - 1) - 1)%Z.

(** [np.finfo(np.float32).max]; the minimum is its opposite. *)
Definition finfo32_max : Q := inject_Z ((2 ^ 24 - 1) * 2 ^ 104).

(** [df[col].min()] and [.max()]: nothing (NaN) for an empty column; NaN
    cells of a float column are skipped. *)
Definition int_min (v : list Z) : option Z :=
  match v with
  | [] => None
  | x :: l => Some (fold_right Z.min x l)
  end.

Definition int_max (v : list Z) : option Z :=
  match v with
  | [] => None
  | x :: l => Some (fold_right Z.max x l)
  end.

Definition float_min (v : list npfloat) : option Q :=
  match Np.valid v with
  | [] => None
  | x :: l => Some (Np.minimum x l)
  end.

Definition float_max (v : list npfloat) : option Q :=
  match Np.valid v with
  | [] => None
  | x :: l => Some (Np.maximum x l)
  end.

(** [c_min > np.iinfo(t).min and c_max < np.iinfo(t).max]; a comparison
    with NaN is false. *)
Definition inside (t : int_dtype) (c_min c_max : option Z) : bool :=
  match c_min, c_max with
  | Some mn, Some mx => (iinfo_min t <? mn)%Z && (mx <? iinfo_max t)%Z
  | _, _ => false
  end.

(** [astype] to a signed integer type keeps the low bits. *)
Definition wrap (t : int_dtype) (z : Z) : Z :=
  ((z + 2 ^ (bits t - 1)) mod 2 ^ bits t - 2 ^ (bits t - 1))%Z.

Definition astype_int (t : int_dtype) (v : list Z) : list Z := map (wrap t) v.

Section Reduce.

(** [astype] to a float type rounds each finite value to that format. *)
Variable round_to : float_dtype -> Q -> Q.

Definition astype_float (t : float_dtype) (v : list npfloat) : list npfloat :=
  map (fun x => match x with Num q => Num (round_to t q) | NaN => NaN end) v.

(** The body of the loop over [df.columns]. *)
Definition reduce_column (c : column) : column :=
  match c with
  | IntCol name t v =>
      let c_min := int_min v in
      let c_max := int_max v in
      if inside Int8 c_min c_max then IntCol name Int8 (astype_int Int8 v)
      else if inside Int16 c_min c_max then IntCol name Int16 (astype_int Int16 v)
      else if inside Int32 c_min c_max then IntCol name Int32 (astype_int Int32 v)
      else if inside Int64 c_min c_max then IntCol name Int64 (astype_int Int64 v)
      else c
  | FloatCol name t v =>
      match float_min v, float_max v with
      | Some mn, Some mx =>
          if Np.Qltb (- finfo32_max) mn && Np.Qltb mx finfo32_max
          then FloatCol name Float32 (astype_float Float32 v)
          else FloatCol name Float64 (astype_float Float64 v)
      | _, _ => FloatCol name Float64 (astype_float Float64 v)
      end
  | OtherCol _ _ _ => c
  end.

(** The table after the loop; the [verbose] report only prints. *)
Definition reduce_memory_usage (df : list column) : list column :=
  map reduce_column df.

End Reduce.

Definition int_itemsize (t : int_dtype) : Z :=
  match t with Int8 => 1 | Int16 => 2 | Int32 => 4 | Int64 => 8 end.

Definition float_itemsize (t : float_dtype) : Z :=
  match t with Float16 => 2 | Float32 => 4 | Float64 => 8 end.

(** The bytes of one column, as [df.memory_usage()] reports them. *)
Definition column_bytes (c : column) : Z :=
  match c with
  | IntCol _ t v => int_itemsize t * Z.of_nat (List.length v)
  | FloatCol _ t v => float_itemsize t * Z.of_nat (List.length v)
  | OtherCol _ itemsize rows => Z.of_nat itemsize * Z.of_nat rows
  end.

(** [df.memory_usage().sum()], the index apart. *)
Definition memory_usage (df : list column) : Z :=
  fold_right Z.add 0%Z (map column_bytes df).

(** An integer column whose values lie strictly between the limits of its
    own type, or a column the function does not look at. *)
Definition strictly_typed (c : column) : Prop :=
  match c with
  | IntCol _ t v => Forall (fun z => (iinfo_min t < z < iinfo_max t)%Z) v
  | FloatCol _ _ _ => False
  | OtherCol _ _ _ => True
  end.

End Mem.

(** * Properties *)

Unset Implicit Arguments.

(** ** Sorting and percentiles *)

Lemma Qle_bool_false (x y : Q) : Qle_bool x y = false -> y <= x.
Proof.
  intro E. destruct (Qlt_le_dec y x) as [L | L].
  - now apply Qlt_le_weak.
  - apply Qle_bool_iff in L. congruence.
Qed.

Lemma Qle_bool_false_lt (x y : Q) : Qle_bool x y = false -> y < x.
Proof.
  intro E. destruct (Qlt_le_dec y x) as [L | L]; [exact L |].
  apply Qle_bool_iff in L. congruence.
Qed.

Lemma insert_perm (x : Q) (l : list Q) : Permutation (x :: l) (Np.insert x l).
Proof.
  induction l as [| y l IH]; simpl; [reflexivity |].
  destruct (Qle_bool x y); [reflexivity |].
  transitivity (y :: x :: l); [apply perm_swap | now apply perm_skip].
Qed.

Lemma sort_perm (l : list Q) : Permutation l (Np.sort l).
Proof.
  induction l as [| x l IH]; simpl; [reflexivity |].
  transitivity (x :: Np.sort l); [now apply perm_skip | apply insert_perm].
Qed.

Lemma sort_length (l : list Q) : List.length (Np.sort l) = List.length l.
Proof. symmetry. apply Permutation_length, sort_perm. Qed.

Lemma insert_sorted (x : Q) (l : list Q) :
  StronglySorted Qle l -> StronglySorted Qle (Np.insert x l).
Proof.
  induction 1 as [| y l Hs IH Hy]; simpl.
  - repeat constructor.
  - destruct (Qle_bool x y) eqn:E.
    + apply Qle_bool_iff in E. constructor.
      * now constructor.
      * constructor; [exact E |].
        eapply Forall_impl; [| exact Hy]. intros z Hz. now apply Qle_trans with y.
    + constructor; [exact IH |].
      apply (Permutation_Forall (insert_perm x l)).
      constructor; [now apply Qle_bool_false | exact Hy].
Qed.

Lemma sort_sorted (l : list Q) : StronglySorted Qle (Np.sort l).
Proof.
  induction l as [| x l IH]; simpl; [constructor | now apply insert_sorted].
Qed.

Lemma sorted_nth_le (s : list Q) :
  StronglySorted Qle s ->
  forall i k, (i <= k < List.length s)%nat -> nth i s 0 <= nth k s 0.
Proof.
  induction 1 as [| y l Hs IH Hy]; intros i k Hik; simpl in *; [lia |].
  destruct i as [| i], k as [| k]; try lia.
  - apply Qle_refl.
  - rewrite Forall_forall in Hy. apply Hy, nth_In. lia.
  - apply IH. lia.
Qed.

Section Lerp.

Variable s : list Q.
Hypothesis s_sorted : StronglySorted Qle s.
Hypothesis s_nonempty : s <> [].

Let n := List.length s.
Let top := inject_Z (Z.of_nat (n - 1)).

Lemma top_nonneg : 0 <= top.
Proof.
  unfold top. change 0 with (inject_Z 0). rewrite <- Zle_Qle. lia.
Qed.

Lemma floor_range (q : Q) :
  0 <= q -> q <= 1 -> (0 <= Qfloor (q * top) <= Z.of_nat (n - 1))%Z.
Proof.
  intros H0 H1. pose proof top_nonneg as Ht.
  assert (L : 0 <= q * top) by nra.
  assert (U : q * top <= top) by nra.
  split.
  - exact (Qfloor_resp_le 0 _ L).
  - apply Qfloor_resp_le in U. unfold top in U at 2. now rewrite Qfloor_Z in U.
Qed.

Lemma gamma_range (x : Q) : 0 <= x - inject_Z (Qfloor x) /\ x - inject_Z (Qfloor x) < 1.
Proof.
  pose proof (Qfloor_le x) as L. pose proof (Qlt_floor x) as U.
  rewrite inject_Z_plus in U. change (inject_Z 1) with 1 in U.
  split; lra.
Qed.

Lemma lerp_between (q : Q) :
  0 <= q -> q <= 1 ->
  let lo := Z.to_nat (Qfloor (q * top)) in
  nth lo s 0 <= Np.lerp_sorted s q /\
  Np.lerp_sorted s q <= nth (Nat.min (lo + 1) (n - 1)) s 0.
Proof.
  intros H0 H1 lo.
  pose proof (floor_range q H0 H1) as Hf.
  pose proof (gamma_range (q * top)) as [G0 G1].
  assert (Hab : nth lo s 0 <= nth (Nat.min (lo + 1) (n - 1)) s 0).
  { apply sorted_nth_le; [exact s_sorted |]. subst lo n.
    destruct s; [congruence | simpl in *; lia]. }
  unfold Np.lerp_sorted. fold n. fold top. fold lo.
  set (a := nth lo s 0) in *. set (b := nth _ s 0) in *.
  set (g := q * top - inject_Z (Qfloor (q * top))) in *.
  split; nra.
Qed.

Lemma lerp_monotone (q1 q2 : Q) :
  0 <= q1 -> q1 <= q2 -> q2 <= 1 ->
  Np.lerp_sorted s q1 <= Np.lerp_sorted s q2.
Proof.
  intros H0 H12 H1.
  assert (H1' : q1 <= 1) by lra. assert (H0' : 0 <= q2) by lra.
  pose proof top_nonneg as Ht.
  pose proof (floor_range q1 H0 H1') as F1. pose proof (floor_range q2 H0' H1) as F2.
  assert (T : q1 * top <= q2 * top) by nra.
  pose proof (Qfloor_resp_le _ _ T) as FF.
  destruct (Z.eq_dec (Qfloor (q1 * top)) (Qfloor (q2 * top))) as [E | NE].
    assert (Hab : nth (Z.to_nat (Qfloor (q1 * top))) s 0
                  <= nth (Nat.min (Z.to_nat (Qfloor (q1 * top)) + 1) (n - 1)) s 0).
    { apply sorted_nth_le; [exact s_sorted |]. subst n.
      destruct s; [congruence | simpl in *; lia]. }
    unfold Np.lerp_sorted. fold n. fold top. rewrite <- E.
    set (a := nth _ s 0) in *. set (b := nth _ s 0) in *.
    nra.
  - pose proof (lerp_between q1 H0 H1') as [_ U].
    pose proof (lerp_between q2 H0' H1) as [L _].
    cbv zeta in U, L.
    apply Qle_trans with (nth (Nat.min (Z.to_nat (Qfloor (q1 * top)) + 1) (n - 1)) s 0);
      [exact U |].
    apply Qle_trans with (nth (Z.to_nat (Qfloor (q2 * top))) s 0); [| exact L].
    apply sorted_nth_le; [exact s_sorted |]. subst n.
    destruct s; [congruence | simpl in *; lia].
Qed.

Lemma lerp_in_range (q : Q) :
  0 <= q -> q <= 1 ->
  nth 0 s 0 <= Np.lerp_sorted s q /\ Np.lerp_sorted s q <= nth (n - 1) s 0.
Proof.
  intros H0 H1. pose proof (lerp_between q H0 H1) as [L U]. cbv zeta in L, U.
  pose proof (floor_range q H0 H1) as Hf.
  assert (Hn : (0 < n)%nat) by (subst n; destruct s; [congruence | simpl; lia]).
  split.
  - eapply Qle_trans; [| exact L]. apply sorted_nth_le; [exact s_sorted | fold n; lia].
  - eapply Qle_trans; [exact U |]. apply sorted_nth_le; [exact s_sorted | fold n; lia].
Qed.

Lemma lerp_at_one (q : Q) : q == 1 -> Np.lerp_sorted s q == nth (n - 1) s 0.
Proof.
  intro E.
  assert (V : q * top == top) by (rewrite E; ring).
  assert (F : Qfloor (q * top) = Z.of_nat (n - 1)).
  { rewrite (Qfloor_comp _ _ V). unfold top. apply Qfloor_Z. }
  unfold Np.lerp_sorted. fold n. fold top. rewrite F, Nat2Z.id.
  fold top. rewrite V. ring.
Qed.

Lemma lerp_eq (q1 q2 : Q) : q1 == q2 -> Np.lerp_sorted s q1 == Np.lerp_sorted s q2.
Proof.
  intro E.
  assert (V : q1 * top == q2 * top) by (rewrite E; reflexivity).
  unfold Np.lerp_sorted. fold n. fold top.
  rewrite (Qfloor_comp _ _ V), V. reflexivity.
Qed.

End Lerp.

(** ** Minimum and maximum of the valid samples *)

Lemma minimum_spec (l : list Q) : forall x,
  In (Np.minimum x l) (x :: l) /\ Forall (Qle (Np.minimum x l)) (x :: l).
Proof.
  induction l as [| y l IH]; intro x; simpl.
  - split; [now left | repeat constructor; apply Qle_refl].
  - destruct (Qle_bool x y) eqn:E.
    + destruct (IH x) as [I F]. inversion F as [| ? ? Fx Fl]; subst. split.
      * destruct I as [I | I]; [now left | now right; right].
      * constructor; [exact Fx |]. constructor; [| exact Fl].
        apply Qle_bool_iff in E. now apply Qle_trans with x.
    + destruct (IH y) as [I F]. inversion F as [| ? ? Fy Fl]; subst. split.
      * now right.
      * constructor; [| now constructor].
        apply Qle_bool_false in E. now apply Qle_trans with y.
Qed.

Lemma maximum_spec (l : list Q) : forall x,
  In (Np.maximum x l) (x :: l) /\ Forall (fun z => z <= Np.maximum x l) (x :: l).
Proof.
  induction l as [| y l IH]; intro x; simpl.
  - split; [now left | repeat constructor; apply Qle_refl].
  - destruct (Qle_bool x y) eqn:E.
    + destruct (IH y) as [I F]. inversion F as [| ? ? Fy Fl]; subst. split.
      * now right.
      * constructor; [| now constructor].
        apply Qle_bool_iff in E. now apply Qle_trans with y.
    + destruct (IH x) as [I F]. inversion F as [| ? ? Fx Fl]; subst. split.
      * destruct I as [I | I]; [now left | now right; right].
      * constructor; [exact Fx |]. constructor; [| exact Fl].
        apply Qle_bool_false in E. now apply Qle_trans with x.
Qed.

Lemma sorted_first_ge_minimum (x : Q) (l : list Q) :
  Np.minimum x l <= nth 0 (Np.sort (x :: l)) 0.
Proof.
  destruct (minimum_spec l x) as [_ F]. rewrite Forall_forall in F.
  apply F. apply Permutation_in with (Np.sort (x :: l)).
  - symmetry. apply sort_perm.
  - apply nth_In. rewrite sort_length. simpl. lia.
Qed.

Lemma sorted_last_le_maximum (x : Q) (l : list Q) :
  nth (List.length (Np.sort (x :: l)) - 1) (Np.sort (x :: l)) 0 <= Np.maximum x l.
Proof.
  destruct (maximum_spec l x) as [_ F]. rewrite Forall_forall in F.
  apply F. apply Permutation_in with (Np.sort (x :: l)).
  - symmetry. apply sort_perm.
  - apply nth_In. rewrite sort_length. simpl. lia.
Qed.

Lemma sorted_last_ge_maximum (x : Q) (l : list Q) :
  Np.maximum x l <= nth (List.length (Np.sort (x :: l)) - 1) (Np.sort (x :: l)) 0.
Proof.
  destruct (maximum_spec l x) as [I _].
  apply (Permutation_in _ (sort_perm (x :: l))) in I.
  destruct (In_nth _ _ 0 I) as [i [Hi E]]. rewrite <- E.
  apply sorted_nth_le; [apply sort_sorted | lia].
Qed.

(** ** Clipping *)

Lemma clip_range (x : Q) : 0 <= Np.clip x 0 1 /\ Np.clip x 0 1 <= 1.
Proof.
  unfold Np.clip.
  destruct (Qle_bool 0 x) eqn:E0.
  - apply Qle_bool_iff in E0. destruct (Qle_bool x 1) eqn:E1.
    + apply Qle_bool_iff in E1. split; assumption.
    + split; lra.
  - simpl. split; lra.
Qed.

Lemma clip_id (x : Q) : 0 <= x -> x <= 1 -> Np.clip x 0 1 = x.
Proof.
  intros H0 H1. unfold Np.clip.
  apply Qle_bool_iff in H0. rewrite H0. apply Qle_bool_iff in H1. now rewrite H1.
Qed.

Lemma clip_monotone (x y : Q) : x <= y -> Np.clip x 0 1 <= Np.clip y 0 1.
Proof.
  intro L. unfold Np.clip.
  destruct (Qle_bool 0 x) eqn:Ex, (Qle_bool 0 y) eqn:Ey;
    try apply Qle_bool_iff in Ex; try apply Qle_bool_iff in Ey;
    try apply Qle_bool_false_lt in Ex; try apply Qle_bool_false_lt in Ey.
  - destruct (Qle_bool x 1) eqn:Fx, (Qle_bool y 1) eqn:Fy;
      try apply Qle_bool_iff in Fx; try apply Qle_bool_iff in Fy;
      try apply Qle_bool_false_lt in Fx; try apply Qle_bool_false_lt in Fy; lra.
  - lra.
  - simpl. destruct (Qle_bool y 1) eqn:Fy;
      try apply Qle_bool_iff in Fy; try apply Qle_bool_false_lt in Fy; lra.
  - simpl. lra.
Qed.

Lemma clip_above_one (x : Q) : 1 < x -> Np.clip x 0 1 == 1.
Proof.
  intro L. unfold Np.clip.
  assert (E0 : Qle_bool 0 x = true) by (apply Qle_bool_iff; lra).
  rewrite E0.
  destruct (Qle_bool x 1) eqn:E1; [apply Qle_bool_iff in E1; lra | reflexivity].
Qed.

Lemma clip_eq (x y : Q) : x == y -> Np.clip x 0 1 == Np.clip y 0 1.
Proof.
  intro E. apply Qle_antisym; apply clip_monotone; rewrite E; apply Qle_refl.
Qed.

(** ** Areas *)

Lemma npx_valid (dem : raster) : npx dem = List.length (Np.valid dem).
Proof.
  unfold npx, Np.count_true.
  induction dem as [| [q |] dem IH]; simpl; [reflexivity | now rewrite IH | exact IH].
Qed.

Lemma area_nonneg (k : nat) (dx : Q) : 0 <= inject_Z (Z.of_nat k) * dx ^ 2.
Proof.
  assert (0 <= inject_Z (Z.of_nat k)).
  { change 0 with (inject_Z 0). rewrite <- Zle_Qle. lia. }
  assert (0 <= dx ^ 2) by (simpl; nra).
  nra.
Qed.

Lemma total_area_pos (dem : raster) (dx : Q) :
  Np.valid dem <> [] -> ~ dx == 0 -> 0 < total_area dem dx.
Proof.
  intros Hv Hdx. unfold total_area. rewrite npx_valid.
  assert (1 <= inject_Z (Z.of_nat (List.length (Np.valid dem)))).
  { change 1 with (inject_Z 1). rewrite <- Zle_Qle.
    destruct (Np.valid dem); [congruence | simpl; lia]. }
  assert (0 < dx ^ 2) by (simpl; nra).
  nra.
Qed.

Lemma total_area_zero (dem : raster) (dx : Q) :
  total_area dem dx == 0 -> Np.valid dem = [] \/ dx == 0.
Proof.
  intro E. destruct (Np.valid dem) eqn:V; [now left | right].
  destruct (Qeq_dec dx 0) as [D | D]; [exact D |].
  assert (P : 0 < total_area dem dx) by (apply total_area_pos; [congruence | exact D]).
  lra.
Qed.

Lemma py_div_ok (a b : Q) : ~ b == 0 -> py_div a b = Ok (a / b).
Proof.
  intro Hb. unfold py_div. destruct (Qeq_bool b 0) eqn:E; [| reflexivity].
  apply Qeq_bool_iff in E. contradiction.
Qed.

Lemma py_div_zero (a b : Q) : b == 0 -> py_div a b = Raise ZeroDivisionError.
Proof.
  intro Hb. unfold py_div. apply Qeq_bool_iff in Hb. now rewrite Hb.
Qed.

Lemma div_nonneg (a b : Q) : 0 <= a -> 0 < b -> 0 <= a / b.
Proof.
  intros Ha Hb. apply Qle_shift_div_l; [exact Hb | lra].
Qed.

Lemma nanpercentile_ok (dem : raster) (x : Q) (v : Q) (l : list Q) :
  Np.valid dem = x :: l -> 0 <= v -> v <= 1 ->
  Np.nanpercentile dem (v * 100) = Ok (Num (Np.lerp_sorted (Np.sort (x :: l)) (v * 100 / 100))).
Proof.
  intros V H0 H1. unfold Np.nanpercentile.
  assert (E : v * 100 / 100 == v) by field.
  assert (B0 : Qle_bool 0 (v * 100 / 100) = true) by (apply Qle_bool_iff; lra).
  assert (B1 : Qle_bool (v * 100 / 100) 1 = true) by (apply Qle_bool_iff; lra).
  rewrite B0, B1, V. reflexivity.
Qed.

(** Whenever the total area is not zero, the function returns, and this is
    what it returns. *)
Lemma calculate_sla_bounds_ok (st : stats_row) (dem mask : raster) (dx : Q) (x : Q) (l : list Q) :
  Np.valid dem = x :: l -> ~ dx == 0 ->
  exists du dd,
    delta_up st dem mask dx = Ok du /\ 0 <= du /\
    delta_down st dem mask dx = Ok dd /\ 0 <= dd /\
    calculate_sla_bounds st dem mask dx =
      Ok (ELA_from_AAR_m st,
          Num (Np.lerp_sorted (Np.sort (x :: l)) (upper_sla_percentile st du * 100 / 100)),
          Num (Np.lerp_sorted (Np.sort (x :: l)) (lower_sla_percentile st dd * 100 / 100))).
Proof.
  intros V Hdx.
  assert (P : 0 < total_area dem dx) by (apply total_area_pos; [congruence | exact Hdx]).
  assert (NZ : ~ total_area dem dx == 0) by lra.
  exists (snow_free_above_sla_area (ELA_from_AAR_m st) dem mask dx / total_area dem dx),
         (snow_covered_below_sla_area (ELA_from_AAR_m st) dem mask dx / total_area dem dx).
  assert (Du : delta_up st dem mask dx = Ok (snow_free_above_sla_area (ELA_from_AAR_m st) dem mask dx / total_area dem dx))
    by (unfold delta_up; now apply py_div_ok).
  assert (Dd : delta_down st dem mask dx = Ok (snow_covered_below_sla_area (ELA_from_AAR_m st) dem mask dx / total_area dem dx))
    by (unfold delta_down; now apply py_div_ok).
  repeat split; try assumption.
  - apply div_nonneg; [apply area_nonneg | exact P].
  - apply div_nonneg; [apply area_nonneg | exact P].
  - unfold calculate_sla_bounds. rewrite Du, Dd. simpl.
    pose proof (clip_range (sla_percentile st + snow_free_above_sla_area (ELA_from_AAR_m st) dem mask dx / total_area dem dx)) as [U0 U1].
    pose proof (clip_range (sla_percentile st - snow_covered_below_sla_area (ELA_from_AAR_m st) dem mask dx / total_area dem dx)) as [L0 L1].
    unfold upper_sla_percentile, lower_sla_percentile.
    rewrite (nanpercentile_ok _ _ _ _ V U0 U1). simpl.
    rewrite (nanpercentile_ok _ _ _ _ V L0 L1). reflexivity.
Qed.

(** ** The snowline-altitude bounds *)

Example calculate_sla_bounds_ex :
  match calculate_sla_bounds {| AAR := 1 # 2; ELA_from_AAR_m := 25 |} dem_ex mask_mixed_ex 30 with
  | Ok (s, Num u, Num l) => s == 25 /\ u == 65 # 2 /\ l == 35 # 2
  | _ => False
  end.
Proof. vm_compute. repeat split; reflexivity. Qed.

Lemma delta_up_ok_inv (st : stats_row) (dem mask : raster) (dx du : Q) :
  delta_up st dem mask dx = Ok du ->
  Np.valid dem <> [] /\ ~ dx == 0 /\
  du == snow_free_above_sla_area (ELA_from_AAR_m st) dem mask dx / total_area dem dx.
Proof.
  unfold delta_up, py_div. intro E.
  destruct (Qeq_bool (total_area dem dx) 0) eqn:B; [discriminate |].
  injection E as <-.
  assert (NZ : ~ total_area dem dx == 0).
  { intro Z. apply Qeq_bool_iff in Z. congruence. }
  repeat split; try reflexivity.
  - intro V. apply NZ. unfold total_area. rewrite npx_valid, V. simpl. ring.
  - intro D. apply NZ. unfold total_area. rewrite D. simpl. ring.
Qed.

Lemma nanpercentile_inv (dem : raster) (p c : Q) (x : Q) (l : list Q) :
  Np.valid dem = x :: l ->
  Np.nanpercentile dem (p * 100) = Ok (Num c) ->
  0 <= p /\ p <= 1 /\ c = Np.lerp_sorted (Np.sort (x :: l)) (p * 100 / 100).
Proof.
  intros V. unfold Np.nanpercentile. rewrite V.
  assert (E : p * 100 / 100 == p) by field.
  destruct (Qle_bool 0 (p * 100 / 100)) eqn:B0; [| discriminate].
  destruct (Qle_bool (p * 100 / 100) 1) eqn:B1; [| discriminate].
  simpl. intro H. injection H as <-.
  apply Qle_bool_iff in B0, B1. repeat split; try lra.
Qed.

Lemma percent_roundtrip (v : Q) : v * 100 / 100 == v.
Proof. field. Qed.

(** C2.  On a raster without any valid cell the total area is zero, the
    function performs the division all the same and stops with the
    interpreter's [ZeroDivisionError]; there is no guard and no dedicated
    result. *)
Theorem sla_bounds_zero_area_divides :
  total_area [NaN; NaN] 30 == 0 /\
  delta_up {| AAR := 1 # 2; ELA_from_AAR_m := 15 |} [NaN; NaN] [NaN; NaN] 30
    = Raise ZeroDivisionError /\
  calculate_sla_bounds {| AAR := 1 # 2; ELA_from_AAR_m := 15 |} [NaN; NaN] [NaN; NaN] 30
    = Raise ZeroDivisionError.
Proof. repeat split. Qed.

(** The same for every input with zero total area. *)
Lemma sla_bounds_zero_area_raises (st : stats_row) (dem mask : raster) (dx : Q) :
  total_area dem dx == 0 ->
  calculate_sla_bounds st dem mask dx = Raise ZeroDivisionError.
Proof.
  intro Z. unfold calculate_sla_bounds, delta_up. now rewrite (py_div_zero _ _ Z).
Qed.

(** C3, as stated, fails: the central altitude is the table entry
    [ELA_from_AAR_m], returned as it came in; on a row whose entry is not the
    percentile of this elevation field it lies outside the bounds. *)
Lemma sla_bounds_central_from_table_cex :
  Np.valid dem_ex <> [] /\
  exists u l,
    calculate_sla_bounds {| AAR := 1 # 2; ELA_from_AAR_m := 1000 |} dem_ex mask_ex 30
      = Ok (1000, Num u, Num l) /\
    ~ 1000 <= u /\
    Np.nanpercentile dem_ex ((1 - (1 # 2)) * 100) <> Ok (Num 1000).
Proof.
  split; [discriminate |].
  eexists. eexists. split; [vm_compute; reflexivity |].
  split; [intro L; vm_compute in L; apply L; reflexivity | vm_compute; discriminate].
Qed.

(** C3, amended.  When the table entry is the (1 - AAR) percentile of the
    valid elevation samples, the function returns, the bounds enclose the
    central altitude, and all three altitudes lie between the minimum and
    the maximum of the valid samples. *)
Theorem sla_bounds_ordered_in_range (st : stats_row) (dem mask : raster) (dx c : Q) :
  Np.valid dem <> [] -> ~ dx == 0 ->
  Np.nanpercentile dem (sla_percentile st * 100) = Ok (Num c) ->
  ELA_from_AAR_m st == c ->
  exists u l mn mx,
    calculate_sla_bounds st dem mask dx = Ok (ELA_from_AAR_m st, Num u, Num l) /\
    l <= ELA_from_AAR_m st /\ ELA_from_AAR_m st <= u /\
    Np.nanmin dem = Num mn /\ Np.nanmax dem = Num mx /\
    mn <= l /\ u <= mx.
Proof.
  intros Hv Hdx Hp Hc.
  destruct (Np.valid dem) as [| x l] eqn:V; [congruence |].
  destruct (@calculate_sla_bounds_ok st dem mask dx x l V Hdx) as (du & dd & _ & Du & _ & Dd & R).
  destruct (@nanpercentile_inv dem (sla_percentile st) c x l V Hp) as (P0 & P1 & Ec).
  set (s := Np.sort (x :: l)) in *.
  assert (Ss : StronglySorted Qle s) by apply sort_sorted.
  assert (Ns : s <> []).
  { intro E. pose proof (sort_length (x :: l)) as L. fold s in L. rewrite E in L. discriminate. }
  pose proof (clip_range (sla_percentile st + du)) as [U0 U1].
  pose proof (clip_range (sla_percentile st - dd)) as [L0 L1].
  fold (upper_sla_percentile st du) in U0, U1.
  fold (lower_sla_percentile st dd) in L0, L1.
  assert (LP : lower_sla_percentile st dd <= sla_percentile st).
  { apply Qle_trans with (Np.clip (sla_percentile st) 0 1).
    - apply clip_monotone. lra.
    - rewrite (clip_id _ P0 P1). apply Qle_refl. }
  assert (UP : sla_percentile st <= upper_sla_percentile st du).
  { apply Qle_trans with (Np.clip (sla_percentile st) 0 1).
    - rewrite (clip_id _ P0 P1). apply Qle_refl.
    - apply clip_monotone. lra. }
  pose proof (percent_roundtrip (sla_percentile st)) as Rp.
  pose proof (percent_roundtrip (upper_sla_percentile st du)) as Ru.
  pose proof (percent_roundtrip (lower_sla_percentile st dd)) as Rl.
  eexists. eexists. exists (Np.minimum x l), (Np.maximum x l).
  split; [exact R |].
  split; [| split; [| split; [| split; [| split]]]].
  - rewrite Hc, Ec. apply lerp_monotone; try assumption; lra.
  - rewrite Hc, Ec. apply lerp_monotone; try assumption; lra.
  - unfold Np.nanmin. now rewrite V.
  - unfold Np.nanmax. now rewrite V.
  - apply Qle_trans with (nth 0 s 0); [apply sorted_first_ge_minimum |].
    apply lerp_in_range; try assumption; lra.
  - apply Qle_trans with (nth (List.length s - 1) s 0); [| apply sorted_last_le_maximum].
    apply lerp_in_range; try assumption; lra.
Qed.

Lemma sla_bounds_ordered_in_range_witness :
  exists u l mn mx,
    calculate_sla_bounds {| AAR := 1 # 2; ELA_from_AAR_m := 25 |} dem_ex mask_mixed_ex 30
      = Ok (25, Num u, Num l) /\
    l <= 25 /\ 25 <= u /\
    Np.nanmin dem_ex = Num mn /\ Np.nanmax dem_ex = Num mx /\
    mn <= l /\ u <= mx.
Proof.
  apply (@sla_bounds_ordered_in_range
           {| AAR := 1 # 2; ELA_from_AAR_m := 25 |} dem_ex mask_mixed_ex 30 (5000 # 200)).
  - discriminate.
  - intro E. discriminate E.
  - reflexivity.
  - reflexivity.
Defined.

Lemma delta_down_ok_inv (st : stats_row) (dem mask : raster) (dx dd : Q) :
  delta_down st dem mask dx = Ok dd ->
  dd == snow_covered_below_sla_area (ELA_from_AAR_m st) dem mask dx / total_area dem dx.
Proof.
  unfold delta_down, py_div. intro E.
  destruct (Qeq_bool (total_area dem dx) 0); [discriminate |].
  injection E as <-. reflexivity.
Qed.

(** C7, as stated, fails for the total area: it counts every cell whose
    elevation is present, also where the snow cover is missing. *)
Lemma total_area_counts_missing_snow_cover_cex :
  valid_cell_count [Num 10] [NaN] = 0%nat /\
  total_area [Num 10] 1 == 1 /\
  ~ total_area [Num 10] 1 == inject_Z (Z.of_nat (valid_cell_count [Num 10] [NaN])) * 1 ^ 2.
Proof.
  split; [reflexivity |]. split; [reflexivity |].
  intro E. vm_compute in E. discriminate E.
Qed.

Lemma count_true_matching (p : Q -> Q -> bool) (f : npfloat * npfloat -> bool)
  (dem mask : raster) :
  (forall c, f c = match c with (Num e, Num s) => p e s | _ => false end) ->
  Np.count_true (map f (combine dem mask)) = matching_cell_count p dem mask.
Proof.
  intro Hf. unfold Np.count_true, matching_cell_count.
  induction (combine dem mask) as [| c cs IH]; simpl; [reflexivity |].
  rewrite Hf. destruct c as [[e |] [s |]]; simpl; try exact IH.
  destruct (p e s); simpl; [now rewrite IH | exact IH].
Qed.

(** C7, amended.  Each misclassification area is the number of cells where
    both inputs are present and the predicate holds, times [dx ^ 2]; the
    total area is the number of cells whose elevation is present, times
    [dx ^ 2], whatever the snow cover there. *)
Theorem raster_areas_are_counts (sla : Q) (dem mask : raster) (dx : Q) :
  snow_free_above_sla_area sla dem mask dx
    = inject_Z (Z.of_nat (matching_cell_count
                            (fun e s => Np.Qltb sla e && Qeq_bool s 0) dem mask)) * dx ^ 2 /\
  snow_covered_below_sla_area sla dem mask dx
    = inject_Z (Z.of_nat (matching_cell_count
                            (fun e s => Np.Qltb e sla && Qeq_bool s 1) dem mask)) * dx ^ 2 /\
  total_area dem dx = inject_Z (Z.of_nat (List.length (Np.valid dem))) * dx ^ 2.
Proof.
  unfold snow_free_above_sla_area, snow_covered_below_sla_area, total_area,
    snow_free_above_sla, snow_covered_below_sla.
  split; [| split].
  - rewrite (@count_true_matching (fun e s => Np.Qltb sla e && Qeq_bool s 0)); [reflexivity |].
    intros [[e |] [s |]]; simpl; try reflexivity. now rewrite andb_false_r.
  - rewrite (@count_true_matching (fun e s => Np.Qltb e sla && Qeq_bool s 1)); [reflexivity |].
    intros [[e |] [s |]]; simpl; try reflexivity. now rewrite andb_false_r.
  - now rewrite npx_valid.
Qed.

(** C8, as stated, fails: with no misclassified cell the two bounds
    coincide, but the central altitude is the table entry and need not equal
    them. *)
Lemma sla_bounds_no_collapse_cex :
  snow_free_above_sla_area 0 [Num 10; Num 20] [Num 1; Num 1] 30 == 0 /\
  snow_covered_below_sla_area 0 [Num 10; Num 20] [Num 1; Num 1] 30 == 0 /\
  exists u l,
    calculate_sla_bounds {| AAR := 1 # 2; ELA_from_AAR_m := 0 |}
      [Num 10; Num 20] [Num 1; Num 1] 30 = Ok (0, Num u, Num l) /\
    u == 15 /\ l == 15 /\ ~ 0 == u.
Proof.
  split; [reflexivity |]. split; [reflexivity |].
  eexists. eexists. split; [vm_compute; reflexivity |].
  split; [reflexivity |]. split; [reflexivity |].
  intro E. discriminate E.
Qed.

(** With both misclassification areas zero the two bounds coincide, for any
    table entry. *)
Lemma sla_bounds_equal_without_misclassification (st : stats_row) (dem mask : raster) (dx : Q) :
  Np.valid dem <> [] -> ~ dx == 0 ->
  snow_free_above_sla_area (ELA_from_AAR_m st) dem mask dx == 0 ->
  snow_covered_below_sla_area (ELA_from_AAR_m st) dem mask dx == 0 ->
  exists u l,
    calculate_sla_bounds st dem mask dx = Ok (ELA_from_AAR_m st, Num u, Num l) /\
    l == u /\
    (forall x r, Np.valid dem = x :: r ->
       u == Np.lerp_sorted (Np.sort (x :: r)) (Np.clip (sla_percentile st) 0 1)).
Proof.
  intros Hv Hdx Zu Zd.
  destruct (Np.valid dem) as [| x l] eqn:V; [congruence |].
  destruct (@calculate_sla_bounds_ok st dem mask dx x l V Hdx) as (du & dd & Eu & _ & Ed & _ & R).
  destruct (delta_up_ok_inv _ _ _ _ _ Eu) as (_ & _ & Du).
  pose proof (delta_down_ok_inv _ _ _ _ _ Ed) as Dd.
  rewrite Zu in Du. rewrite Zd in Dd.
  assert (P : 0 < total_area dem dx) by (apply total_area_pos; [congruence | exact Hdx]).
  assert (Du0 : du == 0) by (rewrite Du; field; lra).
  assert (Dd0 : dd == 0) by (rewrite Dd; field; lra).
  assert (Eup : upper_sla_percentile st du * 100 / 100 == Np.clip (sla_percentile st) 0 1).
  { rewrite percent_roundtrip. apply clip_eq. rewrite Du0. ring. }
  assert (Elo : lower_sla_percentile st dd * 100 / 100 == Np.clip (sla_percentile st) 0 1).
  { rewrite percent_roundtrip. apply clip_eq. rewrite Dd0. ring. }
  eexists. eexists. split; [exact R |]. split.
  - rewrite (lerp_eq _ _ _ Elo), (lerp_eq _ _ _ Eup). reflexivity.
  - intros x' r' E. injection E as <- <-. apply lerp_eq, Eup.
Qed.

(** C8, amended.  With both misclassification areas zero and a table entry
    that is the (1 - AAR) percentile of the valid elevation samples, the
    lower bound, the central altitude and the upper bound are equal. *)
Theorem sla_bounds_collapse (st : stats_row) (dem mask : raster) (dx c : Q) :
  Np.valid dem <> [] -> ~ dx == 0 ->
  snow_free_above_sla_area (ELA_from_AAR_m st) dem mask dx == 0 ->
  snow_covered_below_sla_area (ELA_from_AAR_m st) dem mask dx == 0 ->
  Np.nanpercentile dem (sla_percentile st * 100) = Ok (Num c) ->
  ELA_from_AAR_m st == c ->
  exists u l,
    calculate_sla_bounds st dem mask dx = Ok (ELA_from_AAR_m st, Num u, Num l) /\
    l == ELA_from_AAR_m st /\ ELA_from_AAR_m st == u.
Proof.
  intros Hv Hdx Zu Zd Hp Hc.
  destruct (sla_bounds_equal_without_misclassification st dem mask dx Hv Hdx Zu Zd)
    as (u & l & R & Elu & Eu).
  exists u, l. split; [exact R |].
  destruct (Np.valid dem) as [| x r] eqn:V; [congruence |].
  destruct (@nanpercentile_inv dem (sla_percentile st) c x r V Hp) as (P0 & P1 & Ec).
  assert (E : ELA_from_AAR_m st == u).
  { rewrite Hc, Ec, (Eu x r eq_refl). apply lerp_eq.
    rewrite percent_roundtrip, (clip_id _ P0 P1). reflexivity. }
  split; [rewrite Elu; symmetry; exact E | exact E].
Qed.

Lemma sla_bounds_collapse_witness :
  exists u l,
    calculate_sla_bounds {| AAR := 1 # 2; ELA_from_AAR_m := 25 |} dem_ex mask_ex 30
      = Ok (25, Num u, Num l) /\
    l == 25 /\ 25 == u.
Proof.
  apply (@sla_bounds_collapse
           {| AAR := 1 # 2; ELA_from_AAR_m := 25 |} dem_ex mask_ex 30 (5000 # 200)).
  - discriminate.
  - intro E. discriminate E.
  - reflexivity.
  - reflexivity.
  - reflexivity.
  - reflexivity.
Defined.

(** C9.  When the percentile plus [delta_up] exceeds one, the upper
    percentile is clamped to one and the upper bound is the maximum of the
    valid elevation samples. *)
Theorem upper_bound_clamped_to_maximum (st : stats_row) (dem mask : raster) (dx du : Q) :
  delta_up st dem mask dx = Ok du ->
  1 < sla_percentile st + du ->
  upper_sla_percentile st du == 1 /\
  exists u l mx,
    calculate_sla_bounds st dem mask dx = Ok (ELA_from_AAR_m st, Num u, l) /\
    Np.nanmax dem = Num mx /\ u == mx.
Proof.
  intros Eu Hgt.
  destruct (delta_up_ok_inv _ _ _ _ _ Eu) as (Hv & Hdx & _).
  destruct (Np.valid dem) as [| x r] eqn:V; [congruence |].
  destruct (@calculate_sla_bounds_ok st dem mask dx x r V Hdx) as (du' & dd & Eu' & _ & _ & _ & R).
  rewrite Eu in Eu'. injection Eu' as <-.
  assert (C : upper_sla_percentile st du == 1) by (apply clip_above_one; exact Hgt).
  split; [exact C |].
  eexists. eexists. exists (Np.maximum x r).
  split; [exact R |]. split; [unfold Np.nanmax; now rewrite V |].
  assert (Q1 : upper_sla_percentile st du * 100 / 100 == 1)
    by (rewrite percent_roundtrip; exact C).
  rewrite (lerp_at_one _ _ Q1).
  apply Qle_antisym; [apply sorted_last_le_maximum | apply sorted_last_ge_maximum].
Qed.

Lemma upper_bound_clamped_to_maximum_witness :
  upper_sla_percentile {| AAR := 0; ELA_from_AAR_m := 15 |} (900 # 3600) == 1 /\
  exists u l mx,
    calculate_sla_bounds {| AAR := 0; ELA_from_AAR_m := 15 |} dem_ex mask_ex 30
      = Ok (15, Num u, l) /\
    Np.nanmax dem_ex = Num mx /\ u == mx.
Proof.
  apply (@upper_bound_clamped_to_maximum
           {| AAR := 0; ELA_from_AAR_m := 15 |} dem_ex mask_ex 30 (900 # 3600)).
  - reflexivity.
  - reflexivity.
Defined.

Lemma combine_app_same_length {A B} (l1 l2 : list A) (m1 m2 : list B) :
  List.length l1 = List.length m1 ->
  combine (l1 ++ l2) (m1 ++ m2) = combine l1 m1 ++ combine l2 m2.
Proof.
  revert m1. induction l1 as [| a l1 IH]; intros [| b m1] E; simpl in *; try discriminate.
  - reflexivity.
  - f_equal. apply IH. lia.
Qed.

Lemma Qltb_irrefl (a b : Q) : a == b -> Np.Qltb a b = false.
Proof.
  intro E. unfold Np.Qltb.
  assert (L : Qle_bool b a = true) by (apply Qle_bool_iff; rewrite E; apply Qle_refl).
  now rewrite L.
Qed.

(** C10.  A cell whose elevation equals the threshold is counted in neither
    misclassification area, whatever its snow cover: both areas are what
    they are without the cell. *)
Theorem boundary_cell_in_neither_area (sla e : Q) (m : npfloat)
  (dem1 dem2 mask1 mask2 : raster) (dx : Q) :
  List.length dem1 = List.length mask1 ->
  e == sla ->
  snow_free_above_sla_area sla (dem1 ++ Num e :: dem2) (mask1 ++ m :: mask2) dx
    = snow_free_above_sla_area sla (dem1 ++ dem2) (mask1 ++ mask2) dx /\
  snow_covered_below_sla_area sla (dem1 ++ Num e :: dem2) (mask1 ++ m :: mask2) dx
    = snow_covered_below_sla_area sla (dem1 ++ dem2) (mask1 ++ mask2) dx.
Proof.
  intros L E.
  unfold snow_free_above_sla_area, snow_covered_below_sla_area,
    snow_free_above_sla, snow_covered_below_sla, Np.count_true.
  rewrite !(combine_app_same_length _ _ _ _ L). simpl.
  rewrite !map_app, !filter_app. simpl.
  rewrite (Qltb_irrefl sla e) by (symmetry; exact E).
  rewrite (Qltb_irrefl e sla E). simpl.
  split; reflexivity.
Qed.

Lemma boundary_cell_in_neither_area_witness :
  snow_free_above_sla_area 20 ([Num 10] ++ Num 20 :: [Num 30]) ([Num 0] ++ Num 0 :: [Num 0]) 30
    = snow_free_above_sla_area 20 ([Num 10] ++ [Num 30]) ([Num 0] ++ [Num 0]) 30 /\
  snow_covered_below_sla_area 20 ([Num 10] ++ Num 20 :: [Num 30]) ([Num 0] ++ Num 0 :: [Num 0]) 30
    = snow_covered_below_sla_area 20 ([Num 10] ++ [Num 30]) ([Num 0] ++ [Num 0]) 30.
Proof.
  apply (@boundary_cell_in_neither_area 20 20 (Num 0) [Num 10] [Num 30] [Num 0] [Num 0] 30).
  - reflexivity.
  - reflexivity.
Defined.

(** ** The cross-validation loops *)

Section CrossValidation.

Context `{Library}.

Lemma arr_set_at (pre : list npfloat) (x : npfloat) (post : list npfloat) (v : npfloat) (k : nat) :
  k = List.length pre -> Arr.set (pre ++ x :: post) k v = Ok (pre ++ v :: post).
Proof.
  intros ->. induction pre as [| a pre IH]; simpl; [reflexivity | now rewrite IH].
Qed.

Lemma last_cons_default {A} (a d : A) (l : list A) : last (a :: l) d = last l a.
Proof.
  revert a d. induction l as [| b l IH]; intros a d; [reflexivity |].
  change (last (a :: b :: l) d) with (last (b :: l) d).
  rewrite (IH b d), (IH b a). reflexivity.
Qed.

Lemma fold_body_step (m : nat) (X y : DataFrame) (ix : list nat * list nat)
  (pre1 pre2 pre3 pre4 post1 post2 post3 post4 : list npfloat)
  (p1 p2 p3 p4 : npfloat) (r : pyval) (w : World) :
  List.length pre2 = List.length pre1 ->
  List.length pre3 = List.length pre1 ->
  List.length pre4 = List.length pre1 ->
  fold_body m X y
    {| j := List.length pre1;
       mean_abs_err_folds := pre1 ++ p1 :: post1;
       mean_sq_err_folds := pre2 ++ p2 :: post2;
       mean_abs_percentage_err_folds := pre3 ++ p3 :: post3;
       max_err_folds := pre4 ++ p4 :: post4;
       rsq_folds := r |} ix w
  = (Ok {| j := S (List.length pre1);
           mean_abs_err_folds :=
             pre1 ++ Num (fr_mean_absolute_error (fold_evaluator (heap w m) X y ix)) :: post1;
           mean_sq_err_folds :=
             pre2 ++ Num (fr_mean_squared_error (fold_evaluator (heap w m) X y ix)) :: post2;
           mean_abs_percentage_err_folds :=
             pre3 ++ Num (fr_mean_absolute_percentage_error (fold_evaluator (heap w m) X y ix))
                  :: post3;
           max_err_folds :=
             pre4 ++ Num (fr_max_error (fold_evaluator (heap w m) X y ix)) :: post4;
           rsq_folds := Scalar (fr_r_squared (fold_evaluator (heap w m) X y ix)) |},
     snd (model_fit m (iloc X (fst ix)) (Ravelled (ravel_values (iloc y (fst ix)))) w)).
Proof.
  intros E2 E3 E4.
  unfold fold_body, bind, model_fit, model_predict, lift, ret. simpl.
  rewrite Nat.eqb_refl.
  rewrite (arr_set_at pre1 p1 post1 _ _ eq_refl).
  rewrite (arr_set_at pre2 p2 post2 _ _ (eq_sym E2)).
  rewrite (arr_set_at pre3 p3 post3 _ _ (eq_sym E3)).
  rewrite (arr_set_at pre4 p4 post4 _ _ (eq_sym E4)).
  reflexivity.
Qed.

Lemma snoc_app {A} (pre : list A) (v : A) (post : list A) :
  pre ++ v :: post = (pre ++ [v]) ++ post.
Proof. now rewrite <- app_assoc. Qed.

Lemma length_snoc {A} (pre : list A) (v : A) : List.length (pre ++ [v]) = S (List.length pre).
Proof. rewrite length_app. simpl. lia. Qed.

Lemma fold_loop_spec (m : nat) (X y : DataFrame) :
  forall (splits : list (list nat * list nat))
    (pre1 pre2 pre3 pre4 post1 post2 post3 post4 : list npfloat) (r : pyval) (w : World),
    List.length pre2 = List.length pre1 ->
    List.length pre3 = List.length pre1 ->
    List.length pre4 = List.length pre1 ->
    (List.length splits <= List.length post1)%nat ->
    (List.length splits <= List.length post2)%nat ->
    (List.length splits <= List.length post3)%nat ->
    (List.length splits <= List.length post4)%nat ->
    exists w',
      foldM (fold_body m X y)
        {| j := List.length pre1;
           mean_abs_err_folds := pre1 ++ post1;
           mean_sq_err_folds := pre2 ++ post2;
           mean_abs_percentage_err_folds := pre3 ++ post3;
           max_err_folds := pre4 ++ post4;
           rsq_folds := r |} splits w
      = (Ok {| j := List.length pre1 + List.length splits;
               mean_abs_err_folds :=
                 pre1 ++ map (fun fr => Num (fr_mean_absolute_error fr))
                           (fold_results (heap w m) X y splits)
                      ++ skipn (List.length splits) post1;
               mean_sq_err_folds :=
                 pre2 ++ map (fun fr => Num (fr_mean_squared_error fr))
                           (fold_results (heap w m) X y splits)
                      ++ skipn (List.length splits) post2;
               mean_abs_percentage_err_folds :=
                 pre3 ++ map (fun fr => Num (fr_mean_absolute_percentage_error fr))
                           (fold_results (heap w m) X y splits)
                      ++ skipn (List.length splits) post3;
               max_err_folds :=
                 pre4 ++ map (fun fr => Num (fr_max_error fr))
                           (fold_results (heap w m) X y splits)
                      ++ skipn (List.length splits) post4;
               rsq_folds :=
                 last (map (fun fr => Scalar (fr_r_squared fr))
                         (fold_results (heap w m) X y splits)) r |}, w') /\
      (forall a, heap w' a = heap_after (heap w) m X y splits a) /\
      fit_calls w' = fit_calls w ++ fold_fit_calls m X y splits /\
      path_exists w' = path_exists w /\
      can_create w' = can_create w /\
      files w' = files w /\
      stdout w' = stdout w.
Proof.
  induction splits as [| ix splits IH];
    intros pre1 pre2 pre3 pre4 post1 post2 post3 post4 r w E2 E3 E4 L1 L2 L3 L4.
  - exists w. simpl. unfold ret. rewrite Nat.add_0_r, !app_nil_r.
    repeat split; try reflexivity.
    intro a. unfold heap_after. simpl. now destruct (Nat.eqb a m) eqn:E; [apply Nat.eqb_eq in E; subst |].
  - destruct post1 as [| p1 post1]; [simpl in L1; lia |].
    destruct post2 as [| p2 post2]; [simpl in L2; lia |].
    destruct post3 as [| p3 post3]; [simpl in L3; lia |].
    destruct post4 as [| p4 post4]; [simpl in L4; lia |].
    simpl in L1, L2, L3, L4.
    cbn [foldM]. unfold bind at 1.
    rewrite (fold_body_step m X y ix pre1 pre2 pre3 pre4 post1 post2 post3 post4
               p1 p2 p3 p4 r w E2 E3 E4).
    set (fr := fold_evaluator (heap w m) X y ix).
    set (w1 := snd (model_fit m (iloc X (fst ix)) (Ravelled (ravel_values (iloc y (fst ix)))) w)).
    assert (Hw1 : heap w1 m = fit_fold (heap w m) X y ix).
    { subst w1. simpl. now rewrite Nat.eqb_refl. }
    rewrite (snoc_app pre1 _ post1), (snoc_app pre2 _ post2),
      (snoc_app pre3 _ post3), (snoc_app pre4 _ post4).
    rewrite <- (length_snoc pre1 (Num (fr_mean_absolute_error fr))).
    destruct (IH (pre1 ++ [Num (fr_mean_absolute_error fr)])
                 (pre2 ++ [Num (fr_mean_squared_error fr)])
                 (pre3 ++ [Num (fr_mean_absolute_percentage_error fr)])
                 (pre4 ++ [Num (fr_max_error fr)])
                 post1 post2 post3 post4 (Scalar (fr_r_squared fr)) w1)
      as (w' & Run & Hh & Hf & Hp & Hc & Hfi & Hs);
      try (rewrite !length_snoc; congruence); try lia.
    exists w'. rewrite Run, Hw1.
    split; [| split; [| split; [| split; [| split; [| split]]]]].
    + f_equal. cbn [fold_results map skipn List.length]. fold fr.
      rewrite last_cons_default, length_snoc, <- !app_assoc. simpl.
      rewrite <- plus_n_Sm. reflexivity.
    + intro a. rewrite Hh. unfold heap_after. rewrite Hw1. cbn [final_est].
      subst w1. simpl. destruct (Nat.eqb a m); reflexivity.
    + rewrite Hf. subst w1. simpl. now rewrite <- app_assoc.
    + rewrite Hp. reflexivity.
    + rewrite Hc. reflexivity.
    + rewrite Hfi. reflexivity.
    + rewrite Hs. reflexivity.
Qed.

(** *** The partition *)

Lemma chunks_length (sizes l : list nat) :
  List.length (KFold.chunks sizes l) = List.length sizes.
Proof.
  revert l. induction sizes as [| s sizes IH]; intro l; simpl; [reflexivity | now rewrite IH].
Qed.

Lemma kfold_new_ok (num_folds : Z) (shuffle : bool) (seed : Z) :
  (2 <= num_folds)%Z ->
  KFold.new num_folds shuffle seed
  = Ok {| KFold.n_splits := num_folds; KFold.shuffle := shuffle; KFold.random_state := seed |}.
Proof.
  intro L. unfold KFold.new.
  destruct (num_folds <=? 1)%Z eqn:E; [apply Z.leb_le in E; lia | reflexivity].
Qed.

Lemma kfold_split_ok (num_folds : Z) (shuffle : bool) (seed : Z) (n : nat) :
  (num_folds <= Z.of_nat n)%Z ->
  exists P,
    KFold.split
      {| KFold.n_splits := num_folds; KFold.shuffle := shuffle; KFold.random_state := seed |} n
    = Ok P /\
    List.length P = Z.to_nat num_folds.
Proof.
  intro L. unfold KFold.split. simpl.
  destruct (Z.of_nat n <? num_folds)%Z eqn:E; [apply Z.ltb_lt in E; lia |].
  eexists. split; [reflexivity |].
  rewrite length_map, chunks_length. unfold KFold.fold_sizes.
  now rewrite length_map, length_seq.
Qed.

Lemma fold_results_length (e : Est) (X y : DataFrame) (splits : list (list nat * list nat)) :
  List.length (fold_results e X y splits) = List.length splits.
Proof.
  revert e. induction splits as [| ix splits IH]; intro e; simpl; [reflexivity | now rewrite IH].
Qed.

Lemma valid_nums {A} (f : A -> Q) (l : list A) :
  Np.valid (map (fun a => Num (f a)) l) = map f l.
Proof.
  induction l as [| a l IH]; simpl; [reflexivity | now rewrite IH].
Qed.

Lemma nanmean_nums (f : FoldResult -> Q) (frs : list FoldResult) :
  frs <> [] ->
  Arr.nanmean (map (fun fr => Num (f fr)) frs) = Num (mean_over_folds f frs).
Proof.
  intro N. unfold Arr.nanmean, mean_over_folds. rewrite valid_nums.
  destruct frs; [congruence | reflexivity].
Qed.

Lemma skipn_zeros_all (n k : nat) : n = k -> skipn n (Arr.zeros k) = [].
Proof.
  intros ->. apply skipn_all2. unfold Arr.zeros. rewrite repeat_length. lia.
Qed.

Lemma py_index_at {A} (pre : list A) (v : A) (post : list A) (k : nat) :
  k = List.length pre -> py_index (pre ++ v :: post) k = Ok v.
Proof.
  intros ->. unfold py_index. rewrite nth_error_app2 by lia. now rewrite Nat.sub_diag.
Qed.

(** *** One candidate *)

Lemma model_body_step (X y : DataFrame) (num_folds : Z) (P : list (list nat * list nat))
  (name : string) (m : nat)
  (pre1 pre2 pre3 pre4 pre5 post1 post2 post3 post4 post5 : list npfloat)
  (p1 p2 p3 p4 p5 : npfloat) (w : World) :
  (2 <= num_folds)%Z ->
  KFold.split {| KFold.n_splits := num_folds; KFold.shuffle := true;
                 KFold.random_state := kfold_random_state |} (nrows X) = Ok P ->
  List.length P = Z.to_nat num_folds ->
  List.length pre2 = List.length pre1 ->
  List.length pre3 = List.length pre1 ->
  List.length pre4 = List.length pre1 ->
  List.length pre5 = List.length pre1 ->
  exists w',
    model_body X y num_folds
      (List.length pre1,
       {| mean_abs_err := pre1 ++ p1 :: post1;
          mean_sq_err := pre2 ++ p2 :: post2;
          mean_abs_percentage_err := pre3 ++ p3 :: post3;
          max_err := pre4 ++ p4 :: post4;
          rsq := pre5 ++ p5 :: post5 |}) (name, m) w
    = (Ok (S (List.length pre1),
           {| mean_abs_err :=
                pre1 ++ Num (mean_over_folds fr_mean_absolute_error
                               (fold_results (heap w m) X y P)) :: post1;
              mean_sq_err :=
                pre2 ++ Num (mean_over_folds fr_mean_squared_error
                               (fold_results (heap w m) X y P)) :: post2;
              mean_abs_percentage_err :=
                pre3 ++ nanmean_val (last_r_squared num_folds (fold_results (heap w m) X y P))
                     :: post3;
              max_err :=
                pre4 ++ Num (mean_over_folds fr_max_error
                               (fold_results (heap w m) X y P)) :: post4;
              rsq :=
                pre5 ++ nanmean_val (last_r_squared num_folds (fold_results (heap w m) X y P))
                     :: post5 |}), w') /\
    (forall a, heap w' a = heap_after (heap w) m X y P a) /\
    fit_calls w' = fit_calls w ++ fold_fit_calls m X y P /\
    path_exists w' = path_exists w /\
    can_create w' = can_create w /\
    files w' = files w.
Proof.
  intros K2 HP LP E2 E3 E4 E5.
  set (w0 := snd (print (MsgModelName name) w)).
  destruct (fold_loop_spec m X y P [] [] [] [] (Arr.zeros (Z.to_nat num_folds))
              (Arr.zeros (Z.to_nat num_folds)) (Arr.zeros (Z.to_nat num_folds))
              (Arr.zeros (Z.to_nat num_folds)) (Array (Arr.zeros (Z.to_nat num_folds))) w0)
    as (w1 & Run & Hh & Hf & Hp & Hc & Hfi & _);
    try reflexivity; try (unfold Arr.zeros; rewrite repeat_length; lia).
  rewrite !(skipn_zeros_all _ _ LP), !app_nil_r in Run. simpl in Run.
  assert (N : fold_results (heap w m) X y P <> []).
  { intro E. pose proof (fold_results_length (heap w m) X y P) as L. rewrite E in L.
    simpl in L. lia. }
  rewrite !(nanmean_nums _ _ N) in Run || idtac.
  eexists. split.
  - unfold model_body, bind, lift. cbn [fst snd].
    change (print (MsgModelName name) w) with (Ok tt, w0).
    rewrite (kfold_new_ok _ _ _ K2), HP.
    unfold fold_arrays_init. rewrite Run.
    cbn [mean_abs_err_folds mean_sq_err_folds max_err_folds rsq_folds
         mean_abs_err mean_sq_err mean_abs_percentage_err max_err rsq].
    rewrite !(nanmean_nums _ _ N).
    rewrite (arr_set_at pre1 p1 post1 _ _ eq_refl).
    rewrite (arr_set_at pre2 p2 post2 _ _ (eq_sym E2)).
    rewrite (arr_set_at pre3 p3 post3 _ _ (eq_sym E3)).
    rewrite (arr_set_at pre4 p4 post4 _ _ (eq_sym E4)).
    rewrite (arr_set_at pre5 p5 post5 _ _ (eq_sym E5)).
    rewrite (py_index_at pre1 _ post1 _ eq_refl).
    unfold print, ret. reflexivity.
  - cbn [heap fit_calls path_exists can_create files].
    repeat split; assumption.
Qed.

(** *** All candidates *)

Lemma heap_after_ext (h1 h2 : nat -> Est) (m : nat) (X y : DataFrame)
  (P : list (list nat * list nat)) :
  (forall a, h1 a = h2 a) ->
  forall a, heap_after h1 m X y P a = heap_after h2 m X y P a.
Proof.
  intros E a. unfold heap_after. rewrite (E m), (E a). reflexivity.
Qed.

Lemma cv_fold_results_ext (X y : DataFrame) (P : list (list nat * list nat)) :
  forall (cands : list (string * nat)) (h1 h2 : nat -> Est),
    (forall a, h1 a = h2 a) ->
    cv_fold_results h1 X y P cands = cv_fold_results h2 X y P cands.
Proof.
  induction cands as [| nm cands IH]; intros h1 h2 E; simpl; [reflexivity |].
  rewrite (E (snd nm)). f_equal. apply IH. now apply heap_after_ext.
Qed.

Lemma cv_heap_ext (X y : DataFrame) (P : list (list nat * list nat)) :
  forall (cands : list (string * nat)) (h1 h2 : nat -> Est),
    (forall a, h1 a = h2 a) ->
    forall a, cv_heap h1 X y P cands a = cv_heap h2 X y P cands a.
Proof.
  induction cands as [| nm cands IH]; intros h1 h2 E a; simpl; [apply E |].
  apply IH. now apply heap_after_ext.
Qed.

Lemma cv_fold_results_length (X y : DataFrame) (P : list (list nat * list nat)) :
  forall (cands : list (string * nat)) (h : nat -> Est),
    List.length (cv_fold_results h X y P cands) = List.length cands.
Proof.
  induction cands as [| nm cands IH]; intro h; simpl; [reflexivity | now rewrite IH].
Qed.

Lemma cv_loop_spec (X y : DataFrame) (num_folds : Z) (P : list (list nat * list nat)) :
  (2 <= num_folds)%Z ->
  KFold.split {| KFold.n_splits := num_folds; KFold.shuffle := true;
                 KFold.random_state := kfold_random_state |} (nrows X) = Ok P ->
  List.length P = Z.to_nat num_folds ->
  forall (cands : list (string * nat))
    (pre1 pre2 pre3 pre4 pre5 post1 post2 post3 post4 post5 : list npfloat) (w : World),
    List.length pre2 = List.length pre1 ->
    List.length pre3 = List.length pre1 ->
    List.length pre4 = List.length pre1 ->
    List.length pre5 = List.length pre1 ->
    (List.length cands <= List.length post1)%nat ->
    (List.length cands <= List.length post2)%nat ->
    (List.length cands <= List.length post3)%nat ->
    (List.length cands <= List.length post4)%nat ->
    (List.length cands <= List.length post5)%nat ->
    exists w',
      foldM (model_body X y num_folds)
        (List.length pre1,
         {| mean_abs_err := pre1 ++ post1;
            mean_sq_err := pre2 ++ post2;
            mean_abs_percentage_err := pre3 ++ post3;
            max_err := pre4 ++ post4;
            rsq := pre5 ++ post5 |}) cands w
      = (Ok ((List.length pre1 + List.length cands)%nat,
             {| mean_abs_err :=
                  pre1 ++ map (fun frs => Num (mean_over_folds fr_mean_absolute_error frs))
                            (cv_fold_results (heap w) X y P cands)
                       ++ skipn (List.length cands) post1;
                mean_sq_err :=
                  pre2 ++ map (fun frs => Num (mean_over_folds fr_mean_squared_error frs))
                            (cv_fold_results (heap w) X y P cands)
                       ++ skipn (List.length cands) post2;
                mean_abs_percentage_err :=
                  pre3 ++ map (fun frs => nanmean_val (last_r_squared num_folds frs))
                            (cv_fold_results (heap w) X y P cands)
                       ++ skipn (List.length cands) post3;
                max_err :=
                  pre4 ++ map (fun frs => Num (mean_over_folds fr_max_error frs))
                            (cv_fold_results (heap w) X y P cands)
                       ++ skipn (List.length cands) post4;
                rsq :=
                  pre5 ++ map (fun frs => nanmean_val (last_r_squared num_folds frs))
                            (cv_fold_results (heap w) X y P cands)
                       ++ skipn (List.length cands) post5 |}), w') /\
      (forall a, heap w' a = cv_heap (heap w) X y P cands a) /\
      fit_calls w' = fit_calls w ++ cv_fit_calls X y P cands /\
      path_exists w' = path_exists w /\
      can_create w' = can_create w /\
      files w' = files w.
Proof.
  intros K2 HP LP.
  induction cands as [| [name m] cands IH];
    intros pre1 pre2 pre3 pre4 pre5 post1 post2 post3 post4 post5 w
      E2 E3 E4 E5 L1 L2 L3 L4 L5.
  - exists w. simpl. unfold ret. rewrite Nat.add_0_r, !app_nil_r.
    repeat split; reflexivity.
  - destruct post1 as [| p1 post1]; [simpl in L1; lia |].
    destruct post2 as [| p2 post2]; [simpl in L2; lia |].
    destruct post3 as [| p3 post3]; [simpl in L3; lia |].
    destruct post4 as [| p4 post4]; [simpl in L4; lia |].
    destruct post5 as [| p5 post5]; [simpl in L5; lia |].
    simpl in L1, L2, L3, L4, L5.
    destruct (model_body_step X y num_folds P name m
                pre1 pre2 pre3 pre4 pre5 post1 post2 post3 post4 post5
                p1 p2 p3 p4 p5 w K2 HP LP E2 E3 E4 E5)
      as (w1 & Step & Hh1 & Hf1 & Hp1 & Hc1 & Hfi1).
    cbn [foldM]. unfold bind at 1. rewrite Step.
    set (frs := fold_results (heap w m) X y P) in *.
    rewrite (snoc_app pre1 _ post1), (snoc_app pre2 _ post2), (snoc_app pre3 _ post3),
      (snoc_app pre4 _ post4), (snoc_app pre5 _ post5).
    rewrite <- (length_snoc pre1 (Num (mean_over_folds fr_mean_absolute_error frs))).
    destruct (IH (pre1 ++ [Num (mean_over_folds fr_mean_absolute_error frs)])
                 (pre2 ++ [Num (mean_over_folds fr_mean_squared_error frs)])
                 (pre3 ++ [nanmean_val (last_r_squared num_folds frs)])
                 (pre4 ++ [Num (mean_over_folds fr_max_error frs)])
                 (pre5 ++ [nanmean_val (last_r_squared num_folds frs)])
                 post1 post2 post3 post4 post5 w1)
      as (w' & Run & Hh & Hf & Hp & Hc & Hfi);
      try (rewrite !length_snoc; congruence); try lia.
    exists w'. rewrite Run.
    rewrite (cv_fold_results_ext X y P cands (heap w1) (heap_after (heap w) m X y P) Hh1).
    split; [| split; [| split; [| split; [| split]]]].
    + cbn [cv_fold_results map skipn List.length snd]. fold frs.
      rewrite length_snoc, <- !app_assoc. simpl.
      rewrite <- plus_n_Sm. reflexivity.
    + intro a. rewrite Hh. cbn [cv_heap snd]. now apply cv_heap_ext.
    + rewrite Hf, Hf1. unfold cv_fit_calls. cbn [flat_map snd]. now rewrite app_assoc.
    + now rewrite Hp.
    + now rewrite Hc.
    + now rewrite Hfi.
Qed.

(** What [cross_validate] computes, when the fold count fits the data. *)
Lemma cross_validate_spec (X y : DataFrame) (models : list nat) (model_names : list string)
  (num_folds : Z) (w : World) :
  (2 <= num_folds)%Z -> (num_folds <= Z.of_nat (nrows X))%Z ->
  exists P w',
    KFold.split {| KFold.n_splits := num_folds; KFold.shuffle := true;
                   KFold.random_state := kfold_random_state |} (nrows X) = Ok P /\
    List.length P = Z.to_nat num_folds /\
    let cands := combine model_names models in
    let rest := skipn (List.length cands) (Arr.zeros (List.length models)) in
    let results := cv_fold_results (heap w) X y P cands in
    cross_validate X y models model_names num_folds w
    = (Ok {| mean_abs_err :=
               map (fun frs => Num (mean_over_folds fr_mean_absolute_error frs)) results ++ rest;
             mean_sq_err :=
               map (fun frs => Num (mean_over_folds fr_mean_squared_error frs)) results ++ rest;
             mean_abs_percentage_err :=
               map (fun frs => nanmean_val (last_r_squared num_folds frs)) results ++ rest;
             max_err :=
               map (fun frs => Num (mean_over_folds fr_max_error frs)) results ++ rest;
             rsq :=
               map (fun frs => nanmean_val (last_r_squared num_folds frs)) results ++ rest |},
       w') /\
    (forall a, heap w' a = cv_heap (heap w) X y P cands a) /\
    fit_calls w' = fit_calls w ++ cv_fit_calls X y P cands /\
    path_exists w' = path_exists w /\
    can_create w' = can_create w /\
    files w' = files w.
Proof.
  intros K2 Kn.
  destruct (kfold_split_ok num_folds true kfold_random_state (nrows X) Kn) as (P & HP & LP).
  assert (Lc : (List.length (combine model_names models)
                <= List.length (Arr.zeros (List.length models)))%nat).
  { unfold Arr.zeros. rewrite repeat_length, length_combine. lia. }
  destruct (cv_loop_spec X y num_folds P K2 HP LP (combine model_names models)
              [] [] [] [] [] (Arr.zeros (List.length models)) (Arr.zeros (List.length models))
              (Arr.zeros (List.length models)) (Arr.zeros (List.length models))
              (Arr.zeros (List.length models)) w
              eq_refl eq_refl eq_refl eq_refl Lc Lc Lc Lc Lc)
    as (w' & Run & Hh & Hf & Hp & Hc & Hfi).
  exists P, w'. split; [exact HP |]. split; [exact LP |].
  cbv zeta. split; [| repeat split; assumption].
  unfold cross_validate, bind, perf_arrays_init.
  simpl in Run. rewrite Run. reflexivity.
Qed.

(** *** Selecting the minimum *)

Lemma existsb_isnan_nums {A} (f : A -> Q) (l : list A) :
  existsb Np.isnan (map (fun a => Num (f a)) l) = false.
Proof.
  induction l as [| a l IH]; simpl; [reflexivity | exact IH].
Qed.

Lemma arr_min_nums {A} (f : A -> Q) (l : list A) :
  l <> [] ->
  exists mn,
    Arr.min (map (fun a => Num (f a)) l) = Ok (Num mn) /\
    (exists a, In a l /\ f a = mn) /\
    (forall a, In a l -> mn <= f a).
Proof.
  intro N. destruct l as [| a0 l]; [congruence |].
  exists (Np.minimum (f a0) (map f l)).
  destruct (minimum_spec (map f l) (f a0)) as [I F].
  split; [| split].
  - unfold Arr.min. cbn [map]. rewrite <- (map_cons (fun a => Num (f a)) a0 l).
    rewrite existsb_isnan_nums, valid_nums. reflexivity.
  - change (f a0 :: map f l) with (map f (a0 :: l)) in I.
    apply in_map_iff in I. destruct I as (a & E & Ia). now exists a.
  - intros a Ia. rewrite Forall_forall in F. apply F.
    change (f a0 :: map f l) with (map f (a0 :: l)). now apply in_map.
Qed.

Lemma argfirst_nums {A} (f : A -> Q) (mn : Q) :
  forall l : list A,
    (exists a, In a l /\ f a == mn) ->
    exists i a,
      Arr.argfirst (map (fun a => Num (f a)) l) (Num mn) = Ok i /\
      nth_error l i = Some a /\ f a == mn /\
      (forall k b, (k < i)%nat -> nth_error l k = Some b -> ~ f b == mn).
Proof.
  induction l as [| a0 l IH]; intros (a & Ia & Ea); [destruct Ia |].
  simpl. destruct (Qeq_bool (f a0) mn) eqn:B.
  - exists 0%nat, a0. apply Qeq_bool_iff in B.
    repeat split; try assumption. intros k b Hk. lia.
  - assert (NB : ~ f a0 == mn) by (intro E; apply Qeq_bool_iff in E; congruence).
    destruct Ia as [-> | Ia]; [contradiction |].
    destruct (IH (ex_intro _ a (conj Ia Ea))) as (i & b & Run & Hn & Eb & Hlt).
    exists (S i), b. rewrite Run. simpl.
    repeat split; try assumption.
    intros [| k] c Hk Hc; simpl in Hc.
    + injection Hc as <-. exact NB.
    + apply (Hlt k c); [lia | exact Hc].
Qed.

(** *** Saving the table *)

Lemma save_performances_step_spec (save : bool) (model_names : list string) (pa : perf_arrays)
  (out_path : option string) (performances_fn ppath : string) (w : World) :
  List.length model_names = List.length (mean_abs_err pa) ->
  os_path_join out_path performances_fn = Ok ppath ->
  (save = true -> can_create w ppath = true) ->
  exists w',
    save_performances_step save model_names pa out_path performances_fn w = (Ok tt, w') /\
    heap w' = heap w /\ fit_calls w' = fit_calls w /\
    path_exists w' = path_exists w /\ can_create w' = can_create w /\
    files w' = files w
               ++ (if save
                   then [(ppath, PerformancesCsv model_names (mean_abs_err pa) (mean_sq_err pa)
                                   (mean_abs_percentage_err pa) (max_err pa) (rsq pa))]
                   else []).
Proof.
  intros L J C. destruct save.
  - unfold save_performances_step, bind, lift, performances_df, write_file, print.
    apply Nat.eqb_eq in L. rewrite L, J, (C eq_refl). simpl.
    eexists. split; [reflexivity |]. simpl. repeat split; reflexivity.
  - exists w. unfold save_performances_step, ret. rewrite app_nil_r.
    repeat split; reflexivity.
Qed.

(** *** The whole function *)

Lemma getitem_nrows (data X : DataFrame) (cs : list string) :
  getitem data cs = Ok X -> nrows X = nrows data.
Proof.
  unfold getitem. destruct (select_columns cs (columns data)); simpl; [| discriminate].
  intro E. injection E as <-. reflexivity.
Qed.

Lemma determine_best_model_spec (data X y : DataFrame) (models : list nat)
  (model_names feature_columns labels : list string) (out_path : option string)
  (best_model_fn : string) (save_performances : bool) (performances_fn : string)
  (num_folds : Z) (mpath ppath : string) (w : World) :
  getitem data feature_columns = Ok X ->
  getitem data labels = Ok y ->
  (2 <= num_folds)%Z -> (num_folds <= Z.of_nat (nrows data))%Z ->
  models <> [] ->
  List.length model_names = List.length models ->
  os_path_join out_path best_model_fn = Ok mpath ->
  os_path_join out_path performances_fn = Ok ppath ->
  can_create w mpath = true ->
  (save_performances = true -> can_create w ppath = true) ->
  exists pa w1 ibest best v w',
    cross_validate X y models model_names num_folds w = (Ok pa, w1) /\
    determine_best_model data models model_names feature_columns labels out_path
      best_model_fn save_performances performances_fn num_folds w
      = (Ok (best, X, y), w') /\
    nth_error models ibest = Some best /\
    nth_error (mean_abs_err pa) ibest = Some (Num v) /\
    (forall i u, nth_error (mean_abs_err pa) i = Some (Num u) -> v <= u) /\
    (forall i u, (i < ibest)%nat -> nth_error (mean_abs_err pa) i = Some (Num u) -> v < u) /\
    (forall a, heap w' a = if Nat.eqb a best then fit (heap w1 best) X (Frame y) else heap w1 a) /\
    fit_calls w' = fit_calls w1 ++ [(best, X, Frame y)] /\
    files w' = files w
               ++ (if save_performances
                   then [(ppath, PerformancesCsv model_names (mean_abs_err pa) (mean_sq_err pa)
                                   (mean_abs_percentage_err pa) (max_err pa) (rsq pa))]
                   else [])
               ++ [(mpath, Joblib (fit (heap w1 best) X (Frame y)))].
Proof.
  intros GX Gy K2 Kn NM LN JM JP CM CP.
  rewrite <- (getitem_nrows data X feature_columns GX) in Kn.
  destruct (cross_validate_spec X y models model_names num_folds w K2 Kn)
    as (P & w1 & HP & LP & Run & Hh1 & Hf1 & Hp1 & Hc1 & Hfi1).
  cbv zeta in Run.
  assert (Lc : List.length (combine model_names models) = List.length models)
    by (rewrite length_combine; lia).
  rewrite Lc, (skipn_zeros_all _ _ eq_refl), !app_nil_r in Run.
  set (results := cv_fold_results (heap w) X y P (combine model_names models)) in *.
  set (pa := {| mean_abs_err := map (fun frs => Num (mean_over_folds fr_mean_absolute_error frs)) results;
                mean_sq_err := _; mean_abs_percentage_err := _; max_err := _; rsq := _ |}) in *.
  assert (Lr : List.length results = List.length models).
  { subst results. now rewrite cv_fold_results_length. }
  assert (Nr : results <> []).
  { intro E. rewrite E in Lr. destruct models; [congruence | discriminate]. }
  destruct (save_performances_step_spec save_performances model_names pa out_path
              performances_fn ppath w1) as (w2 & Save & Hh2 & Hf2 & Hp2 & Hc2 & Hfi2).
  { subst pa. cbn [mean_abs_err]. rewrite length_map. congruence. }
  { exact JP. }
  { rewrite Hc1. exact CP. }
  destruct (arr_min_nums (mean_over_folds fr_mean_absolute_error) results Nr)
    as (mn & Min & (fmin & Imin & Emin) & Hmin).
  destruct (argfirst_nums (mean_over_folds fr_mean_absolute_error) mn results)
    as (ibest & frs & Arg & Hn & Eb & Hlt).
  { exists fmin. split; [exact Imin | rewrite Emin; reflexivity]. }
  assert (Li : (ibest < List.length models)%nat).
  { rewrite <- Lr. apply nth_error_Some. congruence. }
  destruct (nth_error models ibest) as [best |] eqn:Nb;
    [| apply nth_error_None in Nb; lia].
  destruct (nth_error model_names ibest) as [best_name |] eqn:Nn;
    [| apply nth_error_None in Nn; lia].
  exists pa, w1, ibest, best, (mean_over_folds fr_mean_absolute_error frs).
  eexists.
  split; [exact Run |].
  split.
  - unfold determine_best_model, bind, lift. rewrite GX, Gy, Run, Save.
    subst pa. cbn [mean_abs_err]. rewrite Min, Arg.
    unfold py_index. rewrite Nb, Nn, JM.
    unfold print, model_fit, model_state, write_file, ret. cbn [heap can_create].
    rewrite Hc2, Hc1, CM. reflexivity.
  - cbn [heap fit_calls files].
    split; [exact Nb |].
    split; [subst pa; cbn [mean_abs_err]; now rewrite nth_error_map, Hn |].
    split; [| split; [| split; [| split]]].
    + intros i u Hi. subst pa. cbn [mean_abs_err] in Hi. rewrite nth_error_map in Hi.
      destruct (nth_error results i) as [fi |] eqn:Ei; [| discriminate].
      simpl in Hi. injection Hi as <-. rewrite Eb. apply Hmin.
      eapply nth_error_In. exact Ei.
    + intros i u Hlti Hi. subst pa. cbn [mean_abs_err] in Hi. rewrite nth_error_map in Hi.
      destruct (nth_error results i) as [fi |] eqn:Ei; [| discriminate].
      simpl in Hi. injection Hi as <-. rewrite Eb.
      assert (Hle : mn <= mean_over_folds fr_mean_absolute_error fi).
      { apply Hmin. eapply nth_error_In. exact Ei. }
      pose proof (Hlt i fi Hlti Ei) as Hne.
      apply Qle_lteq in Hle. destruct Hle as [Hl | He]; [exact Hl |].
      exfalso. apply Hne. symmetry. exact He.
    + intro a. rewrite Hh2. rewrite Nat.eqb_sym. reflexivity.
    + rewrite Hf2. reflexivity.
    + rewrite Hh2, Nat.eqb_refl, Hfi2, Hfi1, <- app_assoc. reflexivity.
Qed.

End CrossValidation.

(** ** The selector on concrete inputs and the claims about it *)

Lemma last_r_squared_nonempty `{Library} (num_folds : Z) (frs : list FoldResult) (d : FoldResult) :
  frs <> [] ->
  last_r_squared num_folds frs = Scalar (fr_r_squared (last frs d)).
Proof.
  intro N. unfold last_r_squared.
  induction frs as [| a frs IH]; [congruence |].
  destruct frs as [| b frs]; [reflexivity |].
  change (last (map (fun r => Scalar (fr_r_squared r)) (a :: b :: frs))
               (Array (Arr.zeros (Z.to_nat num_folds))))
    with (last (map (fun r => Scalar (fr_r_squared r)) (b :: frs))
               (Array (Arr.zeros (Z.to_nat num_folds)))).
  change (last (a :: b :: frs) d) with (last (b :: frs) d).
  apply IH. discriminate.
Qed.


(** C1.  On six rows and two folds, the mean-absolute-percentage-error entry
    and the R squared entry of the first candidate are both the R squared of
    the last fold; neither is the mean of its own fold values. *)
Theorem aggregate_mape_and_r2_from_last_fold :
  exists pa mape r2,
    KFold.split {| KFold.n_splits := 2; KFold.shuffle := true;
                   KFold.random_state := kfold_random_state |} 6 = Ok splits_ex /\
    map fr_mean_absolute_percentage_error fold_results_ex = [547 # 990; 154 # 405] /\
    map fr_r_squared fold_results_ex = [Num (-200 # 13); Num (-25 # 38)] /\
    cv_ex = Ok pa /\
    nth_error (mean_abs_percentage_err pa) 0 = Some (Num mape) /\
    nth_error (rsq pa) 0 = Some (Num r2) /\
    mape == -25 # 38 /\
    ~ mape == mean_over_folds fr_mean_absolute_percentage_error fold_results_ex /\
    r2 == -25 # 38 /\
    r_squared_over_folds fold_results_ex = Num (-7925 # 988) /\
    ~ r2 == -7925 # 988.
Proof.
  eexists. eexists. eexists.
  split; [reflexivity |]. split; [reflexivity |]. split; [reflexivity |].
  split; [vm_compute; reflexivity |].
  split; [reflexivity |]. split; [reflexivity |].
  split; [reflexivity |].
  split; [intro E; vm_compute in E; discriminate E |].
  split; [reflexivity |]. split; [reflexivity |].
  intro E. vm_compute in E. discriminate E.
Qed.




(** C5, as stated, fails: the function has no seed argument; the shuffle is
    seeded with the constant [kfold_random_state].  A caller who wants the
    folds of seed 2 gets those of seed 1. *)
Lemma fold_seed_not_caller_supplied_cex :
  exists P1 P2,
    KFold.split {| KFold.n_splits := 2; KFold.shuffle := true; KFold.random_state := 1 |} 6
      = Ok P1 /\
    KFold.split {| KFold.n_splits := 2; KFold.shuffle := true; KFold.random_state := 2 |} 6
      = Ok P2 /\
    P1 <> P2 /\
    fit_calls (snd (cross_validate X_ex y_ex models_ex model_names_ex 2 world_ex))
      = cv_fit_calls X_ex y_ex P1 (combine model_names_ex models_ex) /\
    fit_calls (snd (cross_validate X_ex y_ex models_ex model_names_ex 2 world_ex))
      <> cv_fit_calls X_ex y_ex P2 (combine model_names_ex models_ex).
Proof.
  eexists. eexists.
  split; [reflexivity |]. split; [reflexivity |].
  split; [discriminate |].
  split; [vm_compute; reflexivity | vm_compute; discriminate].
Qed.

(** C5, amended.  The partition is that of a shuffle seeded with the fixed
    constant 1; every candidate is trained on the same folds of it; and two
    runs on the same tables with the same fold count, started with the same
    estimator states, make the same [fit] calls and yield the same
    performance arrays. *)
Theorem folds_fixed_seed_same_for_all_candidates `{Library} (X y : DataFrame)
  (models : list nat) (model_names : list string) (num_folds : Z) (w1 w2 : World) :
  (2 <= num_folds)%Z -> (num_folds <= Z.of_nat (nrows X))%Z ->
  (forall a, heap w1 a = heap w2 a) ->
  exists P pa w1' w2',
    KFold.split {| KFold.n_splits := num_folds; KFold.shuffle := true;
                   KFold.random_state := 1 |} (nrows X) = Ok P /\
    cross_validate X y models model_names num_folds w1 = (Ok pa, w1') /\
    cross_validate X y models model_names num_folds w2 = (Ok pa, w2') /\
    fit_calls w1' = fit_calls w1 ++ cv_fit_calls X y P (combine model_names models) /\
    fit_calls w2' = fit_calls w2 ++ cv_fit_calls X y P (combine model_names models) /\
    cv_fold_results (heap w1) X y P (combine model_names models)
      = cv_fold_results (heap w2) X y P (combine model_names models) /\
    cv_fit_calls X y P (combine model_names models)
      = flat_map (fun nm => map (fun ix => (snd nm, iloc X (fst ix),
                                            Ravelled (ravel_values (iloc y (fst ix))))) P)
                 (combine model_names models).
Proof.
  intros K2 Kn Eh.
  destruct (cross_validate_spec X y models model_names num_folds w1 K2 Kn)
    as (P & w1' & HP & LP & Run1 & _ & Hf1 & _).
  destruct (cross_validate_spec X y models model_names num_folds w2 K2 Kn)
    as (P' & w2' & HP' & _ & Run2 & _ & Hf2 & _).
  rewrite HP in HP'. injection HP' as <-.
  cbv zeta in Run1, Run2.
  rewrite <- (cv_fold_results_ext X y P (combine model_names models) (heap w1) (heap w2) Eh)
    in Run2.
  eexists P, _, w1', w2'.
  split; [exact HP |]. split; [exact Run1 |]. split; [exact Run2 |].
  split; [exact Hf1 |]. split; [exact Hf2 |].
  split; [now apply cv_fold_results_ext | reflexivity].
Qed.

Lemma folds_fixed_seed_same_for_all_candidates_witness :
  exists P pa w1' w2',
    KFold.split {| KFold.n_splits := 2; KFold.shuffle := true;
                   KFold.random_state := 1 |} (nrows X_ex) = Ok P /\
    cross_validate X_ex y_ex models_ex model_names_ex 2 world_ex = (Ok pa, w1') /\
    cross_validate X_ex y_ex models_ex model_names_ex 2 world_ex = (Ok pa, w2') /\
    fit_calls w1' = fit_calls world_ex ++ cv_fit_calls X_ex y_ex P (combine model_names_ex models_ex) /\
    fit_calls w2' = fit_calls world_ex ++ cv_fit_calls X_ex y_ex P (combine model_names_ex models_ex) /\
    cv_fold_results (heap world_ex) X_ex y_ex P (combine model_names_ex models_ex)
      = cv_fold_results (heap world_ex) X_ex y_ex P (combine model_names_ex models_ex) /\
    cv_fit_calls X_ex y_ex P (combine model_names_ex models_ex)
      = flat_map (fun nm => map (fun ix => (snd nm, iloc X_ex (fst ix),
                                            Ravelled (ravel_values (iloc y_ex (fst ix))))) P)
                 (combine model_names_ex models_ex).
Proof.
  apply (@folds_fixed_seed_same_for_all_candidates Toy.library X_ex y_ex models_ex
           model_names_ex 2 world_ex world_ex).
  - lia.
  - simpl. lia.
  - intro a. reflexivity.
Defined.

(** What [assess_model_feature_importances] does when [out_path] names a
    path that does not exist. *)
Lemma assess_skips_missing_out_path `{Library} (model : nat) (X y : DataFrame)
  (feature_columns : list string) (display : option (list string))
  (dir importances_fn : string)
  (figure_out_path : option string) (figure_fn : string) (n_repeats : nat) (seed : Z)
  (df : list (string * list Q)) (w : World) :
  importances_df (permutation_importance (heap w model) X y n_repeats seed) 0
    feature_columns [] = Ok df ->
  (forall labels, boxplot df labels = Ok tt) ->
  path_exists w dir = false ->
  exists w',
    assess_model_feature_importances model X y feature_columns display (Some dir)
      importances_fn figure_out_path figure_fn n_repeats seed w
    = (Ok (permutation_importance (heap w model) X y n_repeats seed), w') /\
    files w' = files w /\
    stdout w' = stdout w ++ [MsgOutPathInvalid] /\
    heap w' = heap w.
Proof.
  intros Hdf Hb Hp.
  unfold assess_model_feature_importances, bind, lift, model_state, os_path_exists.
  rewrite Hdf, Hb, Hp. unfold print, ret.
  eexists. split; [reflexivity |]. repeat split; reflexivity.
Qed.

(** C6, as stated, fails: the retrained model is written although no flag
    asks for it; with an output directory in which no file can be created
    the function stops with the error of the write, and with no output path
    at all with a type error, in both cases after the cross-validation and
    without returning its result. *)
Lemma model_persistence_not_gated_cex :
  files (snd (run_ex (Some "out"%string) false))
    = [("out/best_model.joblib"%string,
        Joblib {| Toy.strat := Toy.Constant 14; Toy.fitted := 14 |})] /\
  fst (run_ex (Some "nowhere"%string) false) = Raise FileNotFoundError /\
  fst (run_ex None false) = Raise TypeError.
Proof.
  repeat split; vm_compute; reflexivity.
Qed.

(** C6, amended.  In [determine_best_model] the performance table is
    written exactly when [save_performances] is set and the retrained model
    is always written; in [assess_model_feature_importances] an [out_path]
    that does not exist makes the function skip every write, report it, and
    still return the importances. *)
Theorem persistence_gating `{Library} (data X y : DataFrame)
  (models : list nat) (model_names feature_columns labels : list string)
  (out_path : option string) (best_model_fn : string) (save_performances : bool)
  (performances_fn : string) (num_folds : Z) (mpath ppath : string) (w : World)
  (model : nat) (Xa ya : DataFrame) (display : option (list string))
  (dir importances_fn : string)
  (figure_out_path : option string) (figure_fn : string) (n_repeats : nat) (seed : Z)
  (df : list (string * list Q)) (wa : World) :
  getitem data feature_columns = Ok X ->
  getitem data labels = Ok y ->
  (2 <= num_folds)%Z -> (num_folds <= Z.of_nat (nrows data))%Z ->
  models <> [] ->
  List.length model_names = List.length models ->
  os_path_join out_path best_model_fn = Ok mpath ->
  os_path_join out_path performances_fn = Ok ppath ->
  can_create w mpath = true ->
  (save_performances = true -> can_create w ppath = true) ->
  importances_df (permutation_importance (heap wa model) Xa ya n_repeats seed) 0
    feature_columns [] = Ok df ->
  (forall tick_labels, boxplot df tick_labels = Ok tt) ->
  path_exists wa dir = false ->
  (exists pa w1 best w',
     cross_validate X y models model_names num_folds w = (Ok pa, w1) /\
     determine_best_model data models model_names feature_columns labels out_path
       best_model_fn save_performances performances_fn num_folds w
       = (Ok (best, X, y), w') /\
     files w' = files w
                ++ (if save_performances
                    then [(ppath, PerformancesCsv model_names (mean_abs_err pa) (mean_sq_err pa)
                                    (mean_abs_percentage_err pa) (max_err pa) (rsq pa))]
                    else [])
                ++ [(mpath, Joblib (heap w' best))]) /\
  (exists wa',
     assess_model_feature_importances model Xa ya feature_columns display (Some dir)
       importances_fn figure_out_path figure_fn n_repeats seed wa
     = (Ok (permutation_importance (heap wa model) Xa ya n_repeats seed), wa') /\
     files wa' = files wa /\
     stdout wa' = stdout wa ++ [MsgOutPathInvalid]).
Proof.
  intros GX Gy K2 Kn NM LN JM JP CM CP Hdf Hb Hp. split.
  - destruct (determine_best_model_spec data X y models model_names feature_columns labels
                out_path best_model_fn save_performances performances_fn num_folds mpath ppath w
                GX Gy K2 Kn NM LN JM JP CM CP)
      as (pa & w1 & ibest & best & v & w' & Run & Dbm & _ & _ & _ & _ & Hh & _ & Hfi).
    exists pa, w1, best, w'.
    split; [exact Run |]. split; [exact Dbm |].
    rewrite Hfi, Hh, Nat.eqb_refl. reflexivity.
  - destruct (assess_skips_missing_out_path model Xa ya feature_columns display dir
                importances_fn figure_out_path figure_fn n_repeats seed df wa Hdf Hb Hp)
      as (wa' & Run & Hfi & Hs & _).
    exists wa'. repeat split; assumption.
Qed.

Lemma persistence_gating_witness :
  (exists pa w1 best w',
     cross_validate X_ex y_ex models_ex model_names_ex 2 world_ex = (Ok pa, w1) /\
     run_ex (Some "out"%string) false = (Ok (best, X_ex, y_ex), w') /\
     files w' = files world_ex ++ [] ++ [("out/best_model.joblib"%string, Joblib (heap w' best))]) /\
  (exists wa',
     assess_model_feature_importances 0 X_ex y_ex ["pdd"%string] None (Some "nowhere"%string)
       "model_feature_importances.csv" None "model_feature_importances.png" 3 42 world_ex
     = (Ok (permutation_importance (heap world_ex 0%nat) X_ex y_ex 3 42), wa') /\
     files wa' = files world_ex /\
     stdout wa' = stdout world_ex ++ [MsgOutPathInvalid]).
Proof.
  apply (@persistence_gating Toy.library data_ex X_ex y_ex models_ex model_names_ex
           ["pdd"%string] ["sla"%string] (Some "out"%string) "best_model.joblib" false
           "model_performances.csv" 2 "out/best_model.joblib" "out/model_performances.csv"
           world_ex 0%nat X_ex y_ex None "nowhere" "model_feature_importances.csv" None
           "model_feature_importances.png" 3%nat 42%Z [("pdd"%string, [0; 0; 0])] world_ex).
  - reflexivity.
  - reflexivity.
  - lia.
  - simpl. lia.
  - discriminate.
  - reflexivity.
  - reflexivity.
  - reflexivity.
  - reflexivity.
  - intro E. discriminate E.
  - reflexivity.
  - intro tick_labels. reflexivity.
  - reflexivity.
Defined.

(** * Further properties of the module *)

(** ** [calculate_sla_bounds] beyond the table entry *)

Lemma clip_below_zero (x : Q) : x < 0 -> Np.clip x 0 1 == 0.
Proof.
  intro L. unfold Np.clip.
  destruct (Qle_bool 0 x) eqn:E0; [apply Qle_bool_iff in E0; lra |].
  reflexivity.
Qed.

Lemma lerp_at_zero (s : list Q) (q : Q) : q == 0 -> Np.lerp_sorted s q == nth 0 s 0.
Proof.
  intro E.
  assert (V : q * inject_Z (Z.of_nat (List.length s - 1)) == 0) by (rewrite E; ring).
  unfold Np.lerp_sorted.
  rewrite (Qfloor_comp _ _ V), V.
  change (Qfloor 0) with 0%Z. change (Z.to_nat 0) with 0%nat. change (inject_Z 0) with 0.
  ring.
Qed.

Lemma sorted_first_le_minimum (x : Q) (l : list Q) :
  nth 0 (Np.sort (x :: l)) 0 <= Np.minimum x l.
Proof.
  destruct (minimum_spec l x) as [I _].
  apply (Permutation_in _ (sort_perm (x :: l))) in I.
  destruct (In_nth _ _ 0 I) as [i [Hi E]]. rewrite <- E.
  apply sorted_nth_le; [apply sort_sorted | lia].
Qed.

Lemma sort_nonempty (x : Q) (l : list Q) : Np.sort (x :: l) <> [].
Proof.
  intro E. pose proof (sort_length (x :: l)) as L. rewrite E in L. discriminate.
Qed.

(** X1.  For every statistics row with numeric entries (a NaN entry is
    outside [stats_row]), consistent with the elevation field or not, the
    two bounds are ordered and lie between the smallest and the largest
    valid elevation. *)
Theorem sla_bounds_lower_le_upper (st : stats_row) (dem mask : raster) (dx : Q) :
  Np.valid dem <> [] -> ~ dx == 0 ->
  exists u l mn mx,
    calculate_sla_bounds st dem mask dx = Ok (ELA_from_AAR_m st, Num u, Num l) /\
    l <= u /\
    Np.nanmin dem = Num mn /\ Np.nanmax dem = Num mx /\
    mn <= l /\ u <= mx.
Proof.
  intros Hv Hdx.
  destruct (Np.valid dem) as [| x r] eqn:V; [congruence |].
  destruct (@calculate_sla_bounds_ok st dem mask dx x r V Hdx) as (du & dd & _ & Du & _ & Dd & R).
  set (s := Np.sort (x :: r)) in *.
  assert (Ss : StronglySorted Qle s) by apply sort_sorted.
  assert (Ns : s <> []) by apply sort_nonempty.
  pose proof (clip_range (sla_percentile st + du)) as [U0 U1].
  pose proof (clip_range (sla_percentile st - dd)) as [L0 L1].
  fold (upper_sla_percentile st du) in U0, U1.
  fold (lower_sla_percentile st dd) in L0, L1.
  assert (LU : lower_sla_percentile st dd <= upper_sla_percentile st du)
    by (apply clip_monotone; lra).
  pose proof (percent_roundtrip (upper_sla_percentile st du)) as Ru.
  pose proof (percent_roundtrip (lower_sla_percentile st dd)) as Rl.
  eexists. eexists. exists (Np.minimum x r), (Np.maximum x r).
  split; [exact R |].
  split; [apply lerp_monotone; try assumption; lra |].
  split; [unfold Np.nanmin; now rewrite V |].
  split; [unfold Np.nanmax; now rewrite V |].
  split.
  - apply Qle_trans with (nth 0 s 0); [apply sorted_first_ge_minimum |].
    apply lerp_in_range; try assumption; lra.
  - apply Qle_trans with (nth (List.length s - 1) s 0); [| apply sorted_last_le_maximum].
    apply lerp_in_range; try assumption; lra.
Qed.

Lemma sla_bounds_lower_le_upper_witness :
  exists u l mn mx,
    calculate_sla_bounds {| AAR := 1 # 2; ELA_from_AAR_m := 1000 |} dem_ex mask_mixed_ex 30
      = Ok (1000, Num u, Num l) /\
    l <= u /\
    Np.nanmin dem_ex = Num mn /\ Np.nanmax dem_ex = Num mx /\
    mn <= l /\ u <= mx.
Proof.
  apply (sla_bounds_lower_le_upper
           {| AAR := 1 # 2; ELA_from_AAR_m := 1000 |} dem_ex mask_mixed_ex 30).
  - discriminate.
  - intro E. discriminate E.
Defined.

(** X2.  When the percentile minus [delta_down] falls below zero, the lower
    percentile is clamped to zero and the lower bound is the smallest valid
    elevation. *)
Theorem lower_bound_clamped_to_minimum (st : stats_row) (dem mask : raster) (dx dd : Q) :
  delta_down st dem mask dx = Ok dd ->
  sla_percentile st - dd < 0 ->
  lower_sla_percentile st dd == 0 /\
  exists u l mn,
    calculate_sla_bounds st dem mask dx = Ok (ELA_from_AAR_m st, u, Num l) /\
    Np.nanmin dem = Num mn /\ l == mn.
Proof.
  intros Ed Hlt.
  assert (NZ : ~ total_area dem dx == 0).
  { unfold delta_down, py_div in Ed. intro Z. apply Qeq_bool_iff in Z.
    rewrite Z in Ed. discriminate. }
  assert (Hv : Np.valid dem <> []).
  { intro V. apply NZ. unfold total_area. rewrite npx_valid, V. simpl. ring. }
  assert (Hdx : ~ dx == 0).
  { intro D. apply NZ. unfold total_area. rewrite D. simpl. ring. }
  destruct (Np.valid dem) as [| x r] eqn:V; [congruence |].
  destruct (@calculate_sla_bounds_ok st dem mask dx x r V Hdx) as (du & dd' & _ & _ & Ed' & _ & R).
  rewrite Ed in Ed'. injection Ed' as <-.
  assert (C : lower_sla_percentile st dd == 0) by (apply clip_below_zero; exact Hlt).
  split; [exact C |].
  eexists. eexists. exists (Np.minimum x r).
  split; [exact R |]. split; [unfold Np.nanmin; now rewrite V |].
  assert (Q0 : lower_sla_percentile st dd * 100 / 100 == 0)
    by (rewrite percent_roundtrip; exact C).
  rewrite (lerp_at_zero _ _ Q0).
  apply Qle_antisym; [apply sorted_first_le_minimum | apply sorted_first_ge_minimum].
Qed.

Lemma lower_bound_clamped_to_minimum_witness :
  lower_sla_percentile {| AAR := 1; ELA_from_AAR_m := 25 |} (900 # 3600) == 0 /\
  exists u l mn,
    calculate_sla_bounds {| AAR := 1; ELA_from_AAR_m := 25 |} dem_ex mask_mixed_ex 30
      = Ok (25, u, Num l) /\
    Np.nanmin dem_ex = Num mn /\ l == mn.
Proof.
  apply (lower_bound_clamped_to_minimum
           {| AAR := 1; ELA_from_AAR_m := 25 |} dem_ex mask_mixed_ex 30 (900 # 3600)).
  - reflexivity.
  - reflexivity.
Defined.

(** X3.  The two kinds of misclassified cells are disjoint sets of cells
    with a valid elevation: the number of snow-free cells above the
    threshold plus the number of snow-covered cells below it is at most the
    number of valid elevation cells, for every elevation raster, snow mask
    and threshold. *)
Theorem misclassified_counts_le_npx (sla : Q) :
  forall dem mask : raster,
    (Np.count_true (snow_free_above_sla sla dem mask)
     + Np.count_true (snow_covered_below_sla sla dem mask) <= npx dem)%nat.
Proof.
  unfold snow_free_above_sla, snow_covered_below_sla, npx, Np.count_true.
  induction dem as [| e dem IH]; intros [| m mask]; simpl; try lia.
  specialize (IH mask).
  destruct e as [q |]; simpl; [| exact IH].
  unfold Np.Qltb.
  destruct (Qle_bool q sla) eqn:A, (Qle_bool sla q) eqn:B; simpl.
  - lia.
  - destruct (Np.eqv m 1); simpl; lia.
  - destruct (Np.eqv m 0); simpl; lia.
  - apply Qle_bool_false_lt in A. apply Qle_bool_false_lt in B. lra.
Qed.

(** ** [convert_wgs_to_utm] *)

Lemma utm_zone_range (lon : Q) : (1 <= utm_zone lon <= 60)%Z.
Proof.
  unfold utm_zone. pose proof (Z.mod_pos_bound (Qfloor ((lon + 180) / 6)) 60). lia.
Qed.

Lemma band_ok_all (z : Z) : (1 <= z <= 60)%Z -> band_ok z = true.
Proof.
  intro R.
  assert (A : forallb band_ok (map Z.of_nat (seq 1 60)) = true) by (vm_compute; reflexivity).
  rewrite forallb_forall in A. apply A.
  apply in_map_iff. exists (Z.to_nat z). split; [lia |].
  apply in_seq. lia.
Qed.

(** X5.  The code is "326" (north, latitude at least zero) or "327" (south)
    followed by the zone number in two digits, and the zone number is
    between 1 and 60; so the code always has five characters. *)
Theorem utm_code_format (lon lat : Q) :
  (1 <= utm_zone lon <= 60)%Z /\
  convert_wgs_to_utm lon lat
  = ((if Qle_bool 0 lat then "326" else "327")
     ++ String (digit_char (utm_zone lon / 10))
          (String (digit_char (utm_zone lon mod 10)) ""))%string /\
  String.length (convert_wgs_to_utm lon lat) = 5%nat.
Proof.
  pose proof (utm_zone_range lon) as R.
  pose proof (band_ok_all _ R) as B. unfold band_ok in B. apply String.eqb_eq in B.
  assert (E : convert_wgs_to_utm lon lat
              = ((if Qle_bool 0 lat then "326" else "327")
                 ++ String (digit_char (utm_zone lon / 10))
                      (String (digit_char (utm_zone lon mod 10)) ""))%string).
  { unfold convert_wgs_to_utm. cbv zeta. rewrite B. now destruct (Qle_bool 0 lat). }
  split; [exact R |]. split; [exact E |].
  rewrite E. now destruct (Qle_bool 0 lat).
Qed.

(** X6.  For a whole-degree longitude in [-180, 180) the zone of the code is
    the six-degree strip that contains the longitude. *)
Theorem utm_zone_contains_longitude (k : Z) :
  (-180 <= k < 180)%Z ->
  (-180 + 6 * (utm_zone (inject_Z k) - 1) <= k < -180 + 6 * utm_zone (inject_Z k))%Z.
Proof.
  intro R.
  assert (E : (inject_Z k + 180) / 6 == (k + 180) # 6).
  { rewrite (Qmake_Qdiv (k + 180) 6), inject_Z_plus. reflexivity. }
  assert (F : Qfloor ((inject_Z k + 180) / 6) = ((k + 180) / 6)%Z).
  { rewrite (Qfloor_comp _ _ E). reflexivity. }
  unfold utm_zone. rewrite F.
  pose proof (Z.div_mod (k + 180) 6 ltac:(lia)) as D.
  pose proof (Z.mod_pos_bound (k + 180) 6 ltac:(lia)) as B.
  assert (Q0 : (0 <= (k + 180) / 6 < 60)%Z) by lia.
  rewrite Z.mod_small by exact Q0. lia.
Qed.

Lemma utm_zone_contains_longitude_witness :
  (-180 + 6 * (utm_zone (inject_Z (-150)) - 1) <= -150
   < -180 + 6 * utm_zone (inject_Z (-150)))%Z.
Proof.
  apply (utm_zone_contains_longitude (-150)).
  lia.
Defined.

(** ** [determine_subregion_name_color] *)




(** A numeric first argument that is neither 1 nor 2 always ends in a
    [TypeError], whatever the second argument. *)
Theorem subregion_unknown_region_raises (x : npfloat) (o2 : pyarg) :
  Np.eqv x 1 = false -> Np.eqv x 2 = false ->
  determine_subregion_name_color (PyNum x) o2 = Raise TypeError.
Proof.
  intros E1 E2. unfold determine_subregion_name_color, arg_eq. rewrite E1, E2. reflexivity.
Qed.

Lemma subregion_unknown_region_raises_witness :
  determine_subregion_name_color (PyNum (Num 19)) (PyNum (Num 2)) = Raise TypeError.
Proof.
  apply (subregion_unknown_region_raises (Num 19) (PyNum (Num 2))).
  - reflexivity.
  - reflexivity.
Defined.

Lemma subregion_ok_inv (a1 a2 : Q) (n c : string) :
  determine_subregion_name_color (PyNum (Num a1)) (PyNum (Num a2)) = Ok (n, c) ->
  exists k1 k2 : Z,
    a1 == inject_Z k1 /\ a2 == inject_Z k2 /\
    determine_subregion_name_color (PyNum (Num (inject_Z k1))) (PyNum (Num (inject_Z k2)))
      = Ok (n, c) /\
    In (k1, k2) [(1, 1); (1, 2); (1, 3); (1, 4); (1, 5); (1, 6);
                 (2, 1); (2, 2); (2, 3); (2, 4); (2, 5)]%Z.
Proof.
  unfold determine_subregion_name_color, arg_eq, Np.eqv.
  destruct (Qeq_bool a1 1) eqn:A1; [apply Qeq_bool_iff in A1 |].
  - destruct (Qeq_bool a2 1) eqn:B1; [apply Qeq_bool_iff in B1 |].
    { intro E. exists 1%Z, 1%Z. simpl in *. injection E as <- <-. tauto. }
    destruct (Qeq_bool a2 2) eqn:B2; [apply Qeq_bool_iff in B2 |].
    { intro E. exists 1%Z, 2%Z. simpl in *. injection E as <- <-. tauto. }
    destruct (Qeq_bool a2 3) eqn:B3; [apply Qeq_bool_iff in B3 |].
    { intro E. exists 1%Z, 3%Z. simpl in *. injection E as <- <-. tauto. }
    destruct (Qeq_bool a2 4) eqn:B4; [apply Qeq_bool_iff in B4 |].
    { intro E. exists 1%Z, 4%Z. simpl in *. injection E as <- <-. tauto. }
    destruct (Qeq_bool a2 5) eqn:B5; [apply Qeq_bool_iff in B5 |].
    { intro E. exists 1%Z, 5%Z. simpl in *. injection E as <- <-. tauto. }
    destruct (Qeq_bool a2 6) eqn:B6; [apply Qeq_bool_iff in B6 |].
    { intro E. exists 1%Z, 6%Z. simpl in *. injection E as <- <-. tauto. }
    simpl. destruct (Qeq_bool a1 2); simpl; intro E; discriminate E.
  - simpl. destruct (Qeq_bool a1 2) eqn:A2; [apply Qeq_bool_iff in A2 | simpl; intro E; discriminate E].
    destruct (Qeq_bool a2 1) eqn:B1; [apply Qeq_bool_iff in B1 |].
    { intro E. exists 2%Z, 1%Z. simpl in *. injection E as <- <-. tauto. }
    destruct (Qeq_bool a2 2) eqn:B2; [apply Qeq_bool_iff in B2 |].
    { intro E. exists 2%Z, 2%Z. simpl in *. injection E as <- <-. tauto. }
    destruct (Qeq_bool a2 3) eqn:B3; [apply Qeq_bool_iff in B3 |].
    { intro E. exists 2%Z, 3%Z. simpl in *. injection E as <- <-. tauto. }
    destruct (Qeq_bool a2 4) eqn:B4; [apply Qeq_bool_iff in B4 |].
    { intro E. exists 2%Z, 4%Z. simpl in *. injection E as <- <-. tauto. }
    destruct (Qeq_bool a2 5) eqn:B5; [apply Qeq_bool_iff in B5 |].
    { intro E. exists 2%Z, 5%Z. simpl in *. injection E as <- <-. tauto. }
    simpl. intro E; discriminate E.
Qed.

(** X9.  A name, and likewise a colour, stands for one subregion: two numeric
    pairs that get the same name or the same colour are the same pair. *)
Theorem subregion_name_and_color_identify_region (a1 a2 b1 b2 : Q) (n c n' c' : string) :
  determine_subregion_name_color (PyNum (Num a1)) (PyNum (Num a2)) = Ok (n, c) ->
  determine_subregion_name_color (PyNum (Num b1)) (PyNum (Num b2)) = Ok (n', c') ->
  n = n' \/ c = c' ->
  a1 == b1 /\ a2 == b2.
Proof.
  intros HA HB Hnc.
  destruct (subregion_ok_inv _ _ _ _ HA) as (k1 & k2 & A1 & A2 & RA & IA).
  destruct (subregion_ok_inv _ _ _ _ HB) as (l1 & l2 & B1 & B2 & RB & IB).
  rewrite A1, A2, B1, B2.
  assert (K : k1 = l1 /\ k2 = l2).
  { simpl in IA, IB.
    repeat (destruct IA as [IA | IA]; [injection IA as <- <- |]); try contradiction;
      repeat (destruct IB as [IB | IB]; [injection IB as <- <- |]); try contradiction;
      vm_compute in RA, RB; injection RA as <- <-; injection RB as <- <-;
      first [ split; reflexivity | destruct Hnc as [E | E]; discriminate E ]. }
  destruct K as [-> ->]. split; reflexivity.
Qed.

Lemma subregion_name_and_color_identify_region_witness :
  2 # 2 == 1 /\ 8 # 2 == 4.
Proof.
  apply (subregion_name_and_color_identify_region (2 # 2) (8 # 2) 1 4
           "W. Chugach Mtns." "#264708" "W. Chugach Mtns." "#264708").
  - reflexivity.
  - reflexivity.
  - left. reflexivity.
Defined.

(** ** [calculate_hypsometric_index] *)

Lemma forallb_isnan_valid (a : raster) : forallb Np.isnan a = true <-> Np.valid a = [].
Proof.
  induction a as [| [q |] a IH]; simpl.
  - tauto.
  - split; discriminate.
  - exact IH.
Qed.

Lemma median_sorted_range (s : list Q) :
  StronglySorted Qle s -> s <> [] ->
  nth 0 s 0 <= Hyps.median_sorted s /\
  Hyps.median_sorted s <= nth (List.length s - 1) s 0.
Proof.
  intros Ss Ns. unfold Hyps.median_sorted.
  assert (Hn : (0 < List.length s)%nat) by (destruct s; [congruence | simpl; lia]).
  pose proof (Nat.div_lt (List.length s) 2 Hn ltac:(lia)) as Hd.
  assert (R : forall i, (i < List.length s)%nat ->
                nth 0 s 0 <= nth i s 0 /\ nth i s 0 <= nth (List.length s - 1) s 0).
  { intros i Hi. split; apply sorted_nth_le; try assumption; lia. }
  destruct (Nat.even (List.length s)).
  - destruct (R (List.length s / 2 - 1)%nat ltac:(lia)) as [A1 A2].
    destruct (R (List.length s / 2)%nat Hd) as [B1 B2].
    split.
    + apply Qle_shift_div_l; lra.
    + apply Qle_shift_div_r; lra.
  - exact (R _ Hd).
Qed.

(** The three statistics of an array with at least one valid cell. *)
Lemma elevation_statistics (a : raster) (x : Q) (l : list Q) :
  Np.valid a = x :: l ->
  exists md,
    Np.nanmax a = Num (Np.maximum x l) /\
    Np.nanmin a = Num (Np.minimum x l) /\
    Hyps.nanmedian a = Num md /\
    Np.minimum x l <= md /\ md <= Np.maximum x l.
Proof.
  intro V. exists (Hyps.median_sorted (Np.sort (x :: l))).
  unfold Np.nanmax, Np.nanmin, Hyps.nanmedian. rewrite V.
  repeat split.
  - destruct (median_sorted_range (Np.sort (x :: l)) (sort_sorted _) (sort_nonempty x l))
      as [L _].
    eapply Qle_trans; [apply sorted_first_ge_minimum | exact L].
  - destruct (median_sorted_range (Np.sort (x :: l)) (sort_sorted _) (sort_nonempty x l))
      as [_ U].
    eapply Qle_trans; [exact U | apply sorted_last_le_maximum].
Qed.

(** The index computed from ordered statistics [mn <= md <= mx], case by
    case. *)
Lemma index_cases (mx mn md : Q) :
  mn <= md -> md <= mx ->
  let hi := Hyps.fold_below_one (Hyps.ratio (Num mx) (Num mn) (Num md)) in
  (md - mn == 0 /\ mx - md == 0 /\ hi = Hyps.XNaN) \/
  (md - mn == 0 /\ 0 < mx - md /\ hi = Hyps.Inf true) \/
  (0 < md - mn /\ 0 < mx - md /\ mx - md < md - mn /\
   exists q, hi = Hyps.Fin q /\ q < -1 /\ q == - (md - mn) / (mx - md)) \/
  (0 < md - mn /\ (mx - md == 0 \/ md - mn <= mx - md) /\
   exists q, hi = Hyps.Fin q /\ q == (mx - md) / (md - mn) /\ (q == 0 \/ 1 <= q)).
Proof.
  intros L U. cbv zeta. unfold Hyps.ratio, Hyps.np_div.
  destruct (Qeq_bool (md - mn) 0) eqn:D.
  - apply Qeq_bool_iff in D. destruct (Qeq_bool (mx - md) 0) eqn:N.
    + apply Qeq_bool_iff in N. left. repeat split; assumption.
    + right. left.
      assert (P : 0 < mx - md).
      { destruct (Qlt_le_dec 0 (mx - md)) as [P | P]; [exact P |].
        assert (E : mx - md == 0) by lra. apply Qeq_bool_iff in E. congruence. }
      split; [exact D |]. split; [exact P |].
      assert (B : Np.Qltb 0 (mx - md) = true).
      { unfold Np.Qltb. destruct (Qle_bool (mx - md) 0) eqn:B; [| reflexivity].
        apply Qle_bool_iff in B. lra. }
      rewrite B. reflexivity.
  - assert (Dp : 0 < md - mn).
    { destruct (Qlt_le_dec 0 (md - mn)) as [P | P]; [exact P |].
      assert (E : md - mn == 0) by lra. apply Qeq_bool_iff in E. congruence. }
    set (r := (mx - md) / (md - mn)).
    assert (R0 : 0 <= r) by (apply div_nonneg; lra).
    right. right. unfold Hyps.fold_below_one, Hyps.xgt, Hyps.xlt, Np.Qltb. fold r.
    destruct (Qle_bool r 0) eqn:B0; simpl.
    + apply Qle_bool_iff in B0. right.
      assert (Er : r == 0) by lra.
      split; [exact Dp |]. split.
      * left.
        assert (E : mx - md == r * (md - mn)) by (unfold r; field; lra).
        rewrite E, Er. ring.
      * exists r. repeat split; try reflexivity. now left.
    + apply Qle_bool_false_lt in B0. destruct (Qle_bool 1 r) eqn:B1; simpl.
      * apply Qle_bool_iff in B1. right.
        split; [exact Dp |]. split.
        -- right.
           assert (E : mx - md == r * (md - mn)) by (unfold r; field; lra).
           rewrite E. nra.
        -- exists r. repeat split; try reflexivity. now right.
      * apply Qle_bool_false_lt in B1. left.
        assert (E : mx - md == r * (md - mn)) by (unfold r; field; lra).
        assert (Np : 0 < mx - md) by (rewrite E; nra).
        split; [exact Dp |]. split; [exact Np |]. split; [rewrite E; nra |].
        unfold Hyps.np_div.
        assert (NZ : Qeq_bool r 0 = false).
        { destruct (Qeq_bool r 0) eqn:Z; [| reflexivity]. apply Qeq_bool_iff in Z. lra. }
        rewrite NZ. exists (-1 / r). split; [reflexivity |]. split.
        -- apply Qlt_shift_div_r; lra.
        -- unfold r. field. lra.
Qed.

Lemma category_finite (q : Q) : exists c, Hyps.category (Hyps.Fin q) = Some c.
Proof.
  unfold Hyps.category, Hyps.xle, Hyps.xgt, Np.Qltb.
  destruct (Qle_bool q (- (3 # 2))) eqn:A; [eexists; reflexivity |].
  destruct (Qle_bool q (- (6 # 5))) eqn:B; simpl; [eexists; reflexivity |].
  destruct (Qle_bool q (6 # 5)) eqn:C; simpl; [eexists; reflexivity |].
  destruct (Qle_bool q (3 # 2)) eqn:D; simpl; eexists; reflexivity.
Qed.

(** X10.  The 'N/A' pair comes back exactly when no cell carries an elevation:
    every cell is NaN, above 1e38 or at most -9999. *)
Theorem hypsometric_index_not_available_iff (dem : raster) :
  Hyps.calculate_hypsometric_index (Some dem) = Hyps.NotAvailable <->
  Forall (fun e => Np.isnan e = true \/ Np.gt e (10 ^ 38) = true \/ Hyps.le e (-9999) = true)
         dem.
Proof.
  unfold Hyps.calculate_hypsometric_index.
  assert (F : forallb Np.isnan (Hyps.mask_nodata dem) = true <->
              Forall (fun e => Np.isnan e = true \/ Np.gt e (10 ^ 38) = true
                               \/ Hyps.le e (-9999) = true) dem).
  { unfold Hyps.mask_nodata. induction dem as [| e dem IH]; cbn [map forallb].
    - split; [constructor | reflexivity].
    - rewrite andb_true_iff, IH. split.
      + intros [He Hd]. constructor; [| exact Hd].
        destruct (Np.gt e (10 ^ 38)) eqn:G; [auto |].
        destruct (Hyps.le e (-9999)) eqn:Le; [auto |]. left. exact He.
      + intro Hf. inversion Hf as [| ? ? He Hd]; subst. split; [| exact Hd].
        destruct He as [He | [He | He]].
        * destruct (Np.gt e (10 ^ 38) || Hyps.le e (-9999)); [reflexivity | exact He].
        * rewrite He. reflexivity.
        * rewrite He, orb_true_r. reflexivity. }
  rewrite <- F.
  destruct (forallb Np.isnan (Hyps.mask_nodata dem)); split; try reflexivity; try discriminate.
  destruct (Hyps.category _); discriminate.
Qed.

(** X11.  A finite index never lies strictly between -1 and 1, zero apart: a
    ratio below one is replaced by its negative inverse. *)
Theorem hypsometric_index_outside_unit_interval (dem : raster) (q : Q) (c : string) :
  Hyps.calculate_hypsometric_index (Some dem) = Hyps.Index (Hyps.Fin q) c ->
  q < -1 \/ q == 0 \/ 1 <= q.
Proof.
  unfold Hyps.calculate_hypsometric_index.
  destruct (forallb Np.isnan (Hyps.mask_nodata dem)) eqn:A; [discriminate |].
  destruct (Np.valid (Hyps.mask_nodata dem)) as [| x l] eqn:V.
  { apply forallb_isnan_valid in V. congruence. }
  destruct (elevation_statistics _ x l V) as (md & -> & -> & -> & L & U).
  destruct (index_cases _ _ _ L U) as [(_ & _ & E) | [(_ & _ & E) | [(_ & _ & _ & q' & E & Hq & _)
                                     | (_ & _ & q' & E & _ & Hq)]]];
    cbv zeta in E; rewrite E.
  - simpl. discriminate.
  - simpl. intro H. discriminate H.
  - destruct (Hyps.category (Hyps.Fin q')); [| discriminate].
    intro H. injection H as <- _. now left.
  - destruct (Hyps.category (Hyps.Fin q')); [| discriminate].
    intro H. injection H as <- _. right. exact Hq.
Qed.

Lemma hypsometric_index_outside_unit_interval_witness :
  -300 # 60 < -1 \/ -300 # 60 == 0 \/ 1 <= -300 # 60.
Proof.
  apply (hypsometric_index_outside_unit_interval
           [Num 10; Num 80; NaN; Num 90; Num 100] (-300 # 60) "Very top heavy").
  reflexivity.
Defined.

(** X12.  The function stops with [UnboundLocalError] exactly when there are valid
    elevations and they are all equal (a single valid cell, a flat area):
    the index is then 0/0, no comparison holds and no category is
    assigned. *)
Theorem hypsometric_index_flat_raises (dem : raster) :
  Hyps.calculate_hypsometric_index (Some dem) = Hyps.UnboundLocalError <->
  exists mx mn,
    Np.nanmax (Hyps.mask_nodata dem) = Num mx /\
    Np.nanmin (Hyps.mask_nodata dem) = Num mn /\
    mx == mn.
Proof.
  unfold Hyps.calculate_hypsometric_index.
  destruct (Np.valid (Hyps.mask_nodata dem)) as [| x l] eqn:V.
  - pose proof V as A. apply forallb_isnan_valid in A. rewrite A. split; [discriminate |].
    intros (mx & _ & E & _). unfold Np.nanmax in E. rewrite V in E. discriminate.
  - assert (A : forallb Np.isnan (Hyps.mask_nodata dem) = false).
    { destruct (forallb Np.isnan (Hyps.mask_nodata dem)) eqn:A; [| reflexivity].
      apply forallb_isnan_valid in A. congruence. }
    rewrite A.
    destruct (elevation_statistics _ x l V) as (md & Emx & Emn & Emd & L & U).
    rewrite Emx, Emn, Emd.
    destruct (index_cases _ _ _ L U) as [(D & N & E) | [(D & N & E) | [(D & N & _ & q' & E & _)
                                       | (D & N & q' & E & _)]]];
      cbv zeta in E; rewrite E.
    + simpl. split; [| reflexivity].
      intros _. exists (Np.maximum x l), (Np.minimum x l). repeat split. lra.
    + simpl. split; [discriminate |].
      intros (mx & mn & Hx & Hn & Heq). injection Hx as <-. injection Hn as <-. lra.
    + destruct (category_finite q') as [c Hc]. rewrite Hc. split; [discriminate |].
      intros (mx & mn & Hx & Hn & Heq). injection Hx as <-. injection Hn as <-. lra.
    + destruct (category_finite q') as [c Hc]. rewrite Hc. split; [discriminate |].
      intros (mx & mn & Hx & Hn & Heq). injection Hx as <-. injection Hn as <-. lra.
Qed.

Lemma category_inv (q : Q) (c : string) :
  Hyps.category (Hyps.Fin q) = Some c ->
  (c = "Very top heavy"%string /\ q <= - (3 # 2)) \/
  (c = "Top heavy"%string /\ - (3 # 2) < q /\ q <= - (6 # 5)) \/
  (c = "Equidimensional"%string /\ - (6 # 5) < q /\ q <= 6 # 5) \/
  (c = "Bottom heavy"%string /\ 6 # 5 < q /\ q <= 3 # 2) \/
  (c = "Very bottom heavy"%string /\ 3 # 2 < q).
Proof.
  unfold Hyps.category, Hyps.xle, Hyps.xgt, Np.Qltb.
  destruct (Qle_bool q (- (3 # 2))) eqn:A.
  { apply Qle_bool_iff in A. intro E. injection E as <-. left. now split. }
  apply Qle_bool_false_lt in A.
  destruct (Qle_bool q (- (6 # 5))) eqn:B; simpl.
  { apply Qle_bool_iff in B. intro E. injection E as <-. right. left. repeat split; assumption. }
  apply Qle_bool_false_lt in B.
  destruct (Qle_bool q (6 # 5)) eqn:C; simpl.
  { apply Qle_bool_iff in C. intro E. injection E as <-. right. right. left.
    repeat split; assumption. }
  apply Qle_bool_false_lt in C.
  destruct (Qle_bool q (3 # 2)) eqn:D; simpl.
  { apply Qle_bool_iff in D. intro E. injection E as <-. right. right. right. left.
    repeat split; assumption. }
  apply Qle_bool_false_lt in D.
  intro E. injection E as <-. right. right. right. right. now split.
Qed.

(** X13.  A "top heavy" label is given only when the median is nearer to the
    maximum than to the minimum, a "bottom heavy" label only when it is
    nearer to the minimum. *)
Theorem hypsometric_category_sound (dem : raster) (hi : Hyps.xfloat) (c : string)
  (mx mn md : Q) :
  Hyps.calculate_hypsometric_index (Some dem) = Hyps.Index hi c ->
  Np.nanmax (Hyps.mask_nodata dem) = Num mx ->
  Np.nanmin (Hyps.mask_nodata dem) = Num mn ->
  Hyps.nanmedian (Hyps.mask_nodata dem) = Num md ->
  ((c = "Very top heavy"%string \/ c = "Top heavy"%string) -> mx - md < md - mn) /\
  ((c = "Bottom heavy"%string \/ c = "Very bottom heavy"%string) -> md - mn < mx - md).
Proof.
  unfold Hyps.calculate_hypsometric_index.
  destruct (forallb Np.isnan (Hyps.mask_nodata dem)) eqn:A; [discriminate |].
  destruct (Np.valid (Hyps.mask_nodata dem)) as [| x l] eqn:V.
  { apply forallb_isnan_valid in V. congruence. }
  destruct (elevation_statistics _ x l V) as (md' & -> & -> & -> & L & U).
  intros R Hx Hn Hd. injection Hx as Hx. injection Hn as Hn. injection Hd as Hd.
  subst mx mn md. revert R.
  destruct (index_cases _ _ _ L U) as [(D & N & E) | [(D & N & E) | [(D & N & Lt & q & E & Hq & _)
                                     | (D & N & q & E & Eq & Hq)]]];
    cbv zeta in E; rewrite E.
  - simpl. discriminate.
  - simpl. intro R. injection R as <- <-. split.
    + intros [C | C]; discriminate C.
    + intros _. lra.
  - destruct (Hyps.category (Hyps.Fin q)) as [c' |] eqn:Hc; [| discriminate].
    intro R. injection R as <- <-. split; [intros _; exact Lt |].
    destruct (category_inv q c' Hc)
      as [(-> & ?) | [(-> & ? & ?) | [(-> & ? & ?) | [(-> & ? & ?) | (-> & ?)]]]];
      intros [C | C]; try discriminate C; lra.
  - destruct (Hyps.category (Hyps.Fin q)) as [c' |] eqn:Hc; [| discriminate].
    intro R. injection R as <- <-.
    assert (Em : Np.maximum x l == q * (md' - Np.minimum x l) + md')
      by (rewrite Eq; field; lra).
    destruct (category_inv q c' Hc)
      as [(-> & ?) | [(-> & ? & ?) | [(-> & ? & ?) | [(-> & ? & ?) | (-> & ?)]]]];
      (split; intros [C | C]; try discriminate C);
      try (destruct Hq; lra); try nra.
Qed.

Lemma hypsometric_category_sound_witness :
  (("Very top heavy" = "Very top heavy" \/ "Very top heavy" = "Top heavy")%string
   -> 100 - (170 # 2) < (170 # 2) - 10) /\
  (("Very top heavy" = "Bottom heavy" \/ "Very top heavy" = "Very bottom heavy")%string
   -> (170 # 2) - 10 < 100 - (170 # 2)).
Proof.
  apply (hypsometric_category_sound [Num 10; Num 80; NaN; Num 90; Num 100]
           (Hyps.Fin (-300 # 60)) "Very top heavy" 100 10 (170 # 2)).
  - reflexivity.
  - reflexivity.
  - reflexivity.
  - reflexivity.
Defined.

(** X14.  When the median equals the maximum and the minimum is lower, the index
    is zero and the label is "Equidimensional": the test [0 < hi] keeps a
    zero ratio from being inverted. *)
Theorem hypsometric_index_median_at_maximum (dem : raster) (mx mn md : Q) :
  Np.nanmax (Hyps.mask_nodata dem) = Num mx ->
  Np.nanmin (Hyps.mask_nodata dem) = Num mn ->
  Hyps.nanmedian (Hyps.mask_nodata dem) = Num md ->
  md == mx -> mn < mx ->
  exists q,
    Hyps.calculate_hypsometric_index (Some dem)
      = Hyps.Index (Hyps.Fin q) "Equidimensional" /\
    q == 0.
Proof.
  intros Hx Hn Hd Emd Lt.
  unfold Hyps.calculate_hypsometric_index.
  destruct (Np.valid (Hyps.mask_nodata dem)) as [| x l] eqn:V.
  { unfold Np.nanmax in Hx. rewrite V in Hx. discriminate. }
  assert (A : forallb Np.isnan (Hyps.mask_nodata dem) = false).
  { destruct (forallb Np.isnan (Hyps.mask_nodata dem)) eqn:A; [| reflexivity].
    apply forallb_isnan_valid in A. congruence. }
  rewrite A.
  destruct (elevation_statistics _ x l V) as (md' & Emx & Emn & Emd' & L & U).
  rewrite Hx in Emx. rewrite Hn in Emn. rewrite Hd in Emd'.
  injection Emx as Emx. injection Emn as Emn. injection Emd' as Emd'.
  rewrite Hx, Hn, Hd. subst md'. rewrite <- Emx in U. rewrite <- Emn in L.
  destruct (index_cases _ _ _ L U) as [(D & _ & _) | [(D & _ & _) | [(_ & N & _)
                                     | (D & _ & q & E & Eq & _)]]]; try lra.
  cbv zeta in E. rewrite E.
  assert (Q0 : q == 0) by (rewrite Eq; field_simplify_eq; lra).
  destruct (category_finite q) as [c Hc]. rewrite Hc.
  exists q. split; [| exact Q0].
  destruct (category_inv q c Hc)
    as [(-> & ?) | [(-> & ? & ?) | [(-> & ? & ?) | [(-> & ? & ?) | (-> & ?)]]]];
    try lra. reflexivity.
Qed.

Lemma hypsometric_index_median_at_maximum_witness :
  exists q,
    Hyps.calculate_hypsometric_index (Some [Num 10; Num 20; Num 20])
      = Hyps.Index (Hyps.Fin q) "Equidimensional" /\
    q == 0.
Proof.
  apply (hypsometric_index_median_at_maximum [Num 10; Num 20; Num 20] 20 10 20).
  - reflexivity.
  - reflexivity.
  - reflexivity.
  - reflexivity.
  - reflexivity.
Defined.

(** ** [reduce_memory_usage] *)

Section ReduceMemory.

Variable round_to : Mem.float_dtype -> Q -> Q.

Lemma int_min_spec (x : Z) (l : list Z) :
  In (fold_right Z.min x l) (x :: l) /\ Forall (fun z => (fold_right Z.min x l <= z)%Z) (x :: l).
Proof.
  induction l as [| y l [I F]]; simpl.
  - split; [now left | repeat constructor; lia].
  - inversion F as [| ? ? Fx Fl]; subst. split.
    + destruct (Z.min_spec y (fold_right Z.min x l)) as [[_ ->] | [_ ->]].
      * right. now left.
      * destruct I as [I | I]; [now left | right; now right].
    + constructor; [lia |]. constructor; [lia |].
      eapply Forall_impl; [| exact Fl]. simpl. intros. lia.
Qed.

Lemma int_max_spec (x : Z) (l : list Z) :
  In (fold_right Z.max x l) (x :: l) /\ Forall (fun z => (z <= fold_right Z.max x l)%Z) (x :: l).
Proof.
  induction l as [| y l [I F]]; simpl.
  - split; [now left | repeat constructor; lia].
  - inversion F as [| ? ? Fx Fl]; subst. split.
    + destruct (Z.max_spec y (fold_right Z.max x l)) as [[_ ->] | [_ ->]].
      * destruct I as [I | I]; [now left | right; now right].
      * right. now left.
    + constructor; [lia |]. constructor; [lia |].
      eapply Forall_impl; [| exact Fl]. simpl. intros. lia.
Qed.

(** [inside t] holds exactly when the column is not empty and every value
    lies strictly between the two limits of [t]. *)
Lemma inside_iff (t : Mem.int_dtype) (v : list Z) :
  Mem.inside t (Mem.int_min v) (Mem.int_max v) = true <->
  v <> [] /\ Forall (fun z => (Mem.iinfo_min t < z < Mem.iinfo_max t)%Z) v.
Proof.
  destruct v as [| x l]; simpl.
  - split; [discriminate | intros [N _]; congruence].
  - destruct (int_min_spec x l) as [Imin Fmin], (int_max_spec x l) as [Imax Fmax].
    rewrite andb_true_iff, !Z.ltb_lt. rewrite Forall_forall in Fmin, Fmax. split.
    + intros [A B]. split; [discriminate |]. apply Forall_forall. intros z Hz.
      specialize (Fmin z Hz). specialize (Fmax z Hz). lia.
    + intros [_ F]. rewrite Forall_forall in F.
      pose proof (F _ Imin). pose proof (F _ Imax). lia.
Qed.

Lemma wrap_id (t : Mem.int_dtype) (z : Z) :
  (Mem.iinfo_min t <= z <= Mem.iinfo_max t)%Z -> Mem.wrap t z = z.
Proof.
  unfold Mem.wrap, Mem.iinfo_min, Mem.iinfo_max.
  destruct t; cbn [Mem.bits]; intro R;
    rewrite Z.mod_small; lia.
Qed.

Lemma astype_int_id (t : Mem.int_dtype) (v : list Z) :
  Forall (fun z => (Mem.iinfo_min t < z < Mem.iinfo_max t)%Z) v -> Mem.astype_int t v = v.
Proof.
  intro F. unfold Mem.astype_int. induction F as [| z v Hz F IH]; simpl; [reflexivity |].
  rewrite IH, wrap_id by lia. reflexivity.
Qed.

(** The result of the integer branch, read off the four tests. *)
Lemma reduce_int_column_cases (name : string) (t : Mem.int_dtype) (v : list Z) :
  (exists t',
     Mem.reduce_column round_to (Mem.IntCol name t v) = Mem.IntCol name t' v /\
     Mem.inside t' (Mem.int_min v) (Mem.int_max v) = true /\
     (forall t0, Mem.inside t0 (Mem.int_min v) (Mem.int_max v) = true ->
                 (Mem.int_itemsize t' <= Mem.int_itemsize t0)%Z)) \/
  (Mem.reduce_column round_to (Mem.IntCol name t v) = Mem.IntCol name t v /\
   forall t0, Mem.inside t0 (Mem.int_min v) (Mem.int_max v) = false).
Proof.
  unfold Mem.reduce_column.
  destruct (Mem.inside Mem.Int8 _ _) eqn:A8.
  { left. exists Mem.Int8. pose proof A8 as F. apply inside_iff in F. destruct F as [_ F].
    rewrite (astype_int_id _ _ F). repeat split; try assumption.
    intros [] _; simpl; lia. }
  destruct (Mem.inside Mem.Int16 _ _) eqn:A16.
  { left. exists Mem.Int16. pose proof A16 as F. apply inside_iff in F. destruct F as [_ F].
    rewrite (astype_int_id _ _ F). repeat split; try assumption.
    intros [] E; simpl; try lia. congruence. }
  destruct (Mem.inside Mem.Int32 _ _) eqn:A32.
  { left. exists Mem.Int32. pose proof A32 as F. apply inside_iff in F. destruct F as [_ F].
    rewrite (astype_int_id _ _ F). repeat split; try assumption.
    intros [] E; simpl; try lia; congruence. }
  destruct (Mem.inside Mem.Int64 _ _) eqn:A64.
  { left. exists Mem.Int64. pose proof A64 as F. apply inside_iff in F. destruct F as [_ F].
    rewrite (astype_int_id _ _ F). repeat split; try assumption.
    intros [] E; simpl; try lia; congruence. }
  right. split; [reflexivity |]. intros []; assumption.
Qed.

(** X15.  An integer column keeps its values: the type chosen holds every one of
    them, so the cast never wraps around. *)
Theorem reduce_int_column_keeps_values (name : string) (t : Mem.int_dtype) (v : list Z) :
  Forall (fun z => (Mem.iinfo_min t <= z <= Mem.iinfo_max t)%Z) v ->
  exists t',
    Mem.reduce_column round_to (Mem.IntCol name t v) = Mem.IntCol name t' v /\
    Forall (fun z => (Mem.iinfo_min t' <= z <= Mem.iinfo_max t')%Z) v.
Proof.
  intro W.
  destruct (reduce_int_column_cases name t v) as [(t' & R & I & _) | (R & _)].
  - exists t'. split; [exact R |]. apply inside_iff in I. destruct I as [_ F].
    eapply Forall_impl; [| exact F]. simpl. intros. lia.
  - exists t. split; assumption.
Qed.

(** X16.  The type chosen is the narrowest possible: no wider than any type whose
    two limits lie strictly outside the values of the (non-empty) column. *)
Theorem reduce_int_column_narrowest (name : string) (t t0 : Mem.int_dtype) (v : list Z) :
  v <> [] ->
  Forall (fun z => (Mem.iinfo_min t0 < z < Mem.iinfo_max t0)%Z) v ->
  exists t',
    Mem.reduce_column round_to (Mem.IntCol name t v) = Mem.IntCol name t' v /\
    (Mem.int_itemsize t' <= Mem.int_itemsize t0)%Z.
Proof.
  intros N F.
  assert (I0 : Mem.inside t0 (Mem.int_min v) (Mem.int_max v) = true)
    by (apply inside_iff; now split).
  destruct (reduce_int_column_cases name t v) as [(t' & R & _ & M) | (_ & Hn)].
  - exists t'. split; [exact R | now apply M].
  - rewrite Hn in I0. discriminate.
Qed.

(** X17.  A column that holds a limit of its own type is widened: the tests are
    strict, so an [int8] column with a 127 or a -128 in it comes back as
    [int16], and likewise one step up for [int16] and [int32]. *)
Theorem reduce_int_column_widens_at_limit (name : string) (t : Mem.int_dtype) (v : list Z) :
  t <> Mem.Int64 ->
  Forall (fun z => (Mem.iinfo_min t <= z <= Mem.iinfo_max t)%Z) v ->
  (In (Mem.iinfo_min t) v \/ In (Mem.iinfo_max t) v) ->
  exists t',
    Mem.reduce_column round_to (Mem.IntCol name t v) = Mem.IntCol name t' v /\
    Mem.int_itemsize t' = (2 * Mem.int_itemsize t)%Z.
Proof.
  intros N64 W Hl.
  assert (Nv : v <> []) by (intro E; subst v; destruct Hl as [[] | []]).
  assert (Wide : exists t1, Mem.int_itemsize t1 = (2 * Mem.int_itemsize t)%Z /\
                   Forall (fun z => (Mem.iinfo_min t1 < z < Mem.iinfo_max t1)%Z) v).
  { destruct t; try congruence;
      [exists Mem.Int16 | exists Mem.Int32 | exists Mem.Int64];
      (split; [reflexivity |]); eapply Forall_impl; try exact W;
      unfold Mem.iinfo_min, Mem.iinfo_max; cbn [Mem.bits]; intros; lia. }
  destruct Wide as (t1 & S1 & F1).
  assert (I1 : Mem.inside t1 (Mem.int_min v) (Mem.int_max v) = true)
    by (apply inside_iff; now split).
  destruct (reduce_int_column_cases name t v) as [(t' & R & I & M) | (_ & Hn)];
    [| rewrite Hn in I1; discriminate].
  exists t'. split; [exact R |].
  pose proof (M t1 I1) as Le.
  apply inside_iff in I. destruct I as [_ F]. rewrite Forall_forall in F.
  assert (Lim : exists z, In z v /\ (z = Mem.iinfo_min t \/ z = Mem.iinfo_max t))
    by (destruct Hl as [Hl | Hl]; eexists; split; eauto).
  destruct Lim as (z & Hz & Ez). specialize (F z Hz).
  revert F Le S1 Ez. unfold Mem.iinfo_min, Mem.iinfo_max.
  destruct t, t', t1; cbn [Mem.bits Mem.int_itemsize]; intros; try lia; try congruence.
Qed.

(** X18.  Running the function again changes nothing in a table without float
    columns. *)
Theorem reduce_memory_usage_idempotent (df : list Mem.column) :
  Forall (fun c => match c with Mem.FloatCol _ _ _ => False | _ => True end) df ->
  Mem.reduce_memory_usage round_to (Mem.reduce_memory_usage round_to df)
  = Mem.reduce_memory_usage round_to df.
Proof.
  unfold Mem.reduce_memory_usage. intro F.
  induction F as [| c df Hc F IH]; simpl; [reflexivity |].
  rewrite IH. f_equal.
  destruct c as [name t v | name t v | name sz rows]; [| destruct Hc | reflexivity].
  destruct (reduce_int_column_cases name t v) as [(t' & R & I & M) | (R & Hn)]; rewrite R.
  - destruct (reduce_int_column_cases name t' v) as [(t2 & R2 & I2 & M2) | (R2 & Hn2)].
    + rewrite R2. f_equal.
      pose proof (M t2 I2). pose proof (M2 t' I).
      destruct t', t2; simpl in *; try lia; reflexivity.
    + exact R2.
  - exact R.
Qed.

(** X19.  A float column leaves as [float32] or [float64], never as [float16]; it
    is [float32] exactly when it has a value that is not NaN and all such
    values lie strictly between the two limits of [float32]. *)
Theorem reduce_float_column_dtype (name : string) (t : Mem.float_dtype) (v : list npfloat) :
  exists t' v',
    Mem.reduce_column round_to (Mem.FloatCol name t v) = Mem.FloatCol name t' v' /\
    v' = Mem.astype_float round_to t' v /\
    t' <> Mem.Float16 /\
    (t' = Mem.Float32 <->
     Np.valid v <> [] /\
     Forall (fun q => - Mem.finfo32_max < q /\ q < Mem.finfo32_max) (Np.valid v)).
Proof.
  unfold Mem.reduce_column, Mem.float_min, Mem.float_max.
  destruct (Np.valid v) as [| x l] eqn:V.
  - exists Mem.Float64. eexists. split; [reflexivity |]. split; [reflexivity |].
    split; [discriminate |]. split; [discriminate | intros [N _]; congruence].
  - destruct (minimum_spec l x) as [Imin Fmin], (maximum_spec l x) as [Imax Fmax].
    rewrite Forall_forall in Fmin, Fmax.
    destruct (Np.Qltb (- Mem.finfo32_max) (Np.minimum x l)) eqn:A;
      [destruct (Np.Qltb (Np.maximum x l) Mem.finfo32_max) eqn:B |]; simpl.
    + exists Mem.Float32. eexists. split; [reflexivity |]. split; [reflexivity |].
      split; [discriminate |]. split; [| reflexivity].
      intros _. split; [discriminate |]. apply Forall_forall. intros q Hq.
      unfold Np.Qltb in A, B.
      destruct (Qle_bool (Np.minimum x l) (- Mem.finfo32_max)) eqn:A'; [discriminate |].
      destruct (Qle_bool Mem.finfo32_max (Np.maximum x l)) eqn:B'; [discriminate |].
      apply Qle_bool_false_lt in A', B'.
      pose proof (Fmin q Hq). pose proof (Fmax q Hq). split; lra.
    + exists Mem.Float64. eexists. split; [reflexivity |]. split; [reflexivity |].
      split; [discriminate |]. split; [discriminate |].
      intros [_ F]. rewrite Forall_forall in F. destruct (F _ Imax) as [_ U].
      unfold Np.Qltb in B.
      destruct (Qle_bool Mem.finfo32_max (Np.maximum x l)) eqn:B'; [| discriminate].
      apply Qle_bool_iff in B'. lra.
    + exists Mem.Float64. eexists. split; [reflexivity |]. split; [reflexivity |].
      split; [discriminate |]. split; [discriminate |].
      intros [_ F]. rewrite Forall_forall in F. destruct (F _ Imin) as [L _].
      unfold Np.Qltb in A.
      destruct (Qle_bool (Np.minimum x l) (- Mem.finfo32_max)) eqn:A'; [| discriminate].
      apply Qle_bool_iff in A'. lra.
Qed.

End ReduceMemory.

Lemma reduce_int_column_keeps_values_witness :
  exists t',
    Mem.reduce_column (fun _ q => q) (Mem.IntCol "year" Mem.Int64 [2013; 2023; 1999]%Z)
      = Mem.IntCol "year" t' [2013; 2023; 1999]%Z /\
    Forall (fun z => (Mem.iinfo_min t' <= z <= Mem.iinfo_max t')%Z) [2013; 2023; 1999]%Z.
Proof.
  apply (reduce_int_column_keeps_values (fun _ q => q) "year" Mem.Int64 [2013; 2023; 1999]%Z).
  repeat constructor; vm_compute; discriminate.
Defined.

Lemma reduce_int_column_narrowest_witness :
  exists t',
    Mem.reduce_column (fun _ q => q) (Mem.IntCol "year" Mem.Int64 [2013; 2023; 1999]%Z)
      = Mem.IntCol "year" t' [2013; 2023; 1999]%Z /\
    (Mem.int_itemsize t' <= Mem.int_itemsize Mem.Int16)%Z.
Proof.
  apply (reduce_int_column_narrowest (fun _ q => q) "year" Mem.Int64 Mem.Int16
           [2013; 2023; 1999]%Z).
  - discriminate.
  - repeat constructor; vm_compute; reflexivity.
Defined.

Lemma reduce_int_column_widens_at_limit_witness :
  exists t',
    Mem.reduce_column (fun _ q => q) (Mem.IntCol "flag" Mem.Int8 [3; 127; -5]%Z)
      = Mem.IntCol "flag" t' [3; 127; -5]%Z /\
    Mem.int_itemsize t' = (2 * Mem.int_itemsize Mem.Int8)%Z.
Proof.
  apply (reduce_int_column_widens_at_limit (fun _ q => q) "flag" Mem.Int8 [3; 127; -5]%Z).
  - discriminate.
  - repeat constructor; vm_compute; discriminate.
  - right. right. left. reflexivity.
Defined.

Lemma reduce_memory_usage_idempotent_witness :
  Mem.reduce_memory_usage (fun _ q => q)
    (Mem.reduce_memory_usage (fun _ q => q)
       [Mem.IntCol "year" Mem.Int64 [2013; 2023]%Z; Mem.OtherCol "site_name" 8 2])
  = Mem.reduce_memory_usage (fun _ q => q)
      [Mem.IntCol "year" Mem.Int64 [2013; 2023]%Z; Mem.OtherCol "site_name" 8 2].
Proof.
  apply (reduce_memory_usage_idempotent (fun _ q => q)
           [Mem.IntCol "year" Mem.Int64 [2013; 2023]%Z; Mem.OtherCol "site_name" 8 2]).
  repeat constructor.
Defined.

(** On a table of integer columns that stay strictly inside the limits of
    their types (and of columns of other kinds) the memory in use does not
    grow. *)
Theorem reduce_memory_usage_no_growth (round_to : Mem.float_dtype -> Q -> Q)
  (df : list Mem.column) :
  Forall Mem.strictly_typed df ->
  (Mem.memory_usage (Mem.reduce_memory_usage round_to df) <= Mem.memory_usage df)%Z.
Proof.
  unfold Mem.memory_usage, Mem.reduce_memory_usage. intro F.
  induction F as [| c df Hc F IH]; simpl; [lia |].
  assert (C : (Mem.column_bytes (Mem.reduce_column round_to c) <= Mem.column_bytes c)%Z).
  { destruct c as [name t v | name t v | name sz rows]; [| destruct Hc | simpl; lia].
    simpl in Hc. destruct v as [| x l].
    - destruct (reduce_int_column_cases round_to name t []) as [(t' & R & I & _) | (R & _)];
        rewrite R; simpl; lia.
    - assert (I0 : Mem.inside t (Mem.int_min (x :: l)) (Mem.int_max (x :: l)) = true)
        by (apply inside_iff; split; [discriminate | exact Hc]).
      destruct (reduce_int_column_cases round_to name t (x :: l)) as [(t' & R & _ & M) | (_ & Hn)];
        [| rewrite Hn in I0; discriminate].
      pose proof (M t I0) as Le.
      rewrite R. cbn [Mem.column_bytes]. nia. }
  lia.
Qed.

Lemma reduce_memory_usage_no_growth_witness :
  (Mem.memory_usage
     (Mem.reduce_memory_usage (fun _ q => q)
        [Mem.IntCol "year" Mem.Int64 [2013; 2023]%Z; Mem.OtherCol "site_name" 8 2])
   <= Mem.memory_usage
        [Mem.IntCol "year" Mem.Int64 [2013; 2023]%Z; Mem.OtherCol "site_name" 8 2])%Z.
Proof.
  apply (reduce_memory_usage_no_growth (fun _ q => q)
           [Mem.IntCol "year" Mem.Int64 [2013; 2023]%Z; Mem.OtherCol "site_name" 8 2]).
  repeat constructor; vm_compute; reflexivity.
Defined.

(** ** [determine_best_model]: cost, failures, what is left untouched *)

Section SelectorEdges.

Context `{Library}.

Lemma cv_fit_calls_length (X y : DataFrame) (P : list (list nat * list nat))
  (cands : list (string * nat)) :
  List.length (cv_fit_calls X y P cands) = (List.length cands * List.length P)%nat.
Proof.
  unfold cv_fit_calls, fold_fit_calls.
  induction cands as [| nm cands IH]; simpl; [reflexivity |].
  rewrite length_app, length_map, IH. reflexivity.
Qed.

Lemma cv_heap_outside (X y : DataFrame) (P : list (list nat * list nat)) (a : nat) :
  forall (cands : list (string * nat)) (h : nat -> Est),
    ~ In a (map snd cands) -> cv_heap h X y P cands a = h a.
Proof.
  induction cands as [| nm cands IH]; intros h Hn; simpl; [reflexivity |].
  simpl in Hn. rewrite IH by tauto. unfold heap_after.
  destruct (Nat.eqb a (snd nm)) eqn:E; [| reflexivity].
  apply Nat.eqb_eq in E. subst a. tauto.
Qed.

Lemma map_snd_combine_incl {A B} (l : list A) (l' : list B) (b : B) :
  In b (map snd (combine l l')) -> In b l'.
Proof.
  revert l'. induction l as [| a l IH]; intros [| b' l'] Hb; simpl in *; try contradiction.
  destruct Hb as [-> | Hb]; [now left | right; now apply IH].
Qed.

(** X20.  A successful run makes [num_folds] fit calls per candidate and one more
    for the retraining. *)
Theorem determine_best_model_fit_count (data X y : DataFrame)
  (models : list nat) (model_names feature_columns labels : list string)
  (out_path : option string) (best_model_fn : string) (save_performances : bool)
  (performances_fn : string) (num_folds : Z) (mpath ppath : string) (w : World) :
  getitem data feature_columns = Ok X ->
  getitem data labels = Ok y ->
  (2 <= num_folds)%Z -> (num_folds <= Z.of_nat (nrows data))%Z ->
  models <> [] ->
  List.length model_names = List.length models ->
  os_path_join out_path best_model_fn = Ok mpath ->
  os_path_join out_path performances_fn = Ok ppath ->
  can_create w mpath = true ->
  (save_performances = true -> can_create w ppath = true) ->
  exists best w',
    determine_best_model data models model_names feature_columns labels out_path
      best_model_fn save_performances performances_fn num_folds w
      = (Ok (best, X, y), w') /\
    List.length (fit_calls w')
    = (List.length (fit_calls w) + List.length models * Z.to_nat num_folds + 1)%nat.
Proof.
  intros GX Gy K2 Kn NM LN JM JP CM CP.
  destruct (determine_best_model_spec data X y models model_names feature_columns labels
              out_path best_model_fn save_performances performances_fn num_folds mpath ppath w
              GX Gy K2 Kn NM LN JM JP CM CP)
    as (pa & w1 & ibest & best & v & w' & Run & Dbm & _ & _ & _ & _ & _ & Hf & _).
  pose proof Kn as Kn'. rewrite <- (getitem_nrows data X feature_columns GX) in Kn'.
  destruct (cross_validate_spec X y models model_names num_folds w K2 Kn')
    as (P & w1' & _ & LP & Run' & _ & Hf1 & _).
  cbv zeta in Run'. rewrite Run in Run'. injection Run' as _ <-.
  exists best, w'. split; [exact Dbm |].
  rewrite Hf, Hf1, !length_app, cv_fit_calls_length, length_combine, LP. simpl. lia.
Qed.

(** X21.  A successful run leaves every estimator object that is not in the
    candidate list as it was. *)
Theorem determine_best_model_touches_candidates_only (data X y : DataFrame)
  (models : list nat) (model_names feature_columns labels : list string)
  (out_path : option string) (best_model_fn : string) (save_performances : bool)
  (performances_fn : string) (num_folds : Z) (mpath ppath : string) (w : World) :
  getitem data feature_columns = Ok X ->
  getitem data labels = Ok y ->
  (2 <= num_folds)%Z -> (num_folds <= Z.of_nat (nrows data))%Z ->
  models <> [] ->
  List.length model_names = List.length models ->
  os_path_join out_path best_model_fn = Ok mpath ->
  os_path_join out_path performances_fn = Ok ppath ->
  can_create w mpath = true ->
  (save_performances = true -> can_create w ppath = true) ->
  exists best w',
    determine_best_model data models model_names feature_columns labels out_path
      best_model_fn save_performances performances_fn num_folds w
      = (Ok (best, X, y), w') /\
    In best models /\
    forall a, ~ In a models -> heap w' a = heap w a.
Proof.
  intros GX Gy K2 Kn NM LN JM JP CM CP.
  destruct (determine_best_model_spec data X y models model_names feature_columns labels
              out_path best_model_fn save_performances performances_fn num_folds mpath ppath w
              GX Gy K2 Kn NM LN JM JP CM CP)
    as (pa & w1 & ibest & best & v & w' & Run & Dbm & Nb & _ & _ & _ & Hh & _ & _).
  pose proof Kn as Kn'. rewrite <- (getitem_nrows data X feature_columns GX) in Kn'.
  destruct (cross_validate_spec X y models model_names num_folds w K2 Kn')
    as (P & w1' & _ & _ & Run' & Hh1 & _).
  cbv zeta in Run'. rewrite Run in Run'. injection Run' as _ <-.
  assert (Ib : In best models) by (eapply nth_error_In; exact Nb).
  exists best, w'. split; [exact Dbm |]. split; [exact Ib |].
  intros a Ha. rewrite Hh.
  destruct (Nat.eqb a best) eqn:E; [apply Nat.eqb_eq in E; subst a; contradiction |].
  rewrite Hh1. apply cv_heap_outside. intro I. apply Ha.
  eapply map_snd_combine_incl. exact I.
Qed.

(** X22.  With an empty candidate list (and no table to save) the function stops
    with the [ValueError] of the minimum of an empty array, having done
    nothing. *)
Theorem determine_best_model_no_candidates (data X y : DataFrame)
  (model_names feature_columns labels : list string)
  (out_path : option string) (best_model_fn performances_fn : string)
  (num_folds : Z) (w : World) :
  getitem data feature_columns = Ok X ->
  getitem data labels = Ok y ->
  determine_best_model data [] model_names feature_columns labels out_path
    best_model_fn false performances_fn num_folds w
  = (Raise ValueError, w).
Proof.
  intros GX Gy.
  unfold determine_best_model, bind, lift. rewrite GX, Gy.
  unfold cross_validate, bind.
  replace (combine model_names (@nil nat)) with (@nil (string * nat))
    by (destruct model_names; reflexivity).
  reflexivity.
Qed.

(** X23.  A fold count below two, or above the number of rows, is refused with a
    [ValueError] at the first candidate: no estimator is fitted and no file
    is written. *)
Theorem determine_best_model_bad_fold_count (data X y : DataFrame)
  (name : string) (model_names : list string) (model : nat) (models : list nat)
  (feature_columns labels : list string)
  (out_path : option string) (best_model_fn : string) (save_performances : bool)
  (performances_fn : string) (num_folds : Z) (w : World) :
  getitem data feature_columns = Ok X ->
  getitem data labels = Ok y ->
  (num_folds <= 1 \/ Z.of_nat (nrows data) < num_folds)%Z ->
  exists w',
    determine_best_model data (model :: models) (name :: model_names) feature_columns labels
      out_path best_model_fn save_performances performances_fn num_folds w
    = (Raise ValueError, w') /\
    fit_calls w' = fit_calls w /\ files w' = files w /\
    (forall a, heap w' a = heap w a) /\
    stdout w' = stdout w ++ [MsgModelName name].
Proof.
  intros GX Gy Hk.
  rewrite <- (getitem_nrows data X feature_columns GX) in Hk.
  unfold determine_best_model, bind, lift. rewrite GX, Gy.
  unfold cross_validate, bind. cbn [combine foldM]. unfold bind.
  unfold model_body, bind, lift, print. cbn [fst snd].
  unfold KFold.new.
  destruct (num_folds <=? 1)%Z eqn:E1.
  - eexists. split; [reflexivity |]. simpl. repeat split; reflexivity.
  - apply Z.leb_gt in E1. unfold KFold.split. cbn [KFold.n_splits].
    destruct (Z.of_nat (nrows X) <? num_folds)%Z eqn:E2; [| apply Z.ltb_ge in E2; lia].
    eexists. split; [reflexivity |]. simpl. repeat split; reflexivity.
Qed.

End SelectorEdges.

Lemma determine_best_model_fit_count_witness :
  exists best w',
    run_ex (Some "out"%string) false = (Ok (best, X_ex, y_ex), w') /\
    List.length (fit_calls w')
    = (List.length (fit_calls world_ex) + List.length models_ex * Z.to_nat 2 + 1)%nat.
Proof.
  apply (@determine_best_model_fit_count Toy.library data_ex X_ex y_ex models_ex
           model_names_ex ["pdd"%string] ["sla"%string] (Some "out"%string)
           "best_model.joblib" false "model_performances.csv" 2
           "out/best_model.joblib" "out/model_performances.csv" world_ex).
  - reflexivity.
  - reflexivity.
  - lia.
  - simpl. lia.
  - discriminate.
  - reflexivity.
  - reflexivity.
  - reflexivity.
  - reflexivity.
  - intro E. discriminate E.
Defined.

Lemma determine_best_model_touches_candidates_only_witness :
  exists best w',
    run_ex (Some "out"%string) false = (Ok (best, X_ex, y_ex), w') /\
    In best models_ex /\
    forall a, ~ In a models_ex -> heap w' a = heap world_ex a.
Proof.
  apply (@determine_best_model_touches_candidates_only Toy.library data_ex X_ex y_ex models_ex
           model_names_ex ["pdd"%string] ["sla"%string] (Some "out"%string)
           "best_model.joblib" false "model_performances.csv" 2
           "out/best_model.joblib" "out/model_performances.csv" world_ex).
  - reflexivity.
  - reflexivity.
  - lia.
  - simpl. lia.
  - discriminate.
  - reflexivity.
  - reflexivity.
  - reflexivity.
  - reflexivity.
  - intro E. discriminate E.
Defined.

Lemma determine_best_model_no_candidates_witness :
  determine_best_model data_ex [] model_names_ex ["pdd"%string] ["sla"%string]
    (Some "out"%string) "best_model.joblib" false "model_performances.csv" 2 world_ex
  = (Raise ValueError, world_ex).
Proof.
  apply (@determine_best_model_no_candidates Toy.library data_ex X_ex y_ex model_names_ex
           ["pdd"%string] ["sla"%string] (Some "out"%string) "best_model.joblib"
           "model_performances.csv" 2 world_ex).
  - reflexivity.
  - reflexivity.
Defined.

Lemma determine_best_model_bad_fold_count_witness :
  exists w',
    determine_best_model data_ex [0; 1]%nat ["mean"; "const"]%string ["pdd"%string]
      ["sla"%string] (Some "out"%string) "best_model.joblib" true "model_performances.csv" 7
      world_ex
    = (Raise ValueError, w') /\
    fit_calls w' = fit_calls world_ex /\ files w' = files world_ex /\
    (forall a, heap w' a = heap world_ex a) /\
    stdout w' = stdout world_ex ++ [MsgModelName "mean"].
Proof.
  apply (@determine_best_model_bad_fold_count Toy.library data_ex X_ex y_ex "mean"
           ["const"%string] 0%nat [1%nat] ["pdd"%string] ["sla"%string] (Some "out"%string)
           "best_model.joblib" true "model_performances.csv" 7 world_ex).
  - reflexivity.
  - reflexivity.
  - right. simpl. lia.
Defined.

Section SelectorInputs.

Context `{Library}.

Lemma get_column_missing (c : string) (cols : list (string * list Q)) :
  ~ In c (map fst cols) -> get_column c cols = Raise KeyError.
Proof.
  induction cols as [| [c' v] cols IH]; simpl; intro N; [reflexivity |].
  destruct (String.eqb c c') eqn:E; [apply String.eqb_eq in E; subst; tauto |].
  apply IH. tauto.
Qed.

Lemma get_column_error (c : string) (cols : list (string * list Q)) (e : exn) :
  get_column c cols = Raise e -> e = KeyError.
Proof.
  induction cols as [| [c' v] cols IH]; simpl; [congruence |].
  destruct (String.eqb c c'); [discriminate | exact IH].
Qed.

Lemma select_columns_error (cs : list string) (cols : list (string * list Q)) (e : exn) :
  select_columns cs cols = Raise e -> e = KeyError.
Proof.
  induction cs as [| c cs IH]; simpl; [discriminate |].
  destruct (get_column c cols) eqn:G; simpl.
  - destruct (select_columns cs cols); simpl; [discriminate | exact IH].
  - intro E. injection E as <-. now apply get_column_error in G.
Qed.

Lemma select_columns_missing (c : string) (cs : list string) (cols : list (string * list Q)) :
  In c cs -> ~ In c (map fst cols) -> select_columns cs cols = Raise KeyError.
Proof.
  intros I N. induction cs as [| c' cs IH]; [destruct I |].
  simpl. destruct I as [-> | I].
  - now rewrite (get_column_missing c cols N).
  - destruct (get_column c' cols) eqn:G; simpl.
    + now rewrite (IH I).
    + f_equal. now apply get_column_error in G.
Qed.

Lemma getitem_missing (data : DataFrame) (c : string) (cs : list string) :
  In c cs -> ~ In c (map fst (columns data)) -> getitem data cs = Raise KeyError.
Proof.
  intros I N. unfold getitem. now rewrite (select_columns_missing c cs (columns data) I N).
Qed.

Lemma getitem_error (data : DataFrame) (cs : list string) (e : exn) :
  getitem data cs = Raise e -> e = KeyError.
Proof.
  unfold getitem. destruct (select_columns cs (columns data)) eqn:S; simpl; [discriminate |].
  intro E. injection E as <-. now apply select_columns_error in S.
Qed.

(** X24.  A feature or label column that the table does not have is a [KeyError]
    before anything else happens. *)
Theorem determine_best_model_missing_column (data : DataFrame) (c : string)
  (models : list nat) (model_names feature_columns labels : list string)
  (out_path : option string) (best_model_fn : string) (save_performances : bool)
  (performances_fn : string) (num_folds : Z) (w : World) :
  In c (feature_columns ++ labels) ->
  ~ In c (map fst (columns data)) ->
  determine_best_model data models model_names feature_columns labels out_path
    best_model_fn save_performances performances_fn num_folds w
  = (Raise KeyError, w).
Proof.
  intros I N. unfold determine_best_model, bind, lift.
  destruct (getitem data feature_columns) as [X | e] eqn:GX.
  - apply in_app_or in I. destruct I as [I | I].
    + rewrite (getitem_missing data c feature_columns I N) in GX. discriminate.
    + now rewrite (getitem_missing data c labels I N).
  - now rewrite (getitem_error data feature_columns e GX).
Qed.

(** X25.  When the two lists differ in length and the table is to be saved, the
    whole cross-validation runs and the function then stops with the
    [ValueError] of the table constructor: nothing is written, no model is
    returned. *)
Theorem determine_best_model_length_mismatch (data X y : DataFrame)
  (models : list nat) (model_names feature_columns labels : list string)
  (out_path : option string) (best_model_fn performances_fn : string)
  (num_folds : Z) (w : World) :
  getitem data feature_columns = Ok X ->
  getitem data labels = Ok y ->
  (2 <= num_folds)%Z -> (num_folds <= Z.of_nat (nrows data))%Z ->
  List.length model_names <> List.length models ->
  exists P w',
    KFold.split {| KFold.n_splits := num_folds; KFold.shuffle := true;
                   KFold.random_state := kfold_random_state |} (nrows X) = Ok P /\
    determine_best_model data models model_names feature_columns labels out_path
      best_model_fn true performances_fn num_folds w
    = (Raise ValueError, w') /\
    fit_calls w' = fit_calls w ++ cv_fit_calls X y P (combine model_names models) /\
    files w' = files w.
Proof.
  intros GX Gy K2 Kn LN.
  rewrite <- (getitem_nrows data X feature_columns GX) in Kn.
  destruct (cross_validate_spec X y models model_names num_folds w K2 Kn)
    as (P & w1 & HP & LP & Run & _ & Hf & _ & _ & Hfi).
  cbv zeta in Run.
  exists P, w1. split; [exact HP |]. split; [| split; assumption].
  unfold determine_best_model, bind, lift. rewrite GX, Gy, Run.
  unfold save_performances_step, bind, lift, performances_df. cbn [mean_abs_err].
  rewrite length_app, length_map, cv_fold_results_length, length_skipn.
  unfold Arr.zeros. rewrite repeat_length, length_combine.
  destruct (Nat.eqb _ _) eqn:E; [| reflexivity]. apply Nat.eqb_eq in E.
  destruct (Nat.min_spec (List.length model_names) (List.length models)) as [[? M] | [? M]];
    rewrite M in E; lia.
Qed.

(** ** [assess_model_feature_importances] *)

(** X26.  With no output path (the default) the function stops with a
    [TypeError] once the importances are computed and drawn: nothing is
    written and nothing is returned. *)
Theorem assess_without_out_path_raises (model : nat) (X y : DataFrame)
  (feature_columns : list string) (display : option (list string))
  (importances_fn : string) (figure_out_path : option string) (figure_fn : string)
  (n_repeats : nat) (seed : Z) (df : list (string * list Q)) (w : World) :
  importances_df (permutation_importance (heap w model) X y n_repeats seed) 0
    feature_columns [] = Ok df ->
  (forall labels, boxplot df labels = Ok tt) ->
  assess_model_feature_importances model X y feature_columns display None
    importances_fn figure_out_path figure_fn n_repeats seed w
  = (Raise TypeError, w).
Proof.
  intros Hdf Hb.
  unfold assess_model_feature_importances, bind, lift, model_state, os_path_exists.
  rewrite Hdf, Hb. reflexivity.
Qed.

(** X27.  With an existing output path and no figure path (the default) the
    importances table is written and the function then stops with a
    [TypeError]. *)
Theorem assess_without_figure_path_raises_after_saving (model : nat) (X y : DataFrame)
  (feature_columns : list string) (display : option (list string))
  (dir importances_fn path figure_fn : string)
  (n_repeats : nat) (seed : Z) (df : list (string * list Q)) (w : World) :
  importances_df (permutation_importance (heap w model) X y n_repeats seed) 0
    feature_columns [] = Ok df ->
  (forall labels, boxplot df labels = Ok tt) ->
  path_exists w dir = true ->
  os_path_join (Some dir) importances_fn = Ok path ->
  can_create w path = true ->
  exists w',
    assess_model_feature_importances model X y feature_columns display (Some dir)
      importances_fn None figure_fn n_repeats seed w
    = (Raise TypeError, w') /\
    files w' = files w ++ [(path, ImportancesCsv df)] /\
    stdout w' = stdout w ++ [MsgImportancesSaved path].
Proof.
  intros Hdf Hb Hp Hj Hc.
  unfold assess_model_feature_importances, bind, lift, model_state, os_path_exists.
  rewrite Hdf, Hb, Hp, Hj. unfold write_file. rewrite Hc. unfold print. simpl.
  eexists. split; [reflexivity |]. split; reflexivity.
Qed.

(** With an existing output path and an existing figure path, both
    writable, the table and the figure are written, in this order, and the
    importances are returned. *)
Theorem assess_saves_table_and_figure (model : nat) (X y : DataFrame)
  (feature_columns : list string) (display : option (list string))
  (dir importances_fn path fdir figure_fn fpath : string)
  (n_repeats : nat) (seed : Z) (df : list (string * list Q)) (w : World) :
  importances_df (permutation_importance (heap w model) X y n_repeats seed) 0
    feature_columns [] = Ok df ->
  (forall labels, boxplot df labels = Ok tt) ->
  path_exists w dir = true ->
  os_path_join (Some dir) importances_fn = Ok path ->
  can_create w path = true ->
  path_exists w fdir = true ->
  os_path_join (Some fdir) figure_fn = Ok fpath ->
  can_create w fpath = true ->
  exists w',
    assess_model_feature_importances model X y feature_columns display (Some dir)
      importances_fn (Some fdir) figure_fn n_repeats seed w
    = (Ok (permutation_importance (heap w model) X y n_repeats seed), w') /\
    files w' = files w ++ [(path, ImportancesCsv df); (fpath, FigurePng)] /\
    stdout w' = stdout w ++ [MsgImportancesSaved path; MsgFigureSaved fpath].
Proof.
  intros Hdf Hb Hp Hj Hc Hfp Hfj Hfc.
  unfold assess_model_feature_importances, bind, lift, model_state, os_path_exists.
  rewrite Hdf, Hb, Hp, Hj. unfold write_file. rewrite Hc. unfold print. cbn [path_exists].
  rewrite Hfp, Hfj. cbn [can_create]. rewrite Hfc. unfold ret. simpl.
  eexists. split; [reflexivity |]. rewrite <- !app_assoc. split; reflexivity.
Qed.

Lemma importances_df_short (importances : list (list Q)) :
  forall (cs : list string) (i : nat) (cols : list (string * list Q)),
    (i <= List.length importances)%nat ->
    (List.length importances < i + List.length cs)%nat ->
    importances_df importances i cs cols = Raise IndexError.
Proof.
  induction cs as [| c cs IH]; intros i cols Hi L; simpl in *; [lia |].
  unfold py_index. destruct (nth_error importances i) as [v |] eqn:E; simpl.
  - assert (i < List.length importances)%nat by (apply nth_error_Some; congruence).
    apply IH; lia.
  - reflexivity.
Qed.

(** More feature names than importance vectors is an [IndexError]; nothing
    is drawn or written. *)
Theorem assess_too_many_feature_columns (model : nat) (X y : DataFrame)
  (feature_columns : list string) (display : option (list string))
  (out_path : option string) (importances_fn : string)
  (figure_out_path : option string) (figure_fn : string)
  (n_repeats : nat) (seed : Z) (w : World) :
  (List.length (permutation_importance (heap w model) X y n_repeats seed)
   < List.length feature_columns)%nat ->
  assess_model_feature_importances model X y feature_columns display out_path
    importances_fn figure_out_path figure_fn n_repeats seed w
  = (Raise IndexError, w).
Proof.
  intro L.
  unfold assess_model_feature_importances, bind, lift, model_state.
  rewrite (importances_df_short _ feature_columns 0 [] (Nat.le_0_l _) L). reflexivity.
Qed.

(** X28.  Whatever happens, the function never fits or replaces an estimator. *)
Theorem assess_never_refits (model : nat) (X y : DataFrame)
  (feature_columns : list string) (display : option (list string))
  (out_path : option string) (importances_fn : string)
  (figure_out_path : option string) (figure_fn : string)
  (n_repeats : nat) (seed : Z) (w : World) :
  let w' := snd (assess_model_feature_importances model X y feature_columns display out_path
                   importances_fn figure_out_path figure_fn n_repeats seed w) in
  heap w' = heap w /\ fit_calls w' = fit_calls w.
Proof.
  cbv zeta.
  unfold assess_model_feature_importances, bind, lift, model_state, os_path_exists,
    write_file, print, ret.
  destruct (importances_df _ _ _ _) as [df | e0]; [| split; reflexivity].
  destruct (boxplot _ _) as [u | e1]; [| split; reflexivity].
  destruct out_path as [dir |]; [| split; reflexivity].
  destruct (path_exists w dir); [| split; reflexivity].
  destruct (os_path_join (Some dir) importances_fn) as [path | e2]; [| split; reflexivity].
  destruct (can_create w path); [| split; reflexivity].
  cbn [path_exists can_create].
  destruct figure_out_path as [fdir |]; [| split; reflexivity].
  destruct (path_exists w fdir); [| split; reflexivity].
  destruct (os_path_join (Some fdir) figure_fn) as [fpath | e3]; [| split; reflexivity].
  cbn [can_create].
  destruct (can_create w fpath); split; reflexivity.
Qed.

End SelectorInputs.

Lemma determine_best_model_missing_column_witness :
  determine_best_model data_ex models_ex model_names_ex ["pdd"; "snowfall"]%string
    ["sla"%string] (Some "out"%string) "best_model.joblib" false "model_performances.csv" 2
    world_ex
  = (Raise KeyError, world_ex).
Proof.
  apply (@determine_best_model_missing_column Toy.library data_ex "snowfall" models_ex
           model_names_ex ["pdd"; "snowfall"]%string ["sla"%string] (Some "out"%string)
           "best_model.joblib" false "model_performances.csv" 2 world_ex).
  - right. left. reflexivity.
  - simpl. intros [E | [E | []]]; discriminate E.
Defined.

Lemma determine_best_model_length_mismatch_witness :
  exists P w',
    KFold.split {| KFold.n_splits := 2; KFold.shuffle := true;
                   KFold.random_state := kfold_random_state |} (nrows X_ex) = Ok P /\
    determine_best_model data_ex models_ex ["mean"; "const"; "spare"]%string ["pdd"%string]
      ["sla"%string] (Some "out"%string) "best_model.joblib" true "model_performances.csv" 2
      world_ex
    = (Raise ValueError, w') /\
    fit_calls w' = fit_calls world_ex
                   ++ cv_fit_calls X_ex y_ex P (combine ["mean"; "const"; "spare"]%string models_ex) /\
    files w' = files world_ex.
Proof.
  apply (@determine_best_model_length_mismatch Toy.library data_ex X_ex y_ex models_ex
           ["mean"; "const"; "spare"]%string ["pdd"%string] ["sla"%string] (Some "out"%string)
           "best_model.joblib" "model_performances.csv" 2 world_ex).
  - reflexivity.
  - reflexivity.
  - lia.
  - simpl. lia.
  - discriminate.
Defined.

Lemma assess_without_out_path_raises_witness :
  assess_model_feature_importances 0 X_ex y_ex ["pdd"%string] None None
    "model_feature_importances.csv" None "model_feature_importances.png" 3 42 world_ex
  = (Raise TypeError, world_ex).
Proof.
  apply (@assess_without_out_path_raises Toy.library 0%nat X_ex y_ex ["pdd"%string] None
           "model_feature_importances.csv" None "model_feature_importances.png" 3%nat 42%Z
           [("pdd"%string, [0; 0; 0])] world_ex).
  - reflexivity.
  - intro labels. reflexivity.
Defined.

Lemma assess_without_figure_path_raises_after_saving_witness :
  exists w',
    assess_model_feature_importances 0 X_ex y_ex ["pdd"%string] None (Some "out"%string)
      "model_feature_importances.csv" None "model_feature_importances.png" 3 42 world_ex
    = (Raise TypeError, w') /\
    files w' = files world_ex
               ++ [("out/model_feature_importances.csv"%string,
                    ImportancesCsv [("pdd"%string, [0; 0; 0])])] /\
    stdout w' = stdout world_ex ++ [MsgImportancesSaved "out/model_feature_importances.csv"].
Proof.
  apply (@assess_without_figure_path_raises_after_saving Toy.library 0%nat X_ex y_ex
           ["pdd"%string] None "out" "model_feature_importances.csv"
           "out/model_feature_importances.csv" "model_feature_importances.png" 3%nat 42%Z
           [("pdd"%string, [0; 0; 0])] world_ex).
  - reflexivity.
  - intro labels. reflexivity.
  - reflexivity.
  - reflexivity.
  - reflexivity.
Defined.

Lemma assess_saves_table_and_figure_witness :
  exists w',
    assess_model_feature_importances 0 X_ex y_ex ["pdd"%string] None (Some "out"%string)
      "model_feature_importances.csv" (Some "out"%string) "model_feature_importances.png"
      3 42 world_ex
    = (Ok (permutation_importance (heap world_ex 0%nat) X_ex y_ex 3 42), w') /\
    files w' = files world_ex
               ++ [("out/model_feature_importances.csv"%string,
                    ImportancesCsv [("pdd"%string, [0; 0; 0])]);
                   ("out/model_feature_importances.png"%string, FigurePng)] /\
    stdout w' = stdout world_ex
                ++ [MsgImportancesSaved "out/model_feature_importances.csv";
                    MsgFigureSaved "out/model_feature_importances.png"].
Proof.
  apply (@assess_saves_table_and_figure Toy.library 0%nat X_ex y_ex
           ["pdd"%string] None "out" "model_feature_importances.csv"
           "out/model_feature_importances.csv" "out" "model_feature_importances.png"
           "out/model_feature_importances.png" 3%nat 42%Z
           [("pdd"%string, [0; 0; 0])] world_ex).
  - reflexivity.
  - intro labels. reflexivity.
  - reflexivity.
  - reflexivity.
  - reflexivity.
  - reflexivity.
  - reflexivity.
  - reflexivity.
Defined.

Lemma assess_too_many_feature_columns_witness :
  assess_model_feature_importances 0 X_ex y_ex ["pdd"; "snowfall"]%string None
    (Some "out"%string) "model_feature_importances.csv" None "model_feature_importances.png"
    3 42 world_ex
  = (Raise IndexError, world_ex).
Proof.
  apply (@assess_too_many_feature_columns Toy.library 0%nat X_ex y_ex
           ["pdd"; "snowfall"]%string None (Some "out"%string)
           "model_feature_importances.csv" None "model_feature_importances.png" 3%nat 42%Z
           world_ex).
  simpl. lia.
Defined.

(** ** The folds that [determine_best_model] trains and tests on *)

Section Folds.

Context `{Library}.

Lemma mem_In (i : nat) (l : list nat) : KFold.mem i l = true <-> In i l.
Proof.
  unfold KFold.mem. rewrite existsb_exists. split.
  - intros (x & Hx & E). apply Nat.eqb_eq in E. now subst.
  - intro I. exists i. split; [exact I | apply Nat.eqb_refl].
Qed.

Lemma kfold_split_inv (kf : KFold.t) (n : nat) (P : list (list nat * list nat)) :
  KFold.split kf n = Ok P ->
  exists order,
    order = (if KFold.shuffle kf then rng_shuffle (KFold.random_state kf) (seq 0 n)
             else seq 0 n) /\
    P = map (fun test =>
               (filter (fun i => negb (KFold.mem i test)) (seq 0 n),
                filter (fun i => KFold.mem i test) (seq 0 n)))
            (KFold.chunks (KFold.fold_sizes n (Z.to_nat (KFold.n_splits kf))) order).
Proof.
  unfold KFold.split. destruct (Z.of_nat n <? KFold.n_splits kf)%Z; [discriminate |].
  intro E. injection E as <-. eexists. split; reflexivity.
Qed.


Hypothesis shuffle_permutes : forall seed l, Permutation l (rng_shuffle seed l).

Lemma firstn_plus {A} (a b : nat) (l : list A) :
  firstn (a + b) l = firstn a l ++ firstn b (skipn a l).
Proof.
  revert l. induction a as [| a IH]; intro l; simpl; [reflexivity |].
  destruct l as [| x l]; simpl; [now rewrite firstn_nil | now rewrite IH].
Qed.

Lemma concat_chunks (sizes : list nat) :
  forall l, List.concat (KFold.chunks sizes l) = firstn (list_sum sizes) l.
Proof.
  induction sizes as [| s sizes IH]; intro l; simpl; [reflexivity |].
  now rewrite IH, firstn_plus.
Qed.

Lemma chunks_lengths (sizes : list nat) :
  forall l, (list_sum sizes <= List.length l)%nat ->
            map (@List.length nat) (KFold.chunks sizes l) = sizes.
Proof.
  induction sizes as [| s sizes IH]; intros l L; simpl in *; [reflexivity |].
  rewrite length_firstn, IH by (rewrite length_skipn; lia).
  f_equal. lia.
Qed.

Lemma chunks_nodup (sizes : list nat) :
  forall l, NoDup l ->
            Forall (fun c => NoDup c /\ incl c l) (KFold.chunks sizes l).
Proof.
  induction sizes as [| s sizes IH]; intros l N; simpl; [constructor |].
  assert (E : firstn s l ++ skipn s l = l) by apply firstn_skipn.
  constructor.
  - split.
    + rewrite <- E in N. now apply NoDup_app_remove_r in N.
    + intros x Hx. rewrite <- E. apply in_or_app. now left.
  - assert (N' : NoDup (skipn s l)) by (rewrite <- E in N; now apply NoDup_app_remove_l in N).
    eapply Forall_impl; [| exact (IH _ N')].
    intros c [Nc Ic]. split; [exact Nc |].
    intros x Hx. rewrite <- E. apply in_or_app. right. now apply Ic.
Qed.

Lemma fold_sizes_sum_aux (q r : nat) :
  forall m, list_sum (map (fun i => (q + (if i <? r then 1 else 0))%nat) (seq 0 m))
            = (m * q + Nat.min r m)%nat.
Proof.
  induction m as [| m IH]; [simpl; lia |].
  rewrite seq_S, map_app, list_sum_app, IH. simpl.
  destruct (m <? r) eqn:E; [apply Nat.ltb_lt in E | apply Nat.ltb_ge in E]; lia.
Qed.

Lemma fold_sizes_sum (n k : nat) : (0 < k)%nat -> list_sum (KFold.fold_sizes n k) = n.
Proof.
  intro K. unfold KFold.fold_sizes. rewrite fold_sizes_sum_aux.
  pose proof (Nat.mod_upper_bound n k ltac:(lia)).
  pose proof (Nat.div_mod_eq n k). lia.
Qed.

Lemma test_masks_permute (indices : list nat) (cs : list (list nat)) :
  NoDup indices ->
  Forall (fun c => NoDup c /\ incl c indices) cs ->
  Permutation (List.concat (map (fun c => filter (fun i => KFold.mem i c) indices) cs)) (List.concat cs).
Proof.
  intros Ni F. induction F as [| c cs [Nc Ic] F IH]; simpl; [constructor |].
  apply Permutation_app; [| exact IH].
  apply NoDup_Permutation; [now apply NoDup_filter | exact Nc |].
  intro x. rewrite filter_In, mem_In. split; [tauto |]. intro Hx. split; [now apply Ic | exact Hx].
Qed.

(** X30.  With a shuffle that permutes, the test sets of the folds used by the
    selector are a partition of the rows: put one after the other they are
    a rearrangement of all row positions, so every row is tested in exactly
    one fold; and their sizes are [n / k] or one more. *)
Theorem folds_test_each_row_once (num_folds : Z) (n : nat) (P : list (list nat * list nat)) :
  (2 <= num_folds)%Z ->
  KFold.split {| KFold.n_splits := num_folds; KFold.shuffle := true;
                 KFold.random_state := kfold_random_state |} n = Ok P ->
  Permutation (List.concat (map snd P)) (seq 0 n) /\
  Forall (fun f => List.length (snd f) = (n / Z.to_nat num_folds)%nat \/
                   List.length (snd f) = (n / Z.to_nat num_folds + 1)%nat) P.
Proof.
  intros K2 HP.
  destruct (kfold_split_inv _ n P HP) as (order & Eo & ->). cbn [KFold.shuffle KFold.random_state KFold.n_splits] in *.
  assert (Po : Permutation (seq 0 n) order) by (rewrite Eo; apply shuffle_permutes).
  assert (No : NoDup order) by (eapply Permutation_NoDup; [exact Po | apply seq_NoDup]).
  assert (Lo : List.length order = n)
    by (rewrite <- (Permutation_length Po); apply length_seq).
  set (k := Z.to_nat num_folds) in *.
  assert (Kp : (0 < k)%nat) by (unfold k; lia).
  pose proof (fold_sizes_sum n k Kp) as Sum.
  pose proof (chunks_nodup (KFold.fold_sizes n k) order No) as Fc.
  split.
  - rewrite map_map. cbn [snd].
    transitivity (List.concat (KFold.chunks (KFold.fold_sizes n k) order)).
    + apply test_masks_permute; [apply seq_NoDup |].
      eapply Forall_impl; [| exact Fc]. intros c [Nc Ic]. split; [exact Nc |].
      intros x Hx. apply (Permutation_in _ (Permutation_sym Po)). now apply Ic.
    + rewrite concat_chunks, Sum. rewrite firstn_all2 by lia. now symmetry.
  - pose proof (chunks_lengths (KFold.fold_sizes n k) order ltac:(lia)) as Lens.
    apply Forall_forall. intros f Hf. apply in_map_iff in Hf.
    destruct Hf as (c & <- & Hc). cbn [snd].
    assert (Lc : In (List.length c) (KFold.fold_sizes n k)).
    { rewrite <- Lens. now apply in_map. }
    assert (Lt : List.length (filter (fun i => KFold.mem i c) (seq 0 n)) = List.length c).
    { apply Permutation_length. rewrite Forall_forall in Fc. destruct (Fc c Hc) as [Nc Ic].
      apply NoDup_Permutation; [apply NoDup_filter, seq_NoDup | exact Nc |].
      intro x. rewrite filter_In, mem_In. split; [tauto |]. intro Hx. split; [| exact Hx].
      apply (Permutation_in _ (Permutation_sym Po)). now apply Ic. }
    rewrite Lt. unfold KFold.fold_sizes in Lc. apply in_map_iff in Lc.
    destruct Lc as (i & E & _). destruct (i <? n mod k); lia.
Qed.

End Folds.

Lemma toy_shuffle_permutes (seed : Z) (l : list nat) : Permutation l (Toy.rng_shuffle seed l).
Proof.
  unfold Toy.rng_shuffle, Toy.rotate.
  rewrite <- (firstn_skipn (Z.to_nat (seed mod Z.of_nat (List.length l))) l) at 1.
  apply Permutation_app_comm.
Qed.


Lemma folds_test_each_row_once_witness :
  Permutation (List.concat (map snd splits_ex)) (seq 0 6) /\
  Forall (fun f => List.length (snd f) = (6 / Z.to_nat 2)%nat \/
                   List.length (snd f) = (6 / Z.to_nat 2 + 1)%nat) splits_ex.
Proof.
  apply (@folds_test_each_row_once Toy.library toy_shuffle_permutes 2 6 splits_ex).
  - lia.
  - reflexivity.
Defined.
